(** * Document management platform: authorization, upload and lifecycle

    A shallow embedding of the server side of the repository (Express
    middleware, Mongoose models and route handlers) and the proofs of the
    properties stated for it.

    Collections are finite maps from [_id] to record; a request handler is a
    function from the persisted state and the request to a response and the
    next state.  External libraries (jsonwebtoken, bcryptjs, the sha256 of
    node's crypto) are interfaces. *)

From Stdlib Require Import Ascii.
From stdpp Require Import base option list sorting gmap strings pretty.

Local Open Scope N_scope.

(* ===================================================================== *)
(** * JavaScript string and value helpers *)
(* ===================================================================== *)

(** A [string] stands for a JavaScript string all of whose UTF-16 code
    units are below 256: an [ascii] is one code unit (U+0000 to U+00FF),
    not a byte of an encoding.  On these strings the functions below are
    those of the language: the length is [String.length], the blanks are
    those of [String.prototype.trim] and of [\s] (with U+00A0), and
    [toLowerCase] lowers the Latin-1 capitals too.  Strings with a code
    unit from 256 on are outside the model. *)

Module Js.

Definition isUpper (c : ascii) : bool :=
  let n := N_of_ascii c in (65 <=? n) && (n <=? 90).

Definition isLowerAlnum (c : ascii) : bool :=
  let n := N_of_ascii c in
  ((97 <=? n) && (n <=? 122)) || ((48 <=? n) && (n <=? 57)).

(** The capitals of the Latin-1 supplement: U+00C0 to U+00DE without the
    multiplication sign U+00D7. *)
Definition isUpperLatin1 (c : ascii) : bool :=
  let n := N_of_ascii c in (192 <=? n) && (n <=? 222) && negb (n =? 215).

Definition lowerChar (c : ascii) : ascii :=
  if isUpper c || isUpperLatin1 c then ascii_of_N (N_of_ascii c + 32) else c.

(** The blanks of [String.prototype.trim] and of [\s]: U+0009 to U+000D,
    the space and the no-break space U+00A0. *)
Definition isWhiteSpace (c : ascii) : bool :=
  let n := N_of_ascii c in ((9 <=? n) && (n <=? 13)) || (n =? 32) || (n =? 160).

(** [s.toLowerCase()]. *)
Fixpoint toLowerCase (s : string) : string :=
  match s with
  | EmptyString => EmptyString
  | String c s' => String (lowerChar c) (toLowerCase s')
  end.

Fixpoint trimStart (s : string) : string :=
  match s with
  | EmptyString => EmptyString
  | String c s' => if isWhiteSpace c then trimStart s' else s
  end.

Fixpoint trimEnd (s : string) : string :=
  match s with
  | EmptyString => EmptyString
  | String c s' =>
      match trimEnd s' with
      | EmptyString => if isWhiteSpace c then EmptyString else String c EmptyString
      | r => String c r
      end
  end.

(** [s.trim()]. *)
Definition trim (s : string) : string := trimEnd (trimStart s).

(** [s.startsWith(p)]. *)
Fixpoint startsWith (p s : string) : bool :=
  match p, s with
  | EmptyString, _ => true
  | String _ _, EmptyString => false
  | String a p', String b s' => if decide (a = b) then startsWith p' s' else false
  end.

(** [hay.includes(needle)] on strings. *)
Fixpoint includes (needle hay : string) : bool :=
  startsWith needle hay ||
  match hay with
  | EmptyString => false
  | String _ hay' => includes needle hay'
  end.

(** [s.substring(1)]. *)
Definition substring1 (s : string) : string :=
  match s with
  | EmptyString => EmptyString
  | String _ s' => s'
  end.

(** [l.join(sep)]. *)
Fixpoint join (sep : string) (l : list string) : string :=
  match l with
  | [] => ""
  | [x] => x
  | x :: l' => x +:+ sep +:+ join sep l'
  end.

Fixpoint split_go (sep : ascii) (cur : string) (s : string) : list string :=
  match s with
  | EmptyString => [String.rev cur]
  | String c s' =>
      if decide (c = sep) then String.rev cur :: split_go sep "" s'
      else split_go sep (String c cur) s'
  end.

(** [s.split(sep)] for a one-character separator. *)
Definition split (sep : ascii) (s : string) : list string := split_go sep "" s.

(** Truthiness of a string-valued expression that may be [undefined]. *)
Definition truthy (o : option string) : bool :=
  match o with
  | Some (String _ _) => true
  | _ => false
  end.

(** [a || b] on such expressions. *)
Definition or_else (a b : option string) : option string :=
  if truthy a then a else b.

Fixpoint dropSlashes (s : string) : string :=
  match s with
  | String "/" s' => dropSlashes s'
  | _ => s
  end.

(** Reads a reversed path up to the first separator: the reversed base name. *)
Fixpoint takeToSlash (s : string) : string :=
  match s with
  | EmptyString => EmptyString
  | String c s' => if decide (c = "/"%char) then EmptyString else String c (takeToSlash s')
  end.

(** On a reversed base name: the reversed extension without its dot, and
    what stands before the dot; [None] when there is no dot. *)
Fixpoint cutAtDot (s : string) : option (string * string) :=
  match s with
  | EmptyString => None
  | String c s' =>
      if decide (c = "."%char) then Some (EmptyString, s')
      else match cutAtDot s' with
           | Some (e, rest) => Some (String c e, rest)
           | None => None
           end
  end.

(** [path.extname(p)]: from the last dot of the base name to its end; empty
    when the base name has no dot, starts with its only dot, or is [..]. *)
Definition extname (p : string) : string :=
  let base := takeToSlash (dropSlashes (String.rev p)) in
  if decide (base = "..") then ""
  else match cutAtDot base with
       | Some (e, String _ _) => String "." (String.rev e)
       | _ => ""
       end.

(** [Math.round(bytes / 1024 / 1024)]. *)
Definition roundMB (bytes : N) : N := (2 * bytes + 1048576) / 2097152.

End Js.

(* ===================================================================== *)
(** * Data model (models/User.js, Category.js, Document.js,
      DocumentVersion.js, AuditLog.js) *)
(* ===================================================================== *)

Definition ObjectId := N.

Inductive Role := role_admin | role_manager | role_user.

Inductive Status := draft | pending | approved | rejected | archived.

Global Instance Role_eq_dec : EqDecision Role.
Proof. solve_decision. Defined.

Global Instance Status_eq_dec : EqDecision Status.
Proof. solve_decision. Defined.

Definition roleName (r : Role) : string :=
  match r with
  | role_admin => "admin"
  | role_manager => "manager"
  | role_user => "user"
  end.

Definition statusName (s : Status) : string :=
  match s with
  | draft => "draft"
  | pending => "pending"
  | approved => "approved"
  | rejected => "rejected"
  | archived => "archived"
  end.

(** A user document.  [u_password] is [None] on a document loaded without
    [select('+password')] (the schema has [select: false]). *)
Record User := mkUser {
  u_id : ObjectId;
  u_name : string;
  u_email : string;
  u_password : option string;
  u_role : Role;
  u_department : option string;
  u_isActive : bool;
  u_lastLogin : option N
}.

Record Permissions := mkPermissions {
  p_read : list ObjectId;
  p_write : list ObjectId;
  p_delete : list ObjectId
}.

(** A document record; the counters and the extracted metadata are left
    out. *)
Record Document := mkDocument {
  d_id : ObjectId;
  d_title : string;
  d_description : option string;
  d_fileName : string;
  d_originalName : string;
  d_filePath : string;
  d_fileSize : N;
  d_mimeType : string;
  d_fileExtension : string;
  d_category : ObjectId;
  d_tags : list string;
  d_uploadedBy : ObjectId;
  d_department : option string;
  d_version : N;
  d_status : Status;
  d_approvedBy : option ObjectId;
  d_approvedAt : option N;
  d_rejectionReason : option string;
  d_expiryDate : option N;
  d_isPublic : bool;
  d_permissions : Permissions;
  d_isActive : bool;
  d_isDeleted : bool;
  d_deletedAt : option N;
  d_deletedBy : option ObjectId
}.

(** A reply, [res.status(code).json({ success, error, message, data })],
    without its data. *)
Record Response := mkResponse {
  statusCode : N;
  success : bool;
  error : option string;
  message : option string
}.

Definition jsonError (code : N) (msg : string) : Response :=
  mkResponse code false (Some msg) None.

Definition jsonOk (code : N) (msg : string) : Response :=
  mkResponse code true None (Some msg).

(** What a middleware does: hand over to the next one, or reply. *)
Inductive Gate (A : Type) :=
  | Next (a : A)
  | Reply (r : Response).
Global Arguments Next {A} a.
Global Arguments Reply {A} r.

(* ===================================================================== *)
(** * External libraries *)
(* ===================================================================== *)

Record JwtPayload := mkJwtPayload { jwt_id : ObjectId; jwt_role : Role }.

(** [jwt.verify(token, secret)]: the payload of a token that carries a valid
    signature and has not expired; [None] stands for the exception. *)
Class Jwt := { jwt_verify : string → option JwtPayload }.

(** bcryptjs.  The salt of [genSalt] is random: it is an input of whoever
    hashes. *)
Class Bcrypt := {
  bcrypt_hash : string → string → string;
  bcrypt_compare : string → string → bool
}.

(** Ids as requests carry them, as text.  [castObjectId] is Mongoose's cast
    of a string to an ObjectId ([None]: it throws a CastError), [isMongoId]
    the check of express-validator, and [idText] is
    [ObjectId.prototype.toString], which is also the [id] of a document. *)
Class MongoIds := {
  castObjectId : string → option ObjectId;
  isMongoId : string → bool;
  idText : ObjectId → string
}.

(* ===================================================================== *)
(** * middleware/auth.js *)
(* ===================================================================== *)

Section Auth.
Context {jwt : Jwt}.

(** The token of the [Authorization] header: [split(' ')[1]] of a header
    that starts with [Bearer]. *)
Definition bearerToken (authorization : option string) : option string :=
  match authorization with
  | Some h => if Js.startsWith "Bearer" h then Js.split " " h !! 1%nat else None
  | None => None
  end.

Definition protect (users : gmap ObjectId User) (authorization : option string)
  : Gate User :=
  match bearerToken authorization with
  | Some (String c t) =>
      match jwt_verify (String c t) with
      | Some decoded =>
          match users !! jwt_id decoded with
          | None => Reply (jsonError 401 "No user found with this token")
          | Some user =>
              if negb (u_isActive user)
              then Reply (jsonError 401 "User account is deactivated")
              else Next user
          end
      | None => Reply (jsonError 401 "Not authorized to access this route")
      end
  | _ => Reply (jsonError 401 "Not authorized to access this route")
  end.

(** [router.use(protect)] in front of a handler over a state [S]. *)
Definition use_protect {S : Type} (users : gmap ObjectId User)
    (authorization : option string) (handler : User → S → Response * S)
    (st : S) : Response * S :=
  match protect users authorization with
  | Next user => handler user st
  | Reply r => (r, st)
  end.

End Auth.

Definition authorize (roles : list Role) (user : User) : Gate unit :=
  if bool_decide (u_role user ∈ roles) then Next ()
  else Reply (jsonError 403 ("User role " +:+ roleName (u_role user)
                        +:+ " is not authorized to access this route")).

(** [this.permissions[permission]]. *)
Definition permissionList (p : Permissions) (permission : string)
  : option (list ObjectId) :=
  if decide (permission = "read") then Some (p_read p)
  else if decide (permission = "write") then Some (p_write p)
  else if decide (permission = "delete") then Some (p_delete p)
  else None.

(** [documentSchema.methods.hasPermission]. *)
Definition hasPermission (d : Document) (userId : ObjectId) (permission : string)
  : bool :=
  if decide (d_uploadedBy d = userId) then true
  else match permissionList (d_permissions d) permission with
       | Some l => bool_decide (userId ∈ l)
       | None => false
       end.

(** [checkOwnership(Document)]: the owner field of a document is its
    [uploadedBy], which the schema requires. *)
Definition checkOwnership (documents : gmap ObjectId Document) (user : User)
    (resourceId : ObjectId) : Gate Document :=
  match documents !! resourceId with
  | None => Reply (jsonError 404 "Resource not found")
  | Some resource =>
      if decide (u_role user = role_admin ∨ u_role user = role_manager)
      then Next resource
      else if decide (d_uploadedBy resource = u_id user) then Next resource
      else if hasPermission resource (u_id user) "read" then Next resource
      else Reply (jsonError 403 "Not authorized to access this resource")
  end.

(* --------------------------------------------------------------------- *)
(** ** The audit trail (models/AuditLog.js and the [auditLog] middleware) *)
(* --------------------------------------------------------------------- *)

Inductive Action :=
  | act_login | act_logout | act_password_change | act_password_reset
  | act_document_upload | act_document_view | act_document_download
  | act_document_update | act_document_delete | act_document_share
  | act_document_approve | act_document_reject | act_document_archive
  | act_version_create | act_version_rollback | act_version_delete
  | act_category_create | act_category_update | act_category_delete
  | act_user_create | act_user_update | act_user_delete
  | act_user_activate | act_user_deactivate
  | act_permission_grant | act_permission_revoke
  | act_system_backup | act_system_restore | act_system_maintenance.

Inductive ResourceKind :=
  res_document | res_user | res_category | res_system | res_version.

Inductive AuditStatus := audit_success | audit_failure | audit_warning.

Global Instance Action_eq_dec : EqDecision Action.
Proof. solve_decision. Defined.

Global Instance ResourceKind_eq_dec : EqDecision ResourceKind.
Proof. solve_decision. Defined.

Global Instance AuditStatus_eq_dec : EqDecision AuditStatus.
Proof. solve_decision. Defined.

(** [req.params.id || req.body.id || req.user.id || 'system']. *)
Inductive ResourceRef := ref_id (i : ObjectId) | ref_uncastable | ref_system.

(** [req.params.id] or [req.body.id] as a request brings it: a value that
    Mongoose casts to an ObjectId; a truthy value that it does not cast (a
    text that is no id, a number, an object); or a falsy one (the empty
    string, [null], [0], [false]). *)
Inductive IdParam := id_cast (i : ObjectId) | id_uncastable | id_falsy.

(** The text of a route parameter as such a value. *)
Definition idParam {ids : MongoIds} (text : string) : IdParam :=
  match text with
  | "" => id_falsy
  | _ => from_option id_cast id_uncastable (castObjectId text)
  end.

(** [a || b] on two such values that may be missing. *)
Definition firstTruthy (a b : option IdParam) : option IdParam :=
  match a with
  | Some (id_cast i) => Some (id_cast i)
  | Some id_uncastable => Some id_uncastable
  | Some id_falsy | None =>
      match b with
      | Some (id_cast i) => Some (id_cast i)
      | Some id_uncastable => Some id_uncastable
      | Some id_falsy | None => None
      end
  end.

Record AuditDetails := mkAuditDetails {
  det_method : string;
  det_url : string;
  det_statusCode : N;
  det_responseSuccess : option bool
}.

Record AuditLogEntry := mkAuditLogEntry {
  al_user : ObjectId;
  al_action : Action;
  al_resource : ResourceKind;
  al_resourceId : ObjectId;
  al_details : AuditDetails;
  al_ipAddress : string;
  al_userAgent : string;
  al_sessionId : string;
  al_status : AuditStatus;
  al_errorMessage : option string;
  al_duration : N;
  al_timestamp : N
}.

(** What the middleware reads of the request when the response is finished. *)
Record Request := mkRequest {
  req_user : option User;
  req_params_id : option IdParam;
  req_body_id : option IdParam;
  req_method : string;
  req_originalUrl : string;
  req_ip : option string;
  req_remoteAddress : option string;
  req_userAgent : option string;
  req_sessionID : option string
}.

Record LogData := mkLogData {
  ld_userId : ObjectId;
  ld_action : Action;
  ld_resource : ResourceKind;
  ld_resourceId : ResourceRef;
  ld_details : AuditDetails;
  ld_ipAddress : string;
  ld_userAgent : string;
  ld_sessionId : string;
  ld_status : AuditStatus;
  ld_errorMessage : option string;
  ld_duration : N
}.

Definition withDefault (o : option string) (d : string) : string :=
  match Js.or_else o (Some d) with
  | Some s => s
  | None => d
  end.

(** The handler of [res.on('finish')].  [captured] is what the wrapped
    [res.json] saw: nothing when the handler never called it, and then the
    status code stays at its initial 200. *)
Definition auditLog_finish (action : Action) (resource : ResourceKind)
    (req : Request) (captured : option Response) (duration : N) : option LogData :=
  let statusCode := from_option statusCode 200 captured in
  let status := if 400 <=? statusCode then audit_failure else audit_success in
  if bool_decide (req_user req = None)
     && negb (bool_decide (action ∈ [act_login; act_user_create]))
  then None
  else
    let userId := u_id <$> req_user req in
    let resourceId :=
      match firstTruthy (req_params_id req) (req_body_id req), req_user req with
      | Some (id_cast i), _ => ref_id i
      | Some _, _ => ref_uncastable
      | None, Some u => ref_id (u_id u)
      | None, None => ref_system
      end in
    match userId with
    | Some uid =>
        Some {| ld_userId := uid;
                ld_action := action;
                ld_resource := resource;
                ld_resourceId := resourceId;
                ld_details :=
                  {| det_method := req_method req;
                     det_url := req_originalUrl req;
                     det_statusCode := statusCode;
                     det_responseSuccess := success <$> captured |};
                ld_ipAddress :=
                  withDefault (Js.or_else (req_ip req) (req_remoteAddress req))
                              "127.0.0.1";
                ld_userAgent := withDefault (req_userAgent req) "Unknown";
                ld_sessionId := withDefault (req_sessionID req) "no-session";
                ld_status := status;
                ld_errorMessage :=
                  match status, captured with
                  | audit_failure, Some r => error r
                  | _, _ => None
                  end;
                ld_duration := duration |}
    | None => None
    end.

(** [AuditLog.logAction]: builds the entry and saves it; a validation
    error (a resource id that is no ObjectId, an empty required string) is
    caught and nothing is written. *)
Definition logAction (now : N) (log : list AuditLogEntry) (d : LogData)
  : list AuditLogEntry :=
  match ld_resourceId d with
  | ref_id rid =>
      if bool_decide (ld_ipAddress d = "") || bool_decide (ld_userAgent d = "")
      then log
      else log ++ [ {| al_user := ld_userId d;
                       al_action := ld_action d;
                       al_resource := ld_resource d;
                       al_resourceId := rid;
                       al_details := ld_details d;
                       al_ipAddress := ld_ipAddress d;
                       al_userAgent := ld_userAgent d;
                       al_sessionId := ld_sessionId d;
                       al_status := ld_status d;
                       al_errorMessage := ld_errorMessage d;
                       al_duration := ld_duration d;
                       al_timestamp := now |} ]
  | ref_uncastable | ref_system => log
  end.

(** [auditLog(action, resource)] around a finished response. *)
Definition auditLog (action : Action) (resource : ResourceKind) (req : Request)
    (captured : option Response) (now duration : N) (log : list AuditLogEntry)
  : list AuditLogEntry :=
  match auditLog_finish action resource req captured duration with
  | Some d => logAction now log d
  | None => log
  end.

(* --------------------------------------------------------------------- *)
(** ** Categories, versions and the persisted state *)
(* --------------------------------------------------------------------- *)

(** A category document; the presentation fields (description, icon,
    colour) and the unused approver and permission lists are left out. *)
Record Category := mkCategory {
  c_id : ObjectId;
  c_name : string;
  c_slug : string;
  c_parent : option ObjectId;
  c_level : N;
  c_path : string;
  c_allowedFileTypes : list string;
  c_maxFileSize : N;
  c_requiresApproval : bool;
  c_documentCount : N;
  c_isActive : bool;
  c_createdBy : ObjectId
}.

Record DocumentVersion := mkDocumentVersion {
  v_document : ObjectId;
  v_version : N;
  v_fileName : string;
  v_originalName : string;
  v_filePath : string;
  v_fileSize : N;
  v_mimeType : string;
  v_checksum : string;
  v_uploadedBy : ObjectId
}.

(** The five collections, the files under the upload directory (path to
    content), and the source of fresh [_id]s. *)
Record DB := mkDB {
  users : gmap ObjectId User;
  categories : gmap ObjectId Category;
  documents : gmap ObjectId Document;
  versions : list DocumentVersion;
  auditLogs : list AuditLogEntry;
  files : gmap string string;
  nextId : ObjectId
}.

Definition set_users (f : gmap ObjectId User) (st : DB) : DB :=
  mkDB f (categories st) (documents st) (versions st) (auditLogs st) (files st) (nextId st).

Definition set_categories (f : gmap ObjectId Category) (st : DB) : DB :=
  mkDB (users st) f (documents st) (versions st) (auditLogs st) (files st) (nextId st).

Definition set_documents (f : gmap ObjectId Document) (st : DB) : DB :=
  mkDB (users st) (categories st) f (versions st) (auditLogs st) (files st) (nextId st).

Definition set_versions (f : list DocumentVersion) (st : DB) : DB :=
  mkDB (users st) (categories st) (documents st) f (auditLogs st) (files st) (nextId st).

Definition set_auditLogs (f : list AuditLogEntry) (st : DB) : DB :=
  mkDB (users st) (categories st) (documents st) (versions st) f (files st) (nextId st).

Definition set_files (f : gmap string string) (st : DB) : DB :=
  mkDB (users st) (categories st) (documents st) (versions st) (auditLogs st) f (nextId st).

Definition set_nextId (i : ObjectId) (st : DB) : DB :=
  mkDB (users st) (categories st) (documents st) (versions st) (auditLogs st) (files st) i.

(** The part of a request that the client and the transport fix. *)
Record Client := mkClient {
  cl_method : string;
  cl_originalUrl : string;
  cl_ip : option string;
  cl_remoteAddress : option string;
  cl_userAgent : option string;
  cl_sessionID : option string
}.

Definition requestOf (cl : Client) (user : option User)
    (params_id body_id : option IdParam) : Request :=
  {| req_user := user;
     req_params_id := params_id;
     req_body_id := body_id;
     req_method := cl_method cl;
     req_originalUrl := cl_originalUrl cl;
     req_ip := cl_ip cl;
     req_remoteAddress := cl_remoteAddress cl;
     req_userAgent := cl_userAgent cl;
     req_sessionID := cl_sessionID cl |}.

(** The request of a route whose ids, where it has them, are ids. *)
Definition request (cl : Client) (user : option User)
    (params_id body_id : option ObjectId) : Request :=
  requestOf cl user (id_cast <$> params_id) (id_cast <$> body_id).

(** A rule under [optional()]: it is skipped on a field that is absent. *)
Definition optional {A : Type} (rule : A → bool) (field : option A) : bool :=
  match field with
  | Some x => rule x
  | None => true
  end.

(** [isLength({ min, max })]. *)
Definition lengthBetween (min max : nat) (s : string) : bool :=
  (min <=? String.length s)%nat && (String.length s <=? max)%nat.

(** A [required] string of a schema: there and not empty. *)
Definition nonEmpty (s : string) : bool := negb (bool_decide (s = "")).

(** [validateRequest]'s reply when a rule fails. *)
Definition validationFailed : Response := jsonError 400 "Validation failed".

(* --------------------------------------------------------------------- *)
(** ** models/User.js and POST /api/auth/login *)
(* --------------------------------------------------------------------- *)

(** express-validator's [isEmail] and [normalizeEmail]. *)
Class EmailValidator := {
  isEmail : string → bool;
  normalizeEmail : string → string
}.

Definition set_password (pw : option string) (u : User) : User :=
  mkUser (u_id u) (u_name u) (u_email u) pw (u_role u) (u_department u)
         (u_isActive u) (u_lastLogin u).

Definition set_lastLogin (t : option N) (u : User) : User :=
  mkUser (u_id u) (u_name u) (u_email u) (u_password u) (u_role u)
         (u_department u) (u_isActive u) t.

Record LoginBody := mkLoginBody {
  lb_email : string;
  lb_password : string;
  lb_id : option ObjectId
}.

Section UserModel.
Context {bcrypt : Bcrypt} {validator : EmailValidator}.

(** A run of a save hook: the document at the first call of [next], which
    is when the save goes on to its write ([None]: the hook fails before
    it calls [next], and so does the save); the document in memory when
    the body of the hook has ended ([None]: it ends in a rejection); and the
    number of calls of [next]. *)
Record HookRun := mkHookRun {
  hr_released : option User;
  hr_final : option User;
  hr_nextCalls : nat
}.

(** [userSchema.pre('save')].  With the password unmodified the guard
    calls [next()], which lets the save go on, and does not return: the
    body then hashes the password of the document in memory once more and
    calls [next] a second time.  [bcrypt.hash] rejects a password that was
    not loaded. *)
Definition User_preSave (isModifiedPassword : bool) (salt : string)
    (this : User) : HookRun :=
  let hashed : option User :=
    (λ pw, set_password (Some (bcrypt_hash pw salt)) this) <$> u_password this in
  let calls := match hashed with Some _ => 1%nat | None => 0%nat end in
  if isModifiedPassword
  then {| hr_released := hashed; hr_final := hashed; hr_nextCalls := calls |}
  else {| hr_released := Some this; hr_final := hashed; hr_nextCalls := S calls |}.

(** [userSchema.methods.matchPassword]; [None]: [bcrypt.compare] rejects
    a hash that was not loaded. *)
Definition matchPassword (this : User) (enteredPassword : string) : option bool :=
  bcrypt_compare enteredPassword <$> u_password this.

(** [user.save()]: the hook runs up to its first [next()], then the
    modified paths of the document are written.  The password is among
    them when it is modified; when it is not, the collection keeps the
    password it has.  The result is the collection and the record
    written. *)
Definition User_save (users : gmap ObjectId User) (isModifiedPassword : bool)
    (salt : string) (this : User) : option (gmap ObjectId User * User) :=
  match hr_released (User_preSave isModifiedPassword salt this) with
  | Some released =>
      let written :=
        if isModifiedPassword then released
        else match users !! u_id released with
             | Some stored => set_password (u_password stored) released
             | None => released
             end in
      Some (<[u_id written := written]> users, written)
  | None => None
  end.

(** [User.findOne({ email }).select('+password')]. *)
Definition User_findOne_email (users : gmap ObjectId User) (email : string)
  : option User :=
  snd <$> List.find (λ kv, bool_decide (u_email kv.2 = email)) (map_to_list users).

Definition loginValidation (b : LoginBody) : option LoginBody :=
  if isEmail (lb_email b) && negb (bool_decide (lb_password b = ""))
  then Some (mkLoginBody (normalizeEmail (lb_email b)) (lb_password b) (lb_id b))
  else None.

(** The handler of POST /api/auth/login. *)
Definition login (users : gmap ObjectId User) (b : LoginBody) (now : N)
    (salt : string) : Response * gmap ObjectId User :=
  match User_findOne_email users (lb_email b) with
  | None => (jsonError 401 "Invalid credentials", users)
  | Some user =>
      if negb (u_isActive user)
      then (jsonError 401 "Account is deactivated. Please contact administrator", users)
      else match matchPassword user (lb_password b) with
           | None => (jsonError 500 "Server error during login", users)
           | Some false => (jsonError 401 "Invalid credentials", users)
           | Some true =>
               match User_save users false salt (set_lastLogin (Some now) user) with
               | Some (users', _) => (jsonOk 200 "Login successful", users')
               | None => (jsonError 500 "Server error during login", users)
               end
           end
  end.

(** The route: [rateLimitSensitive], [validateRequest(loginValidation)],
    [auditLog('login', 'user')], handler.  [limited] is the verdict of the
    rate limiter.  Nothing on this route sets [req.user]. *)
Definition route_login (st : DB) (cl : Client) (limited : bool) (b : LoginBody)
    (now duration : N) (salt : string) : Response * DB :=
  if limited
  then (jsonError 429 "Too many attempts, please try again later", st)
  else match loginValidation b with
       | None => (validationFailed, st)
       | Some b' =>
           let '(r, users') := login (users st) b' now salt in
           let req := request cl None None (lb_id b') in
           (r, set_auditLogs
                 (auditLog act_login res_user req (Some r) now duration (auditLogs st))
                 (set_users users' st))
       end.

End UserModel.

(* --------------------------------------------------------------------- *)
(** ** models/Category.js and routes/categories.js *)
(* --------------------------------------------------------------------- *)

Fixpoint replaceNonAlnum (s : string) : string :=
  match s with
  | EmptyString => EmptyString
  | String c s' =>
      String (if Js.isLowerAlnum c then c else "-"%char) (replaceNonAlnum s')
  end.

Fixpoint collapseDashes (s : string) : string :=
  match s with
  | EmptyString => EmptyString
  | String c s' =>
      if bool_decide (c = "-"%char) && Js.startsWith "-" s'
      then collapseDashes s'
      else String c (collapseDashes s')
  end.

Definition stripLeadingDash (s : string) : string :=
  match s with
  | EmptyString => EmptyString
  | String c s' => if decide (c = "-"%char) then s' else s
  end.

Definition stripEdgeDashes (s : string) : string :=
  String.rev (stripLeadingDash (String.rev (stripLeadingDash s))).

(** [name.toLowerCase().replace(/[^a-z0-9]/g, '-').replace(/-+/g, '-')
         .replace(/^-|-$/g, '')]. *)
Definition baseSlug (name : string) : string :=
  stripEdgeDashes (collapseDashes (replaceNonAlnum (Js.toLowerCase name))).

(** [findOne({ slug, _id: { $ne: this._id } })] finds a category. *)
Definition slugTaken (cats : gmap ObjectId Category) (self : ObjectId)
    (slug : string) : bool :=
  existsb (λ kv, bool_decide (c_slug kv.2 = slug) && negb (bool_decide (kv.1 = self)))
          (map_to_list cats).

Definition candidate (base : string) (counter : nat) : string :=
  base +:+ "-" +:+ pretty counter.

(** The [while (true)] loop of the hook, from the state [(slug, counter)].
    Each round that finds [slug] taken names one more category, so the
    loop ends within [size cats] rounds: with that many rounds behind it, the
    next candidate is free and is the one the loop breaks on. *)
Fixpoint uniqueSlug (taken : string → bool) (base slug : string) (counter : nat)
    (rounds : nat) : string :=
  match rounds with
  | O => slug
  | S rounds' =>
      if taken slug
      then uniqueSlug taken base (candidate base counter) (S counter) rounds'
      else slug
  end.

Definition set_slug (s : string) (c : Category) : Category :=
  mkCategory (c_id c) (c_name c) s (c_parent c) (c_level c) (c_path c)
             (c_allowedFileTypes c) (c_maxFileSize c) (c_requiresApproval c)
             (c_documentCount c) (c_isActive c) (c_createdBy c).

Definition set_level_path (l : N) (p : string) (c : Category) : Category :=
  mkCategory (c_id c) (c_name c) (c_slug c) (c_parent c) l p
             (c_allowedFileTypes c) (c_maxFileSize c) (c_requiresApproval c)
             (c_documentCount c) (c_isActive c) (c_createdBy c).

Definition set_documentCount (n : N) (c : Category) : Category :=
  mkCategory (c_id c) (c_name c) (c_slug c) (c_parent c) (c_level c) (c_path c)
             (c_allowedFileTypes c) (c_maxFileSize c) (c_requiresApproval c)
             n (c_isActive c) (c_createdBy c).

Definition set_c_isActive (b : bool) (c : Category) : Category :=
  mkCategory (c_id c) (c_name c) (c_slug c) (c_parent c) (c_level c) (c_path c)
             (c_allowedFileTypes c) (c_maxFileSize c) (c_requiresApproval c)
             (c_documentCount c) b (c_createdBy c).

(** [categorySchema.pre('save')]. *)
Definition Category_preSave (cats : gmap ObjectId Category) (isModifiedName : bool)
    (this : Category) : Category :=
  let this1 :=
    if isModifiedName || bool_decide (c_slug this = "")
    then let b := baseSlug (c_name this) in
         set_slug (uniqueSlug (slugTaken cats (c_id this)) b b 1 (size cats)) this
    else this in
  match c_parent this1 with
  | Some p =>
      match cats !! p with
      | Some parentCategory =>
          set_level_path (c_level parentCategory + 1)
            (if bool_decide (c_path parentCategory = "")
             then c_slug this1
             else c_path parentCategory +:+ "/" +:+ c_slug this1)
            this1
      | None => this1
      end
  | None => set_level_path 0 (c_slug this1) this1
  end.

(** The [required] and [maxlength] validators of the category schema. *)
Definition Category_valid (c : Category) : bool :=
  nonEmpty (c_name c) && (String.length (c_name c) <=? 100)%nat.

(** [category.save()] of a loaded category: the hook, then the write. *)
Definition Category_save (cats : gmap ObjectId Category) (isModifiedName : bool)
    (this : Category) : gmap ObjectId Category :=
  <[c_id this := Category_preSave cats isModifiedName this]> cats.

Record CategoryBody := mkCategoryBody {
  cb_name : string;
  cb_parent : option ObjectId;
  cb_allowedFileTypes : option (list string);
  cb_maxFileSize : option N;
  cb_requiresApproval : option bool;
  cb_id : option ObjectId
}.

Definition defaultMaxFileSize : N := 50 * 1024 * 1024.

(** The rules of POST /api/categories on the modelled fields: the name is
    trimmed and has 2 to 100 characters, a size is at least 1. *)
Definition createCategoryValidation (b : CategoryBody) : option CategoryBody :=
  let name := Js.trim (cb_name b) in
  if lengthBetween 2 100 name && optional (N.leb 1) (cb_maxFileSize b)
  then Some (mkCategoryBody name (cb_parent b) (cb_allowedFileTypes b)
                            (cb_maxFileSize b) (cb_requiresApproval b) (cb_id b))
  else None.

(** The handler of POST /api/categories: [Category.create] builds the
    document with the schema's setters and defaults, under a fresh [_id],
    and saves it as a new document, whose name counts as modified; a
    document that fails the schema's validators is not saved, and the
    [catch] answers. *)
Definition createCategory (st : DB) (user : User) (b : CategoryBody)
  : Response * DB :=
  let go :=
    let this :=
      {| c_id := nextId st;
         c_name := Js.trim (cb_name b);
         c_slug := "";
         c_parent := cb_parent b;
         c_level := 0;
         c_path := "";
         c_allowedFileTypes := Js.toLowerCase <$> default [] (cb_allowedFileTypes b);
         c_maxFileSize :=
           match cb_maxFileSize b with
           | Some 0 | None => defaultMaxFileSize
           | Some n => n
           end;
         c_requiresApproval := default true (cb_requiresApproval b);
         c_documentCount := 0;
         c_isActive := true;
         c_createdBy := u_id user |} in
    if negb (Category_valid this)
    then (jsonError 500 "Server error while creating category", st)
    else (jsonOk 201 "Category created successfully",
          set_nextId (nextId st + 1)
            (set_categories (Category_save (categories st) true this) st)) in
  match cb_parent b with
  | Some p =>
      match categories st !! p with
      | None => (jsonError 400 "Parent category not found", st)
      | Some _ => go
      end
  | None => go
  end.

Definition audited (action : Action) (resource : ResourceKind) (req : Request)
    (now duration : N) (out : Response * DB) : Response * DB :=
  (out.1,
   set_auditLogs (auditLog action resource req (Some out.1) now duration
                           (auditLogs out.2)) out.2).

(** POST /api/categories behind [protect]: [authorize('admin', 'manager')],
    [validateRequest], [auditLog('category_create', 'category')], handler. *)
Definition route_createCategory (st : DB) (cl : Client) (user : User)
    (b : CategoryBody) (now duration : N) : Response * DB :=
  match authorize [role_admin; role_manager] user with
  | Reply r => (r, st)
  | Next _ =>
      match createCategoryValidation b with
      | None => (validationFailed, st)
      | Some b' =>
          audited act_category_create res_category
                  (request cl (Some user) None (cb_id b')) now duration
                  (createCategory st user b')
      end
  end.

(** The body of PUT /api/categories/:id on the paths of the model, each
    with the value the body gives it, if any.  The handler hands the whole
    body to [findByIdAndUpdate], so every path of the schema can be
    named.  The parent and the creator are text, as the body has them. *)
Record CategoryUpdate := mkCategoryUpdate {
  cu_name : option string;
  cu_slug : option string;
  cu_parent : option string;
  cu_level : option N;
  cu_path : option string;
  cu_allowedFileTypes : option (list string);
  cu_maxFileSize : option N;
  cu_requiresApproval : option bool;
  cu_documentCount : option N;
  cu_isActive : option bool;
  cu_createdBy : option string;
  cu_id : option ObjectId
}.

(** The update as Mongoose casts it: the ids cast, the setters of the
    schema applied ([lowercase] on the slug and on the file types). *)
Record CategoryWrite := mkCategoryWrite {
  cw_name : option string;
  cw_slug : option string;
  cw_parent : option ObjectId;
  cw_level : option N;
  cw_path : option string;
  cw_allowedFileTypes : option (list string);
  cw_maxFileSize : option N;
  cw_requiresApproval : option bool;
  cw_documentCount : option N;
  cw_isActive : option bool;
  cw_createdBy : option ObjectId
}.

(** What [findByIdAndUpdate] makes of a stored category: the paths of the
    update are set, the others stay; no save hook runs on this path. *)
Definition Category_findByIdAndUpdate (w : CategoryWrite) (c : Category)
  : Category :=
  {| c_id := c_id c;
     c_name := default (c_name c) (cw_name w);
     c_slug := default (c_slug c) (cw_slug w);
     c_parent := match cw_parent w with Some p => Some p | None => c_parent c end;
     c_level := default (c_level c) (cw_level w);
     c_path := default (c_path c) (cw_path w);
     c_allowedFileTypes := default (c_allowedFileTypes c) (cw_allowedFileTypes w);
     c_maxFileSize := default (c_maxFileSize c) (cw_maxFileSize w);
     c_requiresApproval := default (c_requiresApproval c) (cw_requiresApproval w);
     c_documentCount := default (c_documentCount c) (cw_documentCount w);
     c_isActive := default (c_isActive c) (cw_isActive w);
     c_createdBy := default (c_createdBy c) (cw_createdBy w) |}.

(** The validators that [runValidators: true] runs: those of the paths
    that the update names. *)
Definition updateValidators (w : CategoryWrite) : bool :=
  from_option (λ name, nonEmpty name && (String.length name <=? 100)%nat) true
              (cw_name w).

Section CategoryUpdates.
Context {ids : MongoIds}.

(** The rules of PUT /api/categories/:id on the modelled fields; they say
    nothing on the slug, the level, the path, the counter and the
    creator. *)
Definition updateCategoryValidation (b : CategoryUpdate) : option CategoryUpdate :=
  let name := Js.trim <$> cu_name b in
  if optional (lengthBetween 2 100) name && optional isMongoId (cu_parent b)
     && optional (N.leb 1) (cu_maxFileSize b)
  then Some (mkCategoryUpdate name (cu_slug b) (cu_parent b) (cu_level b) (cu_path b)
               (cu_allowedFileTypes b) (cu_maxFileSize b) (cu_requiresApproval b)
               (cu_documentCount b) (cu_isActive b) (cu_createdBy b) (cu_id b))
  else None.

(** The cast of an id that an update names; the outer [None]: a
    CastError. *)
Definition castField (text : option string) : option (option ObjectId) :=
  match text with
  | Some t => Some <$> castObjectId t
  | None => Some None
  end.

Definition castUpdate (b : CategoryUpdate) : option CategoryWrite :=
  match castField (cu_parent b), castField (cu_createdBy b) with
  | Some parent, Some createdBy =>
      Some {| cw_name := Js.trim <$> cu_name b;
              cw_slug := Js.toLowerCase <$> cu_slug b;
              cw_parent := parent;
              cw_level := cu_level b;
              cw_path := cu_path b;
              cw_allowedFileTypes :=
                (λ l : list string, Js.toLowerCase <$> l) <$> cu_allowedFileTypes b;
              cw_maxFileSize := cu_maxFileSize b;
              cw_requiresApproval := cu_requiresApproval b;
              cw_documentCount := cu_documentCount b;
              cw_isActive := cu_isActive b;
              cw_createdBy := createdBy |}
  | _, _ => None
  end.

(** The handler of PUT /api/categories/:id.  The test for a category as
    its own parent compares the two texts of the request.  A CastError and
    a failed validator end in the [catch] with 500, a slug that the unique
    index finds on another category with the error code 11000 and 400. *)
Definition updateCategory (st : DB) (id : string) (b : CategoryUpdate)
  : Response * DB :=
  let serverError := (jsonError 500 "Server error while updating category", st) in
  match castObjectId id with
  | None => serverError
  | Some i =>
      match categories st !! i with
      | None => (jsonError 404 "Category not found", st)
      | Some category =>
          let go :=
            match castUpdate b with
            | None => serverError
            | Some w =>
                if negb (updateValidators w) then serverError
                else if from_option (slugTaken (categories st) i) false (cw_slug w)
                then (jsonError 400 "Category with this name already exists", st)
                else (jsonOk 200 "Category updated successfully",
                      set_categories
                        (<[i := Category_findByIdAndUpdate w category]> (categories st))
                        st)
            end in
          if Js.truthy (cu_parent b)
          then
            if bool_decide (cu_parent b = Some id)
            then (jsonError 400 "Category cannot be its own parent", st)
            else
              match cu_parent b ≫= castObjectId with
              | None => serverError
              | Some p =>
                  match categories st !! p with
                  | None => (jsonError 400 "Parent category not found", st)
                  | Some _ => go
                  end
              end
          else go
      end
  end.

(** The route behind [protect]: [authorize('admin', 'manager')],
    [validateRequest], [auditLog('category_update', 'category')],
    handler. *)
Definition route_updateCategory (st : DB) (cl : Client) (user : User)
    (id : string) (b : CategoryUpdate) (now duration : N) : Response * DB :=
  match authorize [role_admin; role_manager] user with
  | Reply r => (r, st)
  | Next _ =>
      match updateCategoryValidation b with
      | None => (validationFailed, st)
      | Some b' =>
          audited act_category_update res_category
                  (requestOf cl (Some user) (Some (idParam id)) (id_cast <$> cu_id b'))
                  now duration (updateCategory st id b')
      end
  end.

End CategoryUpdates.

(* --------------------------------------------------------------------- *)
(** ** middleware/upload.js *)
(* --------------------------------------------------------------------- *)

(** [process.env]: [MAX_FILE_SIZE] after [parseInt], [None] when it is
    unset or no number. *)
Record Env := mkEnv {
  ALLOWED_FILE_TYPES : option string;
  MAX_FILE_SIZE : option N
}.

(** The file of a multipart request, with the name and path that the disk
    storage picks for it and its bytes. *)
Record UploadedFile := mkUploadedFile {
  f_originalname : string;
  f_mimetype : string;
  f_size : N;
  f_filename : string;
  f_path : string;
  f_content : string
}.

Definition defaultAllowedTypes : list string :=
  ["pdf"; "doc"; "docx"; "xls"; "xlsx"; "ppt"; "pptx"; "txt"; "jpg"; "jpeg";
   "png"; "gif"].

Definition allowedTypes (env : Env) : list string :=
  match ALLOWED_FILE_TYPES env with
  | Some (String c s) => Js.split "," (String c s)
  | _ => defaultAllowedTypes
  end.

(** [path.extname(originalname).toLowerCase().substring(1)]. *)
Definition fileExtensionOf (originalname : string) : string :=
  Js.substring1 (Js.toLowerCase (Js.extname originalname)).

(** [fileFilter]: the file passes when its extension is in the list. *)
Definition fileFilter (env : Env) (file : UploadedFile) : bool :=
  bool_decide (fileExtensionOf (f_originalname file) ∈ allowedTypes env).

Definition fileSizeLimit (env : Env) : N :=
  match MAX_FILE_SIZE env with
  | Some 0 | None => defaultMaxFileSize
  | Some n => n
  end.

(** [deleteFile]: unlinks the path; a path that is not there is no error. *)
Definition deleteFile (files : gmap string string) (filePath : string)
  : gmap string string :=
  delete filePath files.

(** [getFileMetadata]. *)
Record FileMetadata := mkFileMetadata {
  fm_fileName : string;
  fm_originalName : string;
  fm_filePath : string;
  fm_fileSize : N;
  fm_mimeType : string;
  fm_fileExtension : string
}.

Definition getFileMetadata (file : UploadedFile) : FileMetadata :=
  {| fm_fileName := f_filename file;
     fm_originalName := f_originalname file;
     fm_filePath := f_path file;
     fm_fileSize := f_size file;
     fm_mimeType := f_mimetype file;
     fm_fileExtension := fileExtensionOf (f_originalname file) |}.

(** node's [crypto.createHash('sha256')] over the bytes of a file. *)
Class Sha256 := { sha256 : string → string }.

(* --------------------------------------------------------------------- *)
(** ** The document routes *)
(* --------------------------------------------------------------------- *)

(** The places where POST /api/documents ends. *)
Inductive UploadExit :=
  | exit_noFile
  | exit_fileFilter (fileExtension : string) (allowed : list string)
  | exit_fileTooLarge (limit : N)
  | exit_validation
  | exit_categoryNotFound
  | exit_typeNotAllowed (fileExtension : string) (allowed : list string)
  | exit_sizeExceeded (maxFileSize : N)
  | exit_serverError
  | exit_created (document : Document).

(** The reply sent at each of them. *)
Definition reply (e : UploadExit) : Response :=
  match e with
  | exit_noFile => jsonError 400 "No file uploaded"
  | exit_fileFilter ext allowed =>
      jsonError 400 ("File type ." +:+ ext +:+ " is not allowed. Allowed types: "
                     +:+ Js.join ", " allowed)
  | exit_fileTooLarge limit =>
      jsonError 400 ("File too large. Maximum size is "
                     +:+ pretty (Js.roundMB limit) +:+ "MB")
  | exit_validation => validationFailed
  | exit_categoryNotFound => jsonError 400 "Category not found"
  | exit_typeNotAllowed ext allowed =>
      jsonError 400 ("File type ." +:+ ext
                     +:+ " not allowed in this category. Allowed types: "
                     +:+ Js.join ", " allowed)
  | exit_sizeExceeded maxFileSize =>
      jsonError 400 ("File size exceeds category limit of "
                     +:+ pretty (Js.roundMB maxFileSize) +:+ "MB")
  | exit_serverError => jsonError 500 "Server error while uploading document"
  | exit_created _ => jsonOk 201 "Document uploaded successfully"
  end.

(** [uploadSingle('file')]: multer asks the filter, then streams the file
    to the disk; a file that reaches the limit is dropped again. *)
Definition uploadSingle (env : Env) (files : gmap string string)
    (file : option UploadedFile) : (UploadExit + UploadedFile) * gmap string string :=
  match file with
  | None => (inl exit_noFile, files)
  | Some f =>
      if negb (fileFilter env f)
      then (inl (exit_fileFilter (fileExtensionOf (f_originalname f)) (allowedTypes env)),
            files)
      else if fileSizeLimit env <=? f_size f
      then (inl (exit_fileTooLarge (fileSizeLimit env)), files)
      else (inr f, <[f_path f := f_content f]> files)
  end.

Record UploadBody := mkUploadBody {
  ub_title : string;
  ub_description : option string;
  ub_category : ObjectId;
  ub_tags : option (list string);
  ub_department : option string;
  ub_expiryDate : option N;
  ub_id : option ObjectId
}.

(** The rules of POST /api/documents on the modelled fields; the sanitizers
    leave the trimmed values in the body. *)
Definition uploadValidation (b : UploadBody) : option UploadBody :=
  let title := Js.trim (ub_title b) in
  let description := Js.trim <$> ub_description b in
  if lengthBetween 2 200 title && optional (lengthBetween 0 1000) description
  then Some (mkUploadBody title description (ub_category b) (ub_tags b)
                          (Js.trim <$> ub_department b) (ub_expiryDate b) (ub_id b))
  else None.

(** [documentSchema.pre('save')]. *)
Definition Document_preSave (isModifiedStatus : bool) (now : N) (this : Document)
  : Document :=
  if isModifiedStatus && bool_decide (d_status this = approved)
  then mkDocument (d_id this) (d_title this) (d_description this) (d_fileName this)
         (d_originalName this) (d_filePath this) (d_fileSize this) (d_mimeType this)
         (d_fileExtension this) (d_category this) (d_tags this) (d_uploadedBy this)
         (d_department this) (d_version this) (d_status this) (d_approvedBy this)
         (Some now) (d_rejectionReason this) (d_expiryDate this) (d_isPublic this)
         (d_permissions this) (d_isActive this) (d_isDeleted this) (d_deletedAt this)
         (d_deletedBy this)
  else this.

(** The [required] and [maxlength] validators of the document schema. *)
Definition Document_valid (d : Document) : bool :=
  nonEmpty (d_title d) && (String.length (d_title d) <=? 200)%nat
  && optional (λ s, (String.length s <=? 1000)%nat) (d_description d)
  && nonEmpty (d_fileName d) && nonEmpty (d_originalName d)
  && nonEmpty (d_filePath d) && nonEmpty (d_mimeType d)
  && nonEmpty (d_fileExtension d).

Definition DocumentVersion_valid (v : DocumentVersion) : bool :=
  nonEmpty (v_fileName v) && nonEmpty (v_originalName v) && nonEmpty (v_filePath v)
  && nonEmpty (v_mimeType v) && nonEmpty (v_checksum v).

Section Upload.
Context {crypto : Sha256}.

(** [generateChecksum]; [None]: the read stream fails on a missing file. *)
Definition generateChecksum (files : gmap string string) (filePath : string)
  : option string :=
  sha256 <$> files !! filePath.

(** The document that [Document.create] builds in the upload handler: the
    schema trims its strings and supplies the defaults, a new document has
    its status modified. *)
Definition newDocument (id : ObjectId) (user : User) (b : UploadBody)
    (meta : FileMetadata) (categoryDoc : Category) (now : N) : Document :=
  Document_preSave true now
    {| d_id := id;
       d_title := Js.trim (ub_title b);
       d_description := Js.trim <$> ub_description b;
       d_fileName := fm_fileName meta;
       d_originalName := fm_originalName meta;
       d_filePath := fm_filePath meta;
       d_fileSize := fm_fileSize meta;
       d_mimeType := fm_mimeType meta;
       d_fileExtension := fm_fileExtension meta;
       d_category := ub_category b;
       d_tags := Js.trim <$> default [] (ub_tags b);
       d_uploadedBy := u_id user;
       d_department := Js.trim <$> Js.or_else (ub_department b) (u_department user);
       d_version := 1;
       d_status := if c_requiresApproval categoryDoc then pending else approved;
       d_approvedBy := None;
       d_approvedAt := None;
       d_rejectionReason := None;
       d_expiryDate := ub_expiryDate b;
       d_isPublic := false;
       d_permissions := mkPermissions [] [] [];
       d_isActive := true;
       d_isDeleted := false;
       d_deletedAt := None;
       d_deletedBy := None |}.

(** The [catch] of the upload handler. *)
Definition uploadCatch (st : DB) (file : UploadedFile) : UploadExit * DB :=
  (exit_serverError, set_files (deleteFile (files st) (f_path file)) st).

(** The handler of POST /api/documents. *)
Definition uploadDocument (st : DB) (user : User) (file : UploadedFile)
    (b : UploadBody) (now : N) : UploadExit * DB :=
  match categories st !! ub_category b with
  | None =>
      (exit_categoryNotFound, set_files (deleteFile (files st) (f_path file)) st)
  | Some categoryDoc =>
      let fileExtension := fileExtensionOf (f_originalname file) in
      if negb (bool_decide (c_allowedFileTypes categoryDoc = []))
         && negb (bool_decide (fileExtension ∈ c_allowedFileTypes categoryDoc))
      then (exit_typeNotAllowed fileExtension (c_allowedFileTypes categoryDoc),
            set_files (deleteFile (files st) (f_path file)) st)
      else if c_maxFileSize categoryDoc <? f_size file
      then (exit_sizeExceeded (c_maxFileSize categoryDoc),
            set_files (deleteFile (files st) (f_path file)) st)
      else
        match generateChecksum (files st) (f_path file) with
        | None => uploadCatch st file
        | Some checksum =>
            let meta := getFileMetadata file in
            let document := newDocument (nextId st) user b meta categoryDoc now in
            if negb (Document_valid document) then uploadCatch st file
            else
              let st1 := set_nextId (nextId st + 1)
                           (set_documents (<[d_id document := document]> (documents st)) st) in
              let version :=
                {| v_document := d_id document;
                   v_version := 1;
                   v_fileName := fm_fileName meta;
                   v_originalName := fm_originalName meta;
                   v_filePath := fm_filePath meta;
                   v_fileSize := fm_fileSize meta;
                   v_mimeType := fm_mimeType meta;
                   v_checksum := checksum;
                   v_uploadedBy := u_id user |} in
              if negb (DocumentVersion_valid version) then uploadCatch st1 file
              else
                let st2 := set_versions (versions st1 ++ [version]) st1 in
                let counted :=
                  set_documentCount (c_documentCount categoryDoc + 1) categoryDoc in
                (exit_created document,
                 set_categories (Category_save (categories st2) false counted) st2)
        end
  end.

(** POST /api/documents behind [protect]: [uploadSingle('file')],
    [validateRequest], [auditLog('document_upload', 'document')], handler. *)
Definition route_upload (env : Env) (st : DB) (cl : Client) (user : User)
    (file : option UploadedFile) (b : UploadBody) (now duration : N)
  : UploadExit * DB :=
  match uploadSingle env (files st) file with
  | (inl e, _) => (e, st)
  | (inr f, files') =>
      let st0 := set_files files' st in
      match uploadValidation b with
      | None => (exit_validation, st0)
      | Some b' =>
          let '(e, st1) := uploadDocument st0 user f b' now in
          (e, set_auditLogs
                (auditLog act_document_upload res_document
                          (request cl (Some user) None (ub_id b'))
                          (Some (reply e)) now duration (auditLogs st1))
                st1)
      end
  end.

End Upload.

Definition set_approval (status : Status) (approvedBy : option ObjectId)
    (approvedAt : option N) (this : Document) : Document :=
  mkDocument (d_id this) (d_title this) (d_description this) (d_fileName this)
    (d_originalName this) (d_filePath this) (d_fileSize this) (d_mimeType this)
    (d_fileExtension this) (d_category this) (d_tags this) (d_uploadedBy this)
    (d_department this) (d_version this) status approvedBy approvedAt
    (d_rejectionReason this) (d_expiryDate this) (d_isPublic this)
    (d_permissions this) (d_isActive this) (d_isDeleted this) (d_deletedAt this)
    (d_deletedBy this).

Definition set_rejectionReason (reason : option string) (this : Document) : Document :=
  mkDocument (d_id this) (d_title this) (d_description this) (d_fileName this)
    (d_originalName this) (d_filePath this) (d_fileSize this) (d_mimeType this)
    (d_fileExtension this) (d_category this) (d_tags this) (d_uploadedBy this)
    (d_department this) (d_version this) (d_status this) (d_approvedBy this)
    (d_approvedAt this) reason (d_expiryDate this) (d_isPublic this)
    (d_permissions this) (d_isActive this) (d_isDeleted this) (d_deletedAt this)
    (d_deletedBy this).

Definition set_deleted (deletedAt : N) (deletedBy : ObjectId) (this : Document)
  : Document :=
  mkDocument (d_id this) (d_title this) (d_description this) (d_fileName this)
    (d_originalName this) (d_filePath this) (d_fileSize this) (d_mimeType this)
    (d_fileExtension this) (d_category this) (d_tags this) (d_uploadedBy this)
    (d_department this) (d_version this) (d_status this) (d_approvedBy this)
    (d_approvedAt this) (d_rejectionReason this) (d_expiryDate this)
    (d_isPublic this) (d_permissions this) (d_isActive this) true (Some deletedAt)
    (Some deletedBy).

Record ApprovalBody := mkApprovalBody {
  ab_status : string;
  ab_rejectionReason : option string;
  ab_id : option ObjectId
}.

(** The rules of PUT /api/documents/:id/approval: the status is one of two
    words; the reason is optional, is trimmed and has at most 500 characters. *)
Definition approvalValidation (b : ApprovalBody) : option ApprovalBody :=
  let reason := Js.trim <$> ab_rejectionReason b in
  if bool_decide (ab_status b ∈ ["approved"; "rejected"])
     && optional (lengthBetween 0 500) reason
  then Some (mkApprovalBody (ab_status b) reason (ab_id b))
  else None.

(** The words of the schema's [enum] for [status]. *)
Definition parseStatus (s : string) : option Status :=
  List.find (λ st, bool_decide (statusName st = s))
            [draft; pending; approved; rejected; archived].

(** The handler of PUT /api/documents/:id/approval.  A status outside the
    schema's words fails the validation of [save], which the [catch]
    answers. *)
Definition approveDocument (st : DB) (user : User) (id : ObjectId)
    (b : ApprovalBody) (now : N) : Response * DB :=
  match documents st !! id with
  | None => (jsonError 404 "Document not found", st)
  | Some document =>
      if negb (bool_decide (d_status document = pending))
      then (jsonError 400 "Document is not pending approval", st)
      else
        match parseStatus (ab_status b) with
        | None => (jsonError 500 "Server error while processing approval", st)
        | Some status =>
            let document1 := set_approval status (Some (u_id user)) (Some now) document in
            let document2 :=
              if bool_decide (status = rejected) && Js.truthy (ab_rejectionReason b)
              then set_rejectionReason (Js.trim <$> ab_rejectionReason b) document1
              else document1 in
            let saved :=
              Document_preSave (negb (bool_decide (status = d_status document))) now
                               document2 in
            (jsonOk 200 ("Document " +:+ ab_status b +:+ " successfully"),
             set_documents (<[id := saved]> (documents st)) st)
        end
  end.

(** The route behind [protect]: [authorize('admin', 'manager')],
    [validateRequest], [auditLog('document_approve', 'document')], handler. *)
Definition route_approval (st : DB) (cl : Client) (user : User) (id : ObjectId)
    (b : ApprovalBody) (now duration : N) : Response * DB :=
  match authorize [role_admin; role_manager] user with
  | Reply r => (r, st)
  | Next _ =>
      match approvalValidation b with
      | None => (validationFailed, st)
      | Some b' =>
          audited act_document_approve res_document
                  (request cl (Some user) (Some id) (ab_id b')) now duration
                  (approveDocument st user id b' now)
      end
  end.

(** The handler of DELETE /api/documents/:id on the document that
    [checkOwnership] left in [req.resource]. *)
Definition deleteDocument (st : DB) (user : User) (document : Document) (now : N)
  : Response * DB :=
  let deleted := Document_preSave false now (set_deleted now (u_id user) document) in
  let st1 := set_documents (<[d_id deleted := deleted]> (documents st)) st in
  let st2 :=
    match categories st1 !! d_category document with
    | Some category =>
        let n := match c_documentCount category with
                 | 0 => 1
                 | n => n
                 end in
        set_categories
          (Category_save (categories st1) false (set_documentCount (n - 1) category))
          st1
    | None => st1
    end in
  (jsonOk 200 "Document deleted successfully", st2).

(** The operations on one document that go through [checkOwnership]. *)
Inductive DocumentOp := op_read | op_update | op_delete.

(** GET, PUT and DELETE /api/documents/:id all mount [checkOwnership(Document)],
    with no argument for the capability. *)
Definition gate (op : DocumentOp) (documents : gmap ObjectId Document)
    (user : User) (id : ObjectId) : Gate Document :=
  match op with
  | op_read => checkOwnership documents user id
  | op_update => checkOwnership documents user id
  | op_delete => checkOwnership documents user id
  end.

(** DELETE /api/documents/:id behind [protect]: [checkOwnership(Document)],
    [auditLog('document_delete', 'document')], handler. *)
Definition route_deleteDocument (st : DB) (cl : Client) (user : User)
    (id : ObjectId) (now duration : N) : Response * DB :=
  match gate op_delete (documents st) user id with
  | Reply r => (r, st)
  | Next document =>
      audited act_document_delete res_document
              (request cl (Some user) (Some id) None) now duration
              (deleteDocument st user document now)
  end.

(* --------------------------------------------------------------------- *)
(** ** More of routes/categories.js and models/Category.js *)
(* --------------------------------------------------------------------- *)

(** [categorySchema.methods.getFullPath]: the [while (current)] loop, with
    the array it fills by [unshift]; the walk ends at a category without a
    parent, or whose parent is not found.  [None]: the rounds are used up
    before it ends. *)
Fixpoint getFullPath (cats : gmap ObjectId Category) (rounds : nat)
    (current : Category) (pathArray : list string) : option (list string) :=
  match rounds with
  | O => None
  | S rounds' =>
      let pathArray := c_name current :: pathArray in
      match c_parent current with
      | Some p =>
          match cats !! p with
          | Some parent => getFullPath cats rounds' parent pathArray
          | None => Some pathArray
          end
      | None => Some pathArray
      end
  end.

(** [Document.countDocuments({ category, isDeleted: false })]. *)
Definition liveDocuments (documents : gmap ObjectId Document) (category : ObjectId)
  : list Document :=
  List.filter (λ d, bool_decide (d_category d = category) && negb (d_isDeleted d))
              (map_to_list documents).*2.

(** [Category.countDocuments({ parent, isActive: true })]. *)
Definition activeChildren (cats : gmap ObjectId Category) (parent : ObjectId)
  : list Category :=
  List.filter (λ c, bool_decide (c_parent c = Some parent) && c_isActive c)
              (map_to_list cats).*2.

(** The handler of DELETE /api/categories/:id. *)
Definition deleteCategory (st : DB) (id : ObjectId) : Response * DB :=
  match categories st !! id with
  | None => (jsonError 404 "Category not found", st)
  | Some category =>
      let documentCount := length (liveDocuments (documents st) id) in
      if (0 <? documentCount)%nat
      then (jsonError 400 ("Cannot delete category. It contains "
                           +:+ pretty documentCount +:+ " documents."), st)
      else
        let childrenCount := length (activeChildren (categories st) id) in
        if (0 <? childrenCount)%nat
        then (jsonError 400 ("Cannot delete category. It has "
                             +:+ pretty childrenCount +:+ " subcategories."), st)
        else
          let category := set_c_isActive false category in
          if negb (Category_valid category)
          then (jsonError 500 "Server error while deleting category", st)
          else (jsonOk 200 "Category deleted successfully",
                set_categories (Category_save (categories st) false category) st)
  end.

(** DELETE /api/categories/:id behind [protect]: [authorize('admin')],
    [auditLog('category_delete', 'category')], handler. *)
Definition route_deleteCategory (st : DB) (cl : Client) (user : User)
    (id : ObjectId) (now duration : N) : Response * DB :=
  match authorize [role_admin] user with
  | Reply r => (r, st)
  | Next _ =>
      audited act_category_delete res_category
              (request cl (Some user) (Some id) None) now duration
              (deleteCategory st id)
  end.

(* --------------------------------------------------------------------- *)
(** ** routes/users.js: profiles, password reset, activity *)
(* --------------------------------------------------------------------- *)

(** A reply that carries data only. *)
Definition jsonData (code : N) : Response := mkResponse code true None None.

(** An argument of [authorize(...roles)] as a route writes it: the name of
    a role, or an array of names. *)
Inductive RoleArg := arg_name (r : Role) | arg_array (rs : list Role).

Global Instance RoleArg_eq_dec : EqDecision RoleArg.
Proof. solve_decision. Defined.

(** [authorize] on such arguments.  [roles.includes(req.user.role)]
    compares the role of the user, a string, with each argument; an array
    is equal to no string. *)
Definition authorizeArgs (roles : list RoleArg) (user : User) : Gate unit :=
  if bool_decide (arg_name (u_role user) ∈ roles) then Next ()
  else Reply (jsonError 403 ("User role " +:+ roleName (u_role user)
                        +:+ " is not authorized to access this route")).

(** GET /api/users/:id behind [protect]: the lookup comes first, the check
    of the requester second.  [findById] casts the text of the route
    parameter, and a text that is no id ends in the [catch]; the check
    compares [req.user.id], the text of the requester's id, with the
    parameter as it was sent. *)
Definition getUser {ids : MongoIds} (users : gmap ObjectId User) (user : User)
    (id : string) : Response :=
  match castObjectId id with
  | None => jsonError 500 "Server error while fetching user"
  | Some i =>
      match users !! i with
      | None => jsonError 404 "User not found"
      | Some _ =>
          if negb (bool_decide (u_role user = role_admin))
             && negb (bool_decide (u_role user = role_manager))
             && negb (bool_decide (idText (u_id user) = id))
          then jsonError 403 "Not authorized to access this user profile"
          else jsonData 200
      end
  end.



Section UserRoutes.
Context {bcrypt : Bcrypt}.

(** The handler of POST /api/users/:id/reset-password.  The temporary
    password is what [Math.random().toString(36).slice(-8)] gave; the
    schema asks for six characters and more. *)
Definition resetPassword (st : DB) (id : ObjectId) (tempPassword salt : string)
  : Response * DB :=
  match users st !! id with
  | None => (jsonError 404 "User not found", st)
  | Some user =>
      if (String.length tempPassword <? 6)%nat
      then (jsonError 500 "Server error while resetting password", st)
      else
        match User_save (users st) true salt (set_password (Some tempPassword) user) with
        | Some (users', _) =>
            (jsonOk 200 "Password reset successfully", set_users users' st)
        | None => (jsonError 500 "Server error while resetting password", st)
        end
  end.

(** The route behind [protect]: [authorize(['admin', 'manager'])], with
    one argument that is an array, [auditLog('password_reset', 'user')],
    handler. *)
Definition route_resetPassword (st : DB) (cl : Client) (user : User) (id : ObjectId)
    (tempPassword salt : string) (now duration : N) : Response * DB :=
  match authorizeArgs [arg_array [role_admin; role_manager]] user with
  | Reply r => (r, st)
  | Next _ =>
      audited act_password_reset res_user
              (request cl (Some user) (Some id) None) now duration
              (resetPassword st id tempPassword salt)
  end.



End UserRoutes.

(* --------------------------------------------------------------------- *)
(** ** Regular expressions, for the [match] validator of the user schema *)
(* --------------------------------------------------------------------- *)

(** Anchored patterns without back-references: [test] decides whether the
    whole string belongs to the language, by derivatives. *)
Module Regex.

Inductive t :=
  | none
  | eps
  | class (p : ascii → bool)
  | cat (a b : t)
  | alt (a b : t)
  | star (a : t).

Fixpoint nullable (r : t) : bool :=
  match r with
  | none => false
  | eps => true
  | class _ => false
  | cat a b => nullable a && nullable b
  | alt a b => nullable a || nullable b
  | star _ => true
  end.

Fixpoint deriv (c : ascii) (r : t) : t :=
  match r with
  | none => none
  | eps => none
  | class p => if p c then eps else none
  | cat a b =>
      if nullable a then alt (cat (deriv c a) b) (deriv c b)
      else cat (deriv c a) b
  | alt a b => alt (deriv c a) (deriv c b)
  | star a => cat (deriv c a) (star a)
  end.

Fixpoint test (r : t) (s : string) : bool :=
  match s with
  | EmptyString => nullable r
  | String c s' => test (deriv c r) s'
  end.

Definition plus (r : t) : t := cat r (star r).

Definition opt (r : t) : t := alt eps r.

(** [\w]. *)
Definition word : t :=
  class (λ c, Js.isUpper c || Js.isLowerAlnum c || bool_decide (c = "_"%char)).

Definition char (c : ascii) : t := class (λ x, bool_decide (x = c)).

End Regex.

(** [/^\w+([.-]?\w+)*@\w+([.-]?\w+)*(\.\w{2,3})+$/] of the user schema. *)
Definition emailPattern : Regex.t :=
  let words :=
    Regex.cat (Regex.plus Regex.word)
      (Regex.star (Regex.cat (Regex.opt (Regex.alt (Regex.char ".") (Regex.char "-")))
                             (Regex.plus Regex.word))) in
  let ending :=
    Regex.cat (Regex.char ".")
      (Regex.cat Regex.word (Regex.cat Regex.word (Regex.opt Regex.word))) in
  Regex.cat words (Regex.cat (Regex.char "@") (Regex.cat words (Regex.plus ending))).

(* --------------------------------------------------------------------- *)
(** ** POST /api/auth/register *)
(* --------------------------------------------------------------------- *)

Record RegisterBody := mkRegisterBody {
  rb_name : string;
  rb_email : string;
  rb_password : string;
  rb_role : option string;
  rb_department : option string;
  rb_id : option ObjectId
}.

(** The words of the schema's [enum] for [role]. *)
Definition parseRole (s : string) : option Role :=
  List.find (λ r, bool_decide (roleName r = s)) [role_admin; role_manager; role_user].

(** The validators of the user schema on a document that is created: the
    [required] ones, [maxlength] of the name, [match] of the email and
    [minlength] of the password, which they see before the hook hashes it. *)
Definition User_valid (u : User) : bool :=
  nonEmpty (u_name u) && (String.length (u_name u) <=? 50)%nat
  && nonEmpty (u_email u) && Regex.test emailPattern (u_email u)
  && from_option (λ pw, (6 <=? String.length pw)%nat) false (u_password u).

Section Register.
Context {bcrypt : Bcrypt} {validator : EmailValidator}.

(** [registerValidation]; the sanitizers leave their values in the body. *)
Definition registerValidation (b : RegisterBody) : option RegisterBody :=
  let name := Js.trim (rb_name b) in
  let department := Js.trim <$> rb_department b in
  if lengthBetween 2 50 name && isEmail (rb_email b)
     && (6 <=? String.length (rb_password b))%nat
     && optional (λ r, bool_decide (r ∈ ["admin"; "manager"; "user"])) (rb_role b)
     && optional (lengthBetween 0 100) department
  then Some (mkRegisterBody name (normalizeEmail (rb_email b)) (rb_password b)
                            (rb_role b) department (rb_id b))
  else None.

(** The handler of POST /api/auth/register.  [User.create] applies the
    setters of the schema ([trim], [lowercase]), takes [role || 'user'] as
    the role, validates, hashes the password in the save hook of a new
    document and writes it under a fresh [_id]. *)
Definition register (st : DB) (b : RegisterBody) (salt : string) : Response * DB :=
  match User_findOne_email (users st) (rb_email b) with
  | Some _ => (jsonError 400 "User already exists with this email", st)
  | None =>
      match parseRole (default "user" (Js.or_else (rb_role b) (Some "user"))) with
      | None => (jsonError 500 "Server error during registration", st)
      | Some role =>
          let this :=
            {| u_id := nextId st;
               u_name := Js.trim (rb_name b);
               u_email := Js.toLowerCase (Js.trim (rb_email b));
               u_password := Some (rb_password b);
               u_role := role;
               u_department := Js.trim <$> rb_department b;
               u_isActive := true;
               u_lastLogin := None |} in
          if negb (User_valid this)
          then (jsonError 500 "Server error during registration", st)
          else
            match User_save (users st) true salt this with
            | Some (users', _) =>
                (jsonOk 201 "User registered successfully",
                 set_nextId (nextId st + 1) (set_users users' st))
            | None => (jsonError 500 "Server error during registration", st)
            end
      end
  end.

(** The route: [rateLimitSensitive], [validateRequest(registerValidation)],
    [auditLog('user_create', 'user')], handler.  It is public: nothing
    sets [req.user]. *)
Definition route_register (st : DB) (cl : Client) (limited : bool)
    (b : RegisterBody) (now duration : N) (salt : string) : Response * DB :=
  if limited
  then (jsonError 429 "Too many attempts, please try again later", st)
  else match registerValidation b with
       | None => (validationFailed, st)
       | Some b' =>
           audited act_user_create res_user (request cl None None (rb_id b'))
                   now duration (register st b' salt)
       end.

End Register.

(* --------------------------------------------------------------------- *)
(** ** [AuditLog.getUserActivity] and GET /api/users/:id/activity *)
(* --------------------------------------------------------------------- *)

(** The words of the schema's [enum] for [action] and for [resource]. *)
Definition actionName (a : Action) : string :=
  match a with
  | act_login => "login"
  | act_logout => "logout"
  | act_password_change => "password_change"
  | act_password_reset => "password_reset"
  | act_document_upload => "document_upload"
  | act_document_view => "document_view"
  | act_document_download => "document_download"
  | act_document_update => "document_update"
  | act_document_delete => "document_delete"
  | act_document_share => "document_share"
  | act_document_approve => "document_approve"
  | act_document_reject => "document_reject"
  | act_document_archive => "document_archive"
  | act_version_create => "version_create"
  | act_version_rollback => "version_rollback"
  | act_version_delete => "version_delete"
  | act_category_create => "category_create"
  | act_category_update => "category_update"
  | act_category_delete => "category_delete"
  | act_user_create => "user_create"
  | act_user_update => "user_update"
  | act_user_delete => "user_delete"
  | act_user_activate => "user_activate"
  | act_user_deactivate => "user_deactivate"
  | act_permission_grant => "permission_grant"
  | act_permission_revoke => "permission_revoke"
  | act_system_backup => "system_backup"
  | act_system_restore => "system_restore"
  | act_system_maintenance => "system_maintenance"
  end.

Definition resourceName (r : ResourceKind) : string :=
  match r with
  | res_document => "document"
  | res_user => "user"
  | res_category => "category"
  | res_system => "system"
  | res_version => "version"
  end.

(** The [options] of [getUserActivity]; the dates are parsed ones. *)
Record ActivityOptions := mkActivityOptions {
  ao_startDate : option N;
  ao_endDate : option N;
  ao_action : option string;
  ao_resource : option string;
  ao_limit : option N;
  ao_skip : option N
}.

(** [n || d] on a number that may be missing. *)
Definition orDefault (n : option N) (d : N) : N :=
  match n with
  | Some (N.pos p) => N.pos p
  | _ => d
  end.

(** The query that [getUserActivity] builds, as a test on an entry. *)
Definition activityQuery (userId : ObjectId) (options : ActivityOptions)
    (e : AuditLogEntry) : bool :=
  bool_decide (al_user e = userId)
  && from_option (λ startDate, startDate <=? al_timestamp e) true (ao_startDate options)
  && from_option (λ endDate, al_timestamp e <=? endDate) true (ao_endDate options)
  && (if Js.truthy (ao_action options)
      then bool_decide (Some (actionName (al_action e)) = ao_action options)
      else true)
  && (if Js.truthy (ao_resource options)
      then bool_decide (Some (resourceName (al_resource e)) = ao_resource options)
      else true).

(** [sort({ timestamp: -1 })]: the later entry first. *)
Definition newestFirst (a b : AuditLogEntry) : Prop :=
  al_timestamp b ≤ al_timestamp a.

Global Instance newestFirst_dec a b : Decision (newestFirst a b).
Proof. unfold newestFirst. apply _. Defined.

(** [auditLogSchema.statics.getUserActivity]: [find], [sort], [limit]; it
    reads no [skip].  Among entries of one timestamp the order of the sort
    is that of a merge sort. *)
Definition getUserActivity (log : list AuditLogEntry) (userId : ObjectId)
    (options : ActivityOptions) : list AuditLogEntry :=
  take (N.to_nat (orDefault (ao_limit options) 100))
       (merge_sort newestFirst (List.filter (activityQuery userId options) log)).

(** The query string of GET /api/users/:id/activity, with its numbers and
    dates parsed. *)
Record ActivityParams := mkActivityParams {
  ap_page : option N;
  ap_limit : option N;
  ap_startDate : option N;
  ap_endDate : option N;
  ap_action : option string
}.

(** GET /api/users/:id/activity behind [protect]. *)
Definition route_activity (st : DB) (user : User) (id : ObjectId)
    (q : ActivityParams) : Response * list AuditLogEntry :=
  let canView :=
    bool_decide (u_role user = role_admin)
    || bool_decide (u_role user = role_manager)
    || bool_decide (u_id user = id) in
  if negb canView
  then (jsonError 403 "Not authorized to view this user activity", [])
  else
    let page := orDefault (ap_page q) 1 in
    let limit := orDefault (ap_limit q) 20 in
    (jsonData 200,
     getUserActivity (auditLogs st) id
       {| ao_startDate := ap_startDate q;
          ao_endDate := ap_endDate q;
          ao_action := ap_action q;
          ao_resource := None;
          ao_limit := Some limit;
          ao_skip := Some ((page - 1) * limit) |}).

(* --------------------------------------------------------------------- *)
(** ** GET /api/documents/:id/download *)
(* --------------------------------------------------------------------- *)

(** What the download route sends: a JSON reply, or the headers of an
    attachment and the bytes of the file. *)
Inductive DownloadReply :=
  | download_json (r : Response)
  | download_stream (filename contentType : string) (contentLength : N)
                    (content : string).

(** What the wrapped [res.json] of [auditLog] saw of it. *)
Definition capturedJson (r : DownloadReply) : option Response :=
  match r with
  | download_json r => Some r
  | download_stream _ _ _ _ => None
  end.

(** [document.incrementCounter(counterType)].  The counters are not among
    the modelled fields; what is left of the method is its [save]: the
    validators, the hook with the status unmodified, the write.  [None]:
    the validation fails. *)
Definition incrementCounter (st : DB) (now : N) (this : Document) : option DB :=
  if negb (Document_valid this) then None
  else Some (set_documents
               (<[d_id this := Document_preSave false now this]> (documents st)) st).

(** The handler of GET /api/documents/:id/download on the document that
    [checkOwnership] left in [req.resource]. *)
Definition downloadDocument (st : DB) (document : Document) (now : N)
  : DownloadReply * DB :=
  match files st !! d_filePath document with
  | None => (download_json (jsonError 404 "File not found on server"), st)
  | Some content =>
      match incrementCounter st now document with
      | None =>
          (download_json (jsonError 500 "Server error while downloading document"), st)
      | Some st1 =>
          (download_stream (d_originalName document) (d_mimeType document)
                           (d_fileSize document) content, st1)
      end
  end.

(** The route behind [protect]: [checkOwnership(Document)],
    [auditLog('document_download', 'document')], handler. *)
Definition route_download (st : DB) (cl : Client) (user : User) (id : ObjectId)
    (now duration : N) : DownloadReply * DB :=
  match checkOwnership (documents st) user id with
  | Reply r => (download_json r, st)
  | Next document =>
      let '(r, st1) := downloadDocument st document now in
      (r, set_auditLogs
            (auditLog act_document_download res_document
                      (request cl (Some user) (Some id) None)
                      (capturedJson r) now duration (auditLogs st1))
            st1)
  end.

(* --------------------------------------------------------------------- *)
(** ** The queries of GET /api/documents and GET /api/categories/:id/documents *)
(* --------------------------------------------------------------------- *)

(** [new RegExp(pattern, 'i')], [None] when the pattern is no regular
    expression, and the [$text] search of MongoDB over the text index of
    the documents. *)
Class MongoSearch := {
  RegExp_i : string → option (string → bool);
  textSearch : string → Document → bool
}.

(** A clause of an [$or]. *)
Inductive Clause :=
  | or_status (s : Status)
  | or_uploadedBy (u : ObjectId)
  | or_permissions_read (u : ObjectId)
  | or_isPublic.

(** The query object that the two handlers build. *)
Record Query := mkQuery {
  q_category : option ObjectId;
  q_isDeleted : bool;
  q_isActive : bool;
  q_status : option Status;
  q_department : option (string → bool);
  q_uploadedBy : option ObjectId;
  q_text : option string;
  q_tags_in : option (list string);
  q_or : option (list Clause)
}.

(** [req.query.tags]: one value or several. *)
Inductive TagsParam := tags_one (tag : string) | tags_many (tags : list string).

(** The query string of GET /api/documents after its validation, without
    the page and the sort. *)
Record ListParams := mkListParams {
  lp_category : option ObjectId;
  lp_status : option Status;
  lp_search : option string;
  lp_tags : option TagsParam;
  lp_department : option string;
  lp_uploadedBy : option ObjectId
}.

Definition holds (c : Clause) (d : Document) : bool :=
  match c with
  | or_status s => bool_decide (d_status d = s)
  | or_uploadedBy u => bool_decide (d_uploadedBy d = u)
  | or_permissions_read u => bool_decide (u ∈ p_read (d_permissions d))
  | or_isPublic => d_isPublic d
  end.

Section Listing.
Context {mongo : MongoSearch}.

(** MongoDB's reading of such a query: every field has to match, and of
    an [$or] one clause. *)
Definition satisfies (q : Query) (d : Document) : bool :=
  from_option (λ c, bool_decide (d_category d = c)) true (q_category q)
  && bool_decide (d_isDeleted d = q_isDeleted q)
  && bool_decide (d_isActive d = q_isActive q)
  && from_option (λ s, bool_decide (d_status d = s)) true (q_status q)
  && from_option (λ test, from_option test false (d_department d)) true
                 (q_department q)
  && from_option (λ u, bool_decide (d_uploadedBy d = u)) true (q_uploadedBy q)
  && from_option (λ s, textSearch s d) true (q_text q)
  && from_option (λ tags, existsb (λ t, bool_decide (t ∈ tags)) (d_tags d)) true
                 (q_tags_in q)
  && from_option (existsb (λ c, holds c d)) true (q_or q).

(** The query of GET /api/documents; [None]: [new RegExp] throws. *)
Definition documentsQuery (user : User) (p : ListParams) : option Query :=
  let or1 :=
    match lp_status p with
    | Some _ => None
    | None =>
        if bool_decide (u_role user = role_user)
        then Some [or_status approved; or_uploadedBy (u_id user)]
        else None
    end in
  let or2 :=
    if bool_decide (u_role user = role_user)
    then Some ([or_uploadedBy (u_id user); or_permissions_read (u_id user); or_isPublic]
               ++ default [] or1)
    else or1 in
  let tags :=
    match lp_tags p with
    | Some (tags_one "") | None => None
    | Some (tags_one tag) => Some [tag]
    | Some (tags_many tags) => Some tags
    end in
  let text := if Js.truthy (lp_search p) then lp_search p else None in
  let query department :=
    {| q_category := lp_category p;
       q_isDeleted := false;
       q_isActive := true;
       q_status := lp_status p;
       q_department := department;
       q_uploadedBy := lp_uploadedBy p;
       q_text := text;
       q_tags_in := tags;
       q_or := or2 |} in
  match lp_department p with
  | Some (String c s) =>
      match RegExp_i (String c s) with
      | Some test => Some (query (Some test))
      | None => None
      end
  | _ => Some (query None)
  end.

End Listing.

(** The query of GET /api/categories/:id/documents. *)
Definition categoryDocumentsQuery (user : User) (id : ObjectId)
    (status : option Status) : Query :=
  {| q_category := Some id;
     q_isDeleted := false;
     q_isActive := true;
     q_status := status;
     q_department := None;
     q_uploadedBy := None;
     q_text := None;
     q_tags_in := None;
     q_or :=
       if bool_decide (u_role user = role_user)
       then Some [or_uploadedBy (u_id user); or_permissions_read (u_id user);
                  or_isPublic]
       else None |}.

(** Some letter of the string is a capital. *)
Fixpoint hasUpper (s : string) : bool :=
  match s with
  | EmptyString => false
  | String c s' => Js.isUpper c || hasUpper s'
  end.

(** GET /api/categories/:id behind [protect]: the category, its active
    children and its full path, joined.  [None]: the walk of [getFullPath]
    has not ended within [rounds], and no reply is sent. *)
Definition getCategory (cats : gmap ObjectId Category) (id : ObjectId)
    (rounds : nat) : option (Response * option (Category * string * list Category)) :=
  match cats !! id with
  | None => Some (jsonError 404 "Category not found", None)
  | Some category =>
      let children := activeChildren cats (c_id category) in
      match getFullPath cats rounds category [] with
      | None => None
      | Some pathArray =>
          Some (jsonData 200, Some (category, Js.join " > " pathArray, children))
      end
  end.

(* ===================================================================== *)
(** * What the specification asks, as predicates on the model *)
(* ===================================================================== *)

(** The permission list that the specification ties to each operation. *)
Definition requestedCapability (op : DocumentOp) : string :=
  match op with
  | op_read => "read"
  | op_update => "write"
  | op_delete => "delete"
  end.

Definition allowed {A : Type} (g : Gate A) : bool :=
  match g with
  | Next _ => true
  | Reply _ => false
  end.

(** The error message of a reply names a status. *)
Definition namesStatus (r : Response) (s : Status) : bool :=
  match error r with
  | Some e => Js.includes (statusName s) e
  | None => false
  end.

(** The error message of a reply lists the extensions of a category. *)
Definition listsAllowed (r : Response) (c : Category) : bool :=
  match error r with
  | Some e => Js.includes (Js.join ", " (c_allowedFileTypes c)) e
  | None => false
  end.

(** An upload ends at one of the two extension checks. *)
Definition rejectedForExtension (e : UploadExit) : bool :=
  match e with
  | exit_fileFilter _ _ | exit_typeNotAllowed _ _ => true
  | _ => false
  end.

(** The placement of a category as the specification states it. *)
Definition placedAsSpecified (cats : gmap ObjectId Category) (c : Category) : bool :=
  match c_parent c with
  | Some p =>
      match cats !! p with
      | Some P =>
          bool_decide (c_path c = c_path P +:+ "/" +:+ c_slug c)
          && bool_decide (c_level c = c_level P + 1)
      | None => false
      end
  | None => bool_decide (c_path c = c_slug c) && bool_decide (c_level c = 0)
  end.

(** The placement that the save hook computes. *)
Definition wellPlaced (cats : gmap ObjectId Category) (c : Category) : Prop :=
  match c_parent c with
  | Some p =>
      ∃ P, cats !! p = Some P
           ∧ c_level c = c_level P + 1
           ∧ c_path c = (if bool_decide (c_path P = "") then c_slug c
                         else c_path P +:+ "/" +:+ c_slug c)
  | None => c_path c = c_slug c ∧ c_level c = 0
  end.

(** An update that names none of the paths that place a category: the
    parent, the slug, the level and the path. *)
Definition keepsPlacement (b : CategoryUpdate) : Prop :=
  cu_parent b = None ∧ cu_slug b = None ∧ cu_level b = None ∧ cu_path b = None.

(** The states reached from an empty category collection by requests to
    POST /api/categories and by requests to PUT /api/categories/:id whose
    body names none of parent, slug, level and path. *)
Inductive builtTree {ids : MongoIds} : DB → Prop :=
  | builtTree_init st :
      categories st = ∅ → builtTree st
  | builtTree_create st cl user b now duration :
      builtTree st →
      builtTree (route_createCategory st cl user b now duration).2
  | builtTree_update st cl user id b now duration :
      builtTree st →
      keepsPlacement b →
      builtTree (route_updateCategory st cl user id b now duration).2.

(** The states reached from an empty category collection by requests to
    POST /api/categories and to PUT /api/categories/:id, whatever the
    body. *)
Inductive servedTree {ids : MongoIds} : DB → Prop :=
  | servedTree_init st :
      categories st = ∅ → servedTree st
  | servedTree_create st cl user b now duration :
      servedTree st →
      servedTree (route_createCategory st cl user b now duration).2
  | servedTree_update st cl user id b now duration :
      servedTree st →
      servedTree (route_updateCategory st cl user id b now duration).2.

(** bcrypt as a password check: [compare] accepts exactly the password that
    was hashed, whatever the salt. *)
Definition idealBcrypt (B : Bcrypt) : Prop :=
  ∀ pw salt entered,
    bcrypt_compare entered (bcrypt_hash pw salt) = bool_decide (entered = pw).

(* ===================================================================== *)
(** * Instances and data of the scenarios *)
(* ===================================================================== *)

Definition demoJwt : Jwt :=
  {| jwt_verify := λ token,
       if decide (token = "token-of-dave") then Some (mkJwtPayload 8 role_user)
       else if decide (token = "token-of-carol") then Some (mkJwtPayload 7 role_user)
       else None |}.

Definition demoBcrypt : Bcrypt :=
  {| bcrypt_hash := λ pw salt, "$2a$" +:+ pw;
     bcrypt_compare := λ entered h, bool_decide (h = "$2a$" +:+ entered) |}.

Definition demoEmail : EmailValidator :=
  {| isEmail := Js.includes "@"; normalizeEmail := Js.toLowerCase |}.

Definition demoSha256 : Sha256 := {| sha256 := λ bytes, "sha256:" +:+ bytes |}.

Definition alice : User :=
  mkUser 1 "Alice" "alice@example.com" (Some "$2a$wonderland") role_admin
         (Some "Finance") true None.

Definition bob : User :=
  mkUser 2 "Bob" "bob@example.com" (Some "$2a$builder") role_user
         (Some "Legal") true None.

Definition carol : User :=
  mkUser 7 "Carol" "carol@example.com" (Some "$2a$singer") role_user None true None.

Definition dave : User :=
  mkUser 8 "Dave" "dave@example.com" (Some "$2a$gone") role_user None false None.

Definition demoUsers : gmap ObjectId User :=
  <[1 := alice]> (<[2 := bob]> (<[7 := carol]> (<[8 := dave]> ∅))).

Definition browser : Client :=
  mkClient "POST" "/api" (Some "10.0.0.5") None (Some "Mozilla/5.0") None.

Definition finance : Category :=
  mkCategory 20 "Finance" "finance" None 0 "finance" ["pdf"; "xls"; "xlsx"]
             (25 * 1024 * 1024) true 0 true 1.

Definition anything : Category :=
  mkCategory 21 "Anything" "anything" None 0 "anything" [] defaultMaxFileSize
             false 0 true 1.

(** A document of Bob's that grants Carol the read permission only. *)
Definition memo (status : Status) : Document :=
  mkDocument 30 "Memo" None "f3a9.pdf" "memo.pdf" "uploads/f3a9.pdf" 1024
             "application/pdf" "pdf" 20 [] 2 (Some "Legal") 1 status None None None
             None false (mkPermissions [7] [] []) true false None None.

Definition demoDB (status : Status) : DB :=
  mkDB demoUsers (<[20 := finance]> (<[21 := anything]> ∅))
       (<[30 := memo status]> ∅) [] [] ∅ 100.

Definition emptyDB : DB := mkDB demoUsers ∅ ∅ [] [] ∅ 100.

Definition noEnv : Env := mkEnv None None.

Definition fileNamed (name : string) : UploadedFile :=
  mkUploadedFile name "application/octet-stream" (1024 * 1024) "9c1d-upload"
                 "uploads/9c1d-upload" "bytes".

Definition uploadInto (category : ObjectId) (department : option string) : UploadBody :=
  mkUploadBody "Quarterly report" None category None department None None.

(** The same fields with a title of one character, which the rules
    refuse. *)
Definition shortTitle (category : ObjectId) : UploadBody :=
  mkUploadBody "x" None category None None None None.

(** What Bob's upload of a PDF into Finance creates. *)
Definition quarterlyReport : Document :=
  mkDocument 100 "Quarterly report" None "9c1d-upload" "report.pdf"
             "uploads/9c1d-upload" (1024 * 1024) "application/octet-stream" "pdf"
             20 [] 2 (Some "Legal") 1 pending None None None None false
             (mkPermissions [] [] []) true false None None.

Definition newCategory (name : string) (parent : option ObjectId) : CategoryBody :=
  mkCategoryBody name parent None None None None.

(** Ids as 24 hexadecimal digits, in either letter case. *)
Definition hexValue (c : ascii) : option N :=
  let n := N_of_ascii c in
  if (48 <=? n) && (n <=? 57) then Some (n - 48)
  else if (97 <=? n) && (n <=? 102) then Some (n - 87)
  else if (65 <=? n) && (n <=? 70) then Some (n - 55)
  else None.

Fixpoint parseHex (acc : N) (s : string) : option N :=
  match s with
  | EmptyString => Some acc
  | String c s' =>
      match hexValue c with
      | Some d => parseHex (16 * acc + d) s'
      | None => None
      end
  end.

Definition hexDigit (d : N) : ascii :=
  ascii_of_N (if d <? 10 then 48 + d else 87 + d).

Fixpoint hexText (digits : nat) (i : N) (acc : string) : string :=
  match digits with
  | O => acc
  | S k => hexText k (i / 16) (String (hexDigit (i mod 16)) acc)
  end.

Definition demoIds : MongoIds :=
  {| castObjectId := λ s, if (String.length s =? 24)%nat then parseHex 0 s else None;
     isMongoId := λ s,
       (String.length s =? 24)%nat
       && match parseHex 0 s with Some _ => true | None => false end;
     idText := λ i, hexText 24 i "" |}.

Definition idOf (i : ObjectId) : string := @idText demoIds i.

Definition moveUnder (parent : string) : CategoryUpdate :=
  mkCategoryUpdate None None (Some parent) None None None None None None None None None.

Definition createAs (u : User) (b : CategoryBody) (st : DB) : DB :=
  (route_createCategory st browser u b 5000 12).2.

Definition updateAs (u : User) (id : ObjectId) (b : CategoryUpdate) (st : DB) : DB :=
  (@route_updateCategory demoIds st browser u (idOf id) b 5000 12).2.

(** A category whose name has no letter or digit, and a child of it. *)
Definition punctuationTree : DB :=
  createAs alice (newCategory "Reports" (Some 100))
    (createAs alice (newCategory "!!" None) emptyDB).

(** Two roots, the second then moved under the first. *)
Definition movedTree : DB :=
  updateAs alice 101 (moveUnder (idOf 100))
    (createAs alice (newCategory "Legal" None)
       (createAs alice (newCategory "Finance" None) emptyDB)).

Definition rename (name : string) : CategoryUpdate :=
  mkCategoryUpdate (Some name) None None None None None None None None None None None.

(** A root and a child of it, by two creations, the root then renamed. *)
Definition createdTree : DB :=
  updateAs alice 100 (rename "Finance and Tax")
    (createAs alice (newCategory "Invoices 2024" (Some 100))
       (createAs alice (newCategory "Finance" None) emptyDB)).

Definition invoices : Category :=
  mkCategory 101 "Invoices 2024" "invoices-2024" (Some 100) 1 "finance/invoices-2024"
             [] defaultMaxFileSize true 0 true 1.

(** The candidates of the slug loop in the order it tries them. *)
Definition cand (base : string) (k : nat) : string :=
  match k with
  | O => base
  | S _ => candidate base k
  end.

(** A root and a child of it. *)
Definition twoLevels : DB :=
  createAs alice (newCategory "Invoices 2024" (Some 100))
    (createAs alice (newCategory "Finance" None) emptyDB).

(** The root then moved under its child. *)
Definition cycleTree : DB := updateAs alice 100 (moveUnder (idOf 101)) twoLevels.

(** An update that names a slug. *)
Definition reslug (slug : string) : CategoryUpdate :=
  mkCategoryUpdate None (Some slug) None None None None None None None None None None.

(** The renamed root and its child; the child then asks for the slug of
    the root, in capitals, and is refused. *)
Definition takenSlugTree : DB := updateAs alice 101 (reslug "FINANCE") createdTree.

(** A root whose id, 170, is written with letters: 24 hexadecimal digits
    that end in aa, or in AA. *)
Definition letteredRoot : DB :=
  createAs alice (newCategory "Finance" None) (mkDB demoUsers ∅ ∅ [] [] ∅ 170).

Definition inCapitals170 : string := "0000000000000000000000AA".

(** A plain user with such an id. *)
Definition frank : User :=
  mkUser 171 "Frank" "frank@example.com" (Some "$2a$letters") role_user None true None.

Definition inCapitals171 : string := "0000000000000000000000AB".

Definition oneRoot : DB := createAs alice (newCategory "Finance" None) emptyDB.

(** A plain user whom no document names. *)
Definition erin : User :=
  mkUser 9 "Erin" "erin@example.com" (Some "$2a$quiet") role_user None true None.

Definition demoMongo : MongoSearch :=
  {| RegExp_i := λ pattern,
       Some (λ s, Js.includes (Js.toLowerCase pattern) (Js.toLowerCase s));
     textSearch := λ words d, Js.includes words (d_title d) |}.

Definition everything : ListParams := mkListParams None None None None None None.

(* ===================================================================== *)
(** * Properties *)
(* ===================================================================== *)

(* --------------------------------------------------------------------- *)
(** ** The bearer credential and the live user record *)
(* --------------------------------------------------------------------- *)

Section ProtectFacts.
Context {jwt : Jwt}.

(** Whoever [protect] lets through is the record that the collection holds
    now under the id of the verified token, and that record is active. *)
Lemma protect_next_live (users : gmap ObjectId User) authorization user :
  protect users authorization = Next user →
  ∃ token decoded,
    bearerToken authorization = Some token
    ∧ jwt_verify token = Some decoded
    ∧ users !! jwt_id decoded = Some user
    ∧ u_isActive user = true.
Proof.
  unfold protect. intros Hp.
  destruct (bearerToken authorization) as [[|c t]|] eqn:Htok; try discriminate.
  destruct (jwt_verify (String c t)) as [decoded|] eqn:Hv; try discriminate.
  destruct (users !! jwt_id decoded) as [u|] eqn:Hu; try discriminate.
  destruct (u_isActive u) eqn:Ha; simpl in Hp; try discriminate.
  injection Hp as <-. eauto 6.
Qed.

(** C9: a request whose token verifies, but whose user record is gone or
    has its active flag off, is answered 401 by [protect], and the handler
    mounted behind it does not run: the state is left as it was. *)
Theorem protect_rejects_revoked (users : gmap ObjectId User) authorization
    token decoded :
  bearerToken authorization = Some token →
  jwt_verify token = Some decoded →
  (users !! jwt_id decoded = None
   ∨ ∃ u, users !! jwt_id decoded = Some u ∧ u_isActive u = false) →
  ∃ msg,
    protect users authorization = Reply (jsonError 401 msg)
    ∧ ∀ (S : Type) (handler : User → S → Response * S) (st : S),
        use_protect users authorization handler st = (jsonError 401 msg, st).
Proof.
  intros Htok Hv Hrec.
  assert (∃ msg, protect users authorization = Reply (jsonError 401 msg))
    as [msg Hp].
  { unfold protect. rewrite Htok.
    destruct token as [|c t]; [eauto|].
    rewrite Hv.
    destruct Hrec as [-> | (u & -> & ->)]; simpl; eauto. }
  exists msg. split; [exact Hp|].
  intros S handler st. unfold use_protect. by rewrite Hp.
Qed.

End ProtectFacts.

Lemma protect_rejects_revoked_witness :
  ∃ msg,
    @protect demoJwt demoUsers (Some "Bearer token-of-dave") = Reply (jsonError 401 msg)
    ∧ ∀ (S : Type) (handler : User → S → Response * S) (st : S),
        @use_protect demoJwt S demoUsers (Some "Bearer token-of-dave") handler st
        = (jsonError 401 msg, st).
Proof.
  apply (@protect_rejects_revoked demoJwt demoUsers (Some "Bearer token-of-dave")
           "token-of-dave" (mkJwtPayload 8 role_user)).
  - reflexivity.
  - reflexivity.
  - right. exists dave. split; reflexivity.
Defined.

(* --------------------------------------------------------------------- *)
(** ** The ownership gate *)
(* --------------------------------------------------------------------- *)

(** For an actor who is neither admin nor manager nor the uploader, the gate
    of every operation decides on [permissions.read]. *)
Lemma gate_decides_on_read op (documents : gmap ObjectId Document) user id doc :
  documents !! id = Some doc →
  u_role user = role_user →
  d_uploadedBy doc ≠ u_id user →
  allowed (gate op documents user id) = bool_decide (u_id user ∈ p_read (d_permissions doc)).
Proof.
  intros Hdoc Hrole Howner.
  assert (allowed (checkOwnership documents user id)
          = bool_decide (u_id user ∈ p_read (d_permissions doc))) as Hc.
  { unfold checkOwnership, hasPermission. rewrite Hdoc.
    destruct (decide _) as [[H|H]|_]; [congruence..|].
    rewrite !decide_False by done.
    simpl. by destruct (bool_decide _). }
  by destruct op.
Qed.

(** C1, at the input where the code leaves the statement: Carol has the
    role user, did not upload the memo and stands in its read list only; the
    list of the capability that a deletion asks for is empty.  The gates of
    the update and of the delete operation let her through all the same,
    and the delete route marks the document deleted. *)
Theorem delete_gate_reads_read_list :
  let doc := memo approved in
  u_role carol = role_user
  ∧ d_uploadedBy doc ≠ u_id carol
  ∧ p_read (d_permissions doc) = [u_id carol]
  ∧ permissionList (d_permissions doc) (requestedCapability op_delete) = Some []
  ∧ permissionList (d_permissions doc) (requestedCapability op_update) = Some []
  ∧ allowed (gate op_delete (documents (demoDB approved)) carol 30) = true
  ∧ allowed (gate op_update (documents (demoDB approved)) carol 30) = true
  ∧ d_isDeleted <$>
      (documents (route_deleteDocument (demoDB approved) browser carol 30 5000 12).2
       !! (30 : ObjectId))
    = Some true.
Proof.
  repeat split; try discriminate; vm_compute; reflexivity.
Qed.

(* --------------------------------------------------------------------- *)
(** ** Login and the audit trail *)
(* --------------------------------------------------------------------- *)

Section LoginFacts.
Context {bcrypt : Bcrypt} {validator : EmailValidator}.

(** Without [req.user] the finish handler builds no log data, whatever the
    action. *)
Lemma auditLog_finish_no_user action resource cl params_id body_id captured duration :
  auditLog_finish action resource (request cl None params_id body_id) captured duration
  = None.
Proof.
  unfold auditLog_finish. simpl.
  by destruct (negb (bool_decide (action ∈ [act_login; act_user_create]))).
Qed.

(** A login request leaves the audit trail as it was, whatever the email
    and whatever the outcome: nothing on the route sets [req.user]. *)
Lemma route_login_never_audits st cl limited b now duration salt :
  auditLogs (route_login st cl limited b now duration salt).2 = auditLogs st.
Proof.
  unfold route_login.
  destruct limited; [done|].
  destruct (loginValidation b) as [b'|]; [|done].
  destruct (login (users st) b' now salt) as [r users'].
  unfold auditLog. by rewrite auditLog_finish_no_user.
Qed.

(** The unknown email is answered 401. *)
Lemma login_unknown_email users b now salt :
  User_findOne_email users (lb_email b) = None →
  login users b now salt = (jsonError 401 "Invalid credentials", users).
Proof. intros Hnone. unfold login. by rewrite Hnone. Qed.

(** C2, where the code leaves the statement: a login that passes the rate
    limiter and the validation with an email that matches no user is
    answered 401, and the audit trail is as before: no entry is appended. *)
Theorem login_unknown_email_not_audited st cl b b' now duration salt :
  loginValidation b = Some b' →
  User_findOne_email (users st) (lb_email b') = None →
  let out := route_login st cl false b now duration salt in
  out.1 = jsonError 401 "Invalid credentials"
  ∧ auditLogs out.2 = auditLogs st
  ∧ users out.2 = users st.
Proof.
  intros Hval Hnone out. subst out.
  split; [|split; [apply route_login_never_audits|]];
    unfold route_login; rewrite Hval, (login_unknown_email _ _ _ _ Hnone); done.
Qed.

(** The save hook hashes the password it finds, modified or not, in the
    document in memory. *)
Lemma User_preSave_hashes isModifiedPassword salt this pw :
  u_password this = Some pw →
  hr_final (User_preSave isModifiedPassword salt this)
  = Some (set_password (Some (bcrypt_hash pw salt)) this).
Proof. intros Hpw. unfold User_preSave. rewrite Hpw. by destruct isModifiedPassword. Qed.


End LoginFacts.

Lemma demoBcrypt_ideal : idealBcrypt demoBcrypt.
Proof.
  intros pw salt entered. simpl.
  apply bool_decide_ext. split.
  - intros H. by apply (inj (String.app "$2a$")) in H.
  - by intros ->.
Qed.


(** The same at the route: Bob logs in with his password, and the next
    login with the same password is answered 200 again. *)
Example login_twice :
  let b := mkLoginBody "bob@example.com" "builder" None in
  let '(r1, st1) := @route_login demoBcrypt demoEmail emptyDB browser false b 5000 12 "salt" in
  let '(r2, _) := @route_login demoBcrypt demoEmail st1 browser false b 6000 12 "pepper" in
  (statusCode r1, statusCode r2) = (200, 200).
Proof. vm_compute. reflexivity. Qed.

Lemma login_unknown_email_not_audited_witness :
  let b := mkLoginBody "Ghost@Example.com" "anything" None in
  let out := @route_login demoBcrypt demoEmail emptyDB browser false b 5000 12 "salt" in
  out.1 = jsonError 401 "Invalid credentials"
  ∧ auditLogs out.2 = auditLogs emptyDB
  ∧ users out.2 = users emptyDB.
Proof.
  apply (@login_unknown_email_not_audited demoBcrypt demoEmail emptyDB browser
           (mkLoginBody "Ghost@Example.com" "anything" None)
           (mkLoginBody "ghost@example.com" "anything" None) 5000 12 "salt").
  - reflexivity.
  - vm_compute. reflexivity.
Defined.

(* --------------------------------------------------------------------- *)
(** ** Strings *)
(* --------------------------------------------------------------------- *)

Lemma trimStart_head s :
  Js.trimStart s = "" ∨ ∃ c r, Js.trimStart s = String c r ∧ Js.isWhiteSpace c = false.
Proof.
  induction s as [|c s IH]; simpl; [by left|].
  destruct (Js.isWhiteSpace c) eqn:Hc; [exact IH|].
  right. by exists c, s.
Qed.

Lemma trimEnd_idemp s : Js.trimEnd (Js.trimEnd s) = Js.trimEnd s.
Proof.
  induction s as [|c s IH]; simpl; [done|].
  destruct (Js.trimEnd s) as [|d r] eqn:Hr.
  - destruct (Js.isWhiteSpace c) eqn:Hc; simpl; [done|]. by rewrite Hc.
  - simpl in *. by rewrite IH.
Qed.

Lemma trimEnd_keeps_head c s :
  Js.isWhiteSpace c = false → ∃ r, Js.trimEnd (String c s) = String c r.
Proof.
  intros Hc. simpl. destruct (Js.trimEnd s); rewrite ?Hc; eauto.
Qed.

Lemma trimStart_trim s : Js.trimStart (Js.trim s) = Js.trim s.
Proof.
  unfold Js.trim.
  destruct (trimStart_head s) as [-> | (c & r & -> & Hc)]; [done|].
  destruct (trimEnd_keeps_head c r Hc) as [r' ->]. simpl. by rewrite Hc.
Qed.

(** Trimming twice is trimming once: what a sanitizer trimmed, the
    schema's [trim: true] leaves as it is. *)
Lemma trim_idemp s : Js.trim (Js.trim s) = Js.trim s.
Proof.
  unfold Js.trim at 1. rewrite trimStart_trim.
  unfold Js.trim. apply trimEnd_idemp.
Qed.

Lemma trim_idemp_option (o : option string) :
  Js.trim <$> (Js.trim <$> o) = Js.trim <$> o.
Proof. destruct o; simpl; [|done]. by rewrite trim_idemp. Qed.

Lemma startsWith_refl s t : Js.startsWith s (s +:+ t) = true.
Proof.
  induction s as [|c s IH]; [done|].
  change (String c s +:+ t) with (String c (s +:+ t)).
  simpl. by rewrite decide_True.
Qed.

Lemma includes_refl s : Js.includes s s = true.
Proof.
  assert (Js.startsWith s s = true) as Hs.
  { induction s as [|c s IH]; [done|]. simpl. by rewrite decide_True. }
  destruct s; simpl in *; [done|]. by rewrite Hs.
Qed.

Lemma includes_skip p s x :
  Js.includes s x = true → Js.includes s (p +:+ x) = true.
Proof.
  intros Hx. induction p as [|c p IH]; [done|].
  change (String c p +:+ x) with (String c (p +:+ x)).
  simpl. rewrite IH. apply orb_true_r.
Qed.

(* --------------------------------------------------------------------- *)
(** ** Approval and rejection *)
(* --------------------------------------------------------------------- *)

Lemma audited_fst action resource req now duration out :
  (audited action resource req now duration out).1 = out.1.
Proof. done. Qed.

Lemma audited_documents action resource req now duration out :
  documents (audited action resource req now duration out).2 = documents out.2.
Proof. done. Qed.

Lemma authorize_Next roles user :
  u_role user ∈ roles → authorize roles user = Next ().
Proof. intros H. unfold authorize. by rewrite bool_decide_eq_true_2. Qed.

Lemma authorize_Reply_fails roles user r :
  authorize roles user = Reply r → success r = false.
Proof.
  unfold authorize. destruct (bool_decide _); [done|]. by intros [= <-].
Qed.

Lemma approvalValidation_Some b b' :
  approvalValidation b = Some b' →
  b' = mkApprovalBody (ab_status b) (Js.trim <$> ab_rejectionReason b) (ab_id b)
  ∧ ab_status b ∈ ["approved"; "rejected"].
Proof.
  unfold approvalValidation.
  destruct (bool_decide (ab_status b ∈ ["approved"; "rejected"])) eqn:Hs; [|done].
  destruct (optional _ _); [|done].
  intros [= <-]. split; [done|]. by apply bool_decide_eq_true in Hs.
Qed.

(** The fixed message of the approval handler names none of the statuses
    that draw it. *)
Lemma notPending_names_no_status s :
  s ≠ pending →
  namesStatus (jsonError 400 "Document is not pending approval") s = false.
Proof. by destruct s. Qed.

(** C5, as the code has it: a request to approve or reject a document
    whose status is not pending fails and leaves the document collection as
    it was, and the handler answers it 400 with the fixed message
    "Document is not pending approval", which does not name the status of the
    document; a request that succeeds found the document pending. *)
Theorem approval_refused_unless_pending st cl user id b now duration doc :
  documents st !! id = Some doc →
  let out := route_approval st cl user id b now duration in
  (d_status doc ≠ pending →
     success out.1 = false
     ∧ documents out.2 = documents st
     ∧ (u_role user ∈ [role_admin; role_manager] →
        is_Some (approvalValidation b) →
        out.1 = jsonError 400 "Document is not pending approval"
        ∧ namesStatus out.1 (d_status doc) = false))
  ∧ (success out.1 = true → d_status doc = pending).
Proof.
  intros Hdoc out.
  assert (d_status doc ≠ pending →
          success out.1 = false
          ∧ documents out.2 = documents st
          ∧ (u_role user ∈ [role_admin; role_manager] →
             is_Some (approvalValidation b) →
             out.1 = jsonError 400 "Document is not pending approval"
             ∧ namesStatus out.1 (d_status doc) = false)) as Hrefused.
  { intros Hst. subst out. unfold route_approval.
    destruct (authorize _ user) as [[]|r] eqn:Hauth.
    - destruct (approvalValidation b) as [b'|] eqn:Hval.
      + rewrite audited_fst, audited_documents.
        unfold approveDocument. rewrite Hdoc.
        rewrite bool_decide_eq_false_2 by done. simpl.
        split; [done|]. split; [done|]. intros _ _. split; [done|].
        by apply notPending_names_no_status.
      + simpl. split; [done|]. split; [done|]. by intros _ [? [=]].
    - simpl. split; [by eapply authorize_Reply_fails|]. split; [done|].
      intros Hrole _. rewrite (authorize_Next _ _ Hrole) in Hauth. discriminate. }
  split; [exact Hrefused|].
  intros Hok. destruct (decide (d_status doc = pending)) as [|Hne]; [done|].
  destruct (Hrefused Hne) as [Hfail _]. congruence.
Qed.

Lemma approval_refused_unless_pending_witness :
  let out := route_approval (demoDB approved) browser alice 30
               (mkApprovalBody "approved" None None) 5000 12 in
  (d_status (memo approved) ≠ pending →
     success out.1 = false
     ∧ documents out.2 = documents (demoDB approved)
     ∧ (u_role alice ∈ [role_admin; role_manager] →
        is_Some (approvalValidation (mkApprovalBody "approved" None None)) →
        out.1 = jsonError 400 "Document is not pending approval"
        ∧ namesStatus out.1 (d_status (memo approved)) = false))
  ∧ (success out.1 = true → d_status (memo approved) = pending).
Proof.
  apply (approval_refused_unless_pending (demoDB approved) browser alice 30
           (mkApprovalBody "approved" None None) 5000 12 (memo approved)).
  reflexivity.
Defined.

(** C5 as stated fails: Alice rejects a document that is already approved;
    the answer is the fixed message, which does not name the status
    "approved" of the document. *)
Lemma approval_error_does_not_name_status :
  let r := (route_approval (demoDB approved) browser alice 30
              (mkApprovalBody "rejected" (Some "too late") None) 5000 12).1 in
  r = jsonError 400 "Document is not pending approval"
  ∧ namesStatus r approved = false.
Proof. split; vm_compute; reflexivity. Qed.

(** C6, as the code has it: a rejection of a pending document by an admin
    or manager succeeds with or without a reason; it sets the status, the
    approver and the approval time, and it sets the rejection reason to the
    trimmed reason exactly when that is not empty, and else leaves the
    field as it was. *)
Theorem rejection_sets_approver_and_time st cl user id b now duration doc :
  documents st !! id = Some doc →
  d_status doc = pending →
  u_role user ∈ [role_admin; role_manager] →
  ab_status b = "rejected" →
  is_Some (approvalValidation b) →
  let out := route_approval st cl user id b now duration in
  let reason := Js.trim <$> ab_rejectionReason b in
  out.1 = jsonOk 200 "Document rejected successfully"
  ∧ ∃ doc',
      documents out.2 !! id = Some doc'
      ∧ d_status doc' = rejected
      ∧ d_approvedBy doc' = Some (u_id user)
      ∧ d_approvedAt doc' = Some now
      ∧ d_rejectionReason doc'
        = if Js.truthy reason then reason else d_rejectionReason doc.
Proof.
  intros Hdoc Hst Hrole Hrej [b' Hval] out reason. subst out.
  unfold route_approval. rewrite (authorize_Next _ _ Hrole), Hval.
  apply approvalValidation_Some in Hval as [-> _].
  rewrite audited_fst, audited_documents.
  unfold approveDocument. rewrite Hdoc, Hst. simpl. rewrite Hrej. simpl.
  split; [done|].
  eexists. split; [apply lookup_insert_eq|].
  rewrite trim_idemp_option. fold reason.
  by destruct (Js.truthy reason).
Qed.

Lemma rejection_sets_approver_and_time_witness :
  let b := mkApprovalBody "rejected" (Some "  scan is unreadable ") None in
  let out := route_approval (demoDB pending) browser alice 30 b 5000 12 in
  let reason := Js.trim <$> ab_rejectionReason b in
  out.1 = jsonOk 200 "Document rejected successfully"
  ∧ ∃ doc',
      documents out.2 !! (30 : ObjectId) = Some doc'
      ∧ d_status doc' = rejected
      ∧ d_approvedBy doc' = Some (u_id alice)
      ∧ d_approvedAt doc' = Some 5000
      ∧ d_rejectionReason doc'
        = if Js.truthy reason then reason else d_rejectionReason (memo pending).
Proof.
  apply (rejection_sets_approver_and_time (demoDB pending) browser alice 30
           (mkApprovalBody "rejected" (Some "  scan is unreadable ") None)
           5000 12 (memo pending)).
  - reflexivity.
  - reflexivity.
  - simpl. set_solver.
  - reflexivity.
  - by eexists.
Defined.

(** C6 as stated fails: a rejection without a reason succeeds and leaves
    the rejection reason unset. *)
Lemma rejection_without_reason_succeeds :
  let out := route_approval (demoDB pending) browser alice 30
               (mkApprovalBody "rejected" None None) 5000 12 in
  success out.1 = true
  ∧ d_status <$> (documents out.2 !! (30 : ObjectId)) = Some rejected
  ∧ d_rejectionReason <$> (documents out.2 !! (30 : ObjectId)) = Some None.
Proof. repeat split; vm_compute; reflexivity. Qed.

(* --------------------------------------------------------------------- *)
(** ** Upload *)
(* --------------------------------------------------------------------- *)

Lemma uploadValidation_Some b b' :
  uploadValidation b = Some b' →
  ub_category b' = ub_category b
  ∧ ub_department b' = Js.trim <$> ub_department b.
Proof.
  unfold uploadValidation. destruct (_ && _); [|done]. by intros [= <-].
Qed.

Lemma Document_preSave_status m now d :
  d_status (Document_preSave m now d) = d_status d.
Proof. unfold Document_preSave. by destruct (_ && _). Qed.

Lemma Document_preSave_department m now d :
  d_department (Document_preSave m now d) = d_department d.
Proof. unfold Document_preSave. by destruct (_ && _). Qed.

Lemma Document_preSave_id m now d :
  d_id (Document_preSave m now d) = d_id d.
Proof. unfold Document_preSave. by destruct (_ && _). Qed.

Section UploadFacts.
Context {crypto : Sha256}.

(** Where the handler ends when the category has no list of extensions:
    never at the category's extension check. *)
Lemma uploadDocument_unrestricted st user f b now c :
  categories st !! ub_category b = Some c →
  c_allowedFileTypes c = [] →
  rejectedForExtension (uploadDocument st user f b now).1 = false.
Proof.
  intros Hc Hnil. unfold uploadDocument, uploadCatch. rewrite Hc, Hnil. simpl.
  destruct (c_maxFileSize c <? f_size f); [done|].
  destruct (generateChecksum _ _); [|done].
  destruct (Document_valid _); [|done]. simpl.
  by destruct (DocumentVersion_valid _).
Qed.

(** The exit of the route, middleware by middleware. *)
Lemma route_upload_exit env st cl user file b now duration :
  (route_upload env st cl user file b now duration).1
  = match file with
    | None => exit_noFile
    | Some f =>
        if negb (fileFilter env f)
        then exit_fileFilter (fileExtensionOf (f_originalname f)) (allowedTypes env)
        else if fileSizeLimit env <=? f_size f
        then exit_fileTooLarge (fileSizeLimit env)
        else match uploadValidation b with
             | None => exit_validation
             | Some b' =>
                 (uploadDocument (set_files (<[f_path f := f_content f]> (files st)) st)
                                 user f b' now).1
             end
    end.
Proof.
  unfold route_upload, uploadSingle.
  destruct file as [f|]; [|done].
  destruct (negb (fileFilter env f)); [done|].
  destruct (fileSizeLimit env <=? f_size f); [done|].
  destruct (uploadValidation b) as [b'|]; [|done].
  by destruct (uploadDocument _ user f b' now).
Qed.

(** C4, as the code has it: for an upload into a category whose
    [allowedFileTypes] is empty, the category's own extension check never
    rejects; the upload is rejected for its extension exactly when the
    upload filter of the server does not list the extension. *)
Theorem empty_allowed_list_leaves_upload_filter env st cl user file b now
    duration c :
  categories st !! ub_category b = Some c →
  c_allowedFileTypes c = [] →
  let e := (route_upload env st cl user file b now duration).1 in
  (∀ ext l, e ≠ exit_typeNotAllowed ext l)
  ∧ (rejectedForExtension e = true
     ↔ ∃ f, file = Some f ∧ fileExtensionOf (f_originalname f) ∉ allowedTypes env).
Proof.
  intros Hc Hnil e. subst e. rewrite route_upload_exit.
  destruct file as [f|]; [|split; [done|split; [done|by intros (? & [=] & _)]]].
  unfold fileFilter.
  destruct (bool_decide_reflect
              (fileExtensionOf (f_originalname f) ∈ allowedTypes env)) as [Hin|Hout];
    simpl.
  - assert (∀ x : UploadExit, rejectedForExtension x = false →
              (∀ ext l, x ≠ exit_typeNotAllowed ext l)
              ∧ (rejectedForExtension x = true
                 ↔ ∃ f0, Some f = Some f0
                         ∧ fileExtensionOf (f_originalname f0) ∉ allowedTypes env))
      as Hno.
    { intros x Hx. split.
      - intros ext l ->. discriminate.
      - rewrite Hx. split; [done|]. by intros (? & [= <-] & ?). }
    destruct (fileSizeLimit env <=? f_size f); [by apply Hno|].
    destruct (uploadValidation b) as [b'|] eqn:Hval; [|by apply Hno].
    apply uploadValidation_Some in Hval as [Hcat _].
    apply Hno. eapply uploadDocument_unrestricted; [|exact Hnil].
    simpl. by rewrite Hcat.
  - split; [done|]. split; [|done]. intros _. by exists f.
Qed.

(** X28: an upload that passed the upload filter, the size limit of the
    server and the validation of its fields, into a category whose
    non-empty [allowedFileTypes] does not contain the extension, ends at
    the category's extension check: the answer is 400 and lists the
    category's extensions, the document and version collections are as
    before, and the temporary file is removed. *)
Theorem disallowed_extension_discards_upload env st cl user f b now duration c :
  fileFilter env f = true →
  f_size f < fileSizeLimit env →
  is_Some (uploadValidation b) →
  categories st !! ub_category b = Some c →
  c_allowedFileTypes c ≠ [] →
  fileExtensionOf (f_originalname f) ∉ c_allowedFileTypes c →
  let out := route_upload env st cl user (Some f) b now duration in
  out.1 = exit_typeNotAllowed (fileExtensionOf (f_originalname f))
                              (c_allowedFileTypes c)
  ∧ statusCode (reply out.1) = 400
  ∧ listsAllowed (reply out.1) c = true
  ∧ documents out.2 = documents st
  ∧ versions out.2 = versions st
  ∧ files out.2 = delete (f_path f) (files st)
  ∧ (files out.2 !! f_path f) = None.
Proof.
  intros Hfilter Hsize [b' Hval] Hc Hne Hout out. subst out.
  unfold route_upload, uploadSingle. rewrite Hfilter. simpl.
  assert ((fileSizeLimit env <=? f_size f) = false) as -> by (apply N.leb_gt; lia).
  rewrite Hval.
  apply uploadValidation_Some in Hval as [Hcat _].
  unfold uploadDocument. simpl. rewrite Hcat, Hc.
  rewrite (bool_decide_eq_false_2 _ Hne), (bool_decide_eq_false_2 _ Hout). simpl.
  split; [done|]. split; [done|].
  split; [unfold listsAllowed; cbn [reply jsonError error];
          do 3 apply includes_skip; apply includes_refl|].
  split; [done|]. split; [done|].
  unfold deleteFile. rewrite delete_insert_eq.
  split; [done|]. apply lookup_delete_eq.
Qed.

(** C7: the validation of the fields comes after the file is on the disk,
    and its refusal does not remove it.  An upload that passed the upload
    filter and the size limit of the server and whose fields are refused,
    whatever its category allows, is answered 400 "Validation failed",
    which names no extension; no document and no version is created and
    nothing is logged; and the temporary file stays where multer wrote
    it. *)
Theorem invalid_fields_leave_temp_file env st cl user f b now duration :
  fileFilter env f = true →
  f_size f < fileSizeLimit env →
  uploadValidation b = None →
  let out := route_upload env st cl user (Some f) b now duration in
  out.1 = exit_validation
  ∧ reply out.1 = jsonError 400 "Validation failed"
  ∧ documents out.2 = documents st
  ∧ versions out.2 = versions st
  ∧ auditLogs out.2 = auditLogs st
  ∧ files out.2 = <[f_path f := f_content f]> (files st)
  ∧ files out.2 !! f_path f = Some (f_content f).
Proof.
  intros Hfilter Hsize Hval out. subst out.
  unfold route_upload, uploadSingle. rewrite Hfilter. simpl.
  assert ((fileSizeLimit env <=? f_size f) = false) as -> by (apply N.leb_gt; lia).
  rewrite Hval. simpl.
  repeat split; try done. apply lookup_insert_eq.
Qed.

(** C8: the document of a successful first upload is pending when its
    category requires approval and approved otherwise; its department is
    the supplied one, as the request's sanitizer trimmed it, when that is
    not empty, and else the uploader's; and it is the document stored
    under its id. *)
Theorem created_document_status_and_department env st cl user file b now
    duration doc st' :
  route_upload env st cl user file b now duration = (exit_created doc, st') →
  ∃ c,
    categories st !! ub_category b = Some c
    ∧ d_status doc = (if c_requiresApproval c then pending else approved)
    ∧ d_department doc
      = (let supplied := Js.trim <$> ub_department b in
         if Js.truthy supplied then supplied else Js.trim <$> u_department user)
    ∧ documents st' !! d_id doc = Some doc.
Proof.
  unfold route_upload, uploadSingle.
  destruct file as [f|]; [|done].
  destruct (negb (fileFilter env f)); [done|].
  destruct (fileSizeLimit env <=? f_size f); [done|].
  destruct (uploadValidation b) as [b'|] eqn:Hval; [|done].
  apply uploadValidation_Some in Hval as [Hcat Hdep].
  unfold uploadDocument, uploadCatch. simpl. rewrite Hcat.
  destruct (categories st !! ub_category b) as [c|]; [|done].
  destruct (_ && _); [done|].
  destruct (c_maxFileSize c <? f_size f); [done|].
  destruct (generateChecksum _ _) as [checksum|]; [|done].
  destruct (Document_valid _); [|done]. simpl.
  destruct (DocumentVersion_valid _); [|done]. simpl.
  intros [= <- <-]. exists c. split; [done|].
  unfold newDocument.
  rewrite Document_preSave_status, Document_preSave_department,
          Document_preSave_id. simpl.
  split; [done|]. split.
  - rewrite Hdep. unfold Js.or_else.
    destruct (Js.truthy (Js.trim <$> ub_department b)); [|done].
    apply trim_idemp_option.
  - apply lookup_insert_eq.
Qed.

End UploadFacts.

Lemma empty_allowed_list_leaves_upload_filter_witness :
  let e := (@route_upload demoSha256 noEnv (demoDB pending) browser bob
              (Some (fileNamed "notes.txt")) (uploadInto 21 None) 5000 12).1 in
  (∀ ext l, e ≠ exit_typeNotAllowed ext l)
  ∧ (rejectedForExtension e = true
     ↔ ∃ f, Some (fileNamed "notes.txt") = Some f
            ∧ fileExtensionOf (f_originalname f) ∉ allowedTypes noEnv).
Proof.
  apply (@empty_allowed_list_leaves_upload_filter demoSha256 noEnv (demoDB pending)
           browser bob (Some (fileNamed "notes.txt")) (uploadInto 21 None) 5000 12
           anything).
  - reflexivity.
  - reflexivity.
Defined.

(** C4 as stated fails: the category "Anything" lists no extensions, and
    the upload of a zip archive into it is rejected for its extension, by
    the upload filter of the server. *)
Lemma empty_allowed_list_zip_rejected :
  let e := (@route_upload demoSha256 noEnv (demoDB pending) browser bob
              (Some (fileNamed "tool.zip")) (uploadInto 21 None) 5000 12).1 in
  c_allowedFileTypes anything = []
  ∧ e = exit_fileFilter "zip" defaultAllowedTypes
  ∧ rejectedForExtension e = true.
Proof. repeat split; vm_compute; reflexivity. Qed.

Lemma disallowed_extension_discards_upload_witness :
  let f := fileNamed "notes.txt" in
  let st := demoDB pending in
  let out := @route_upload demoSha256 noEnv st browser bob (Some f)
               (uploadInto 20 None) 5000 12 in
  out.1 = exit_typeNotAllowed (fileExtensionOf (f_originalname f))
                              (c_allowedFileTypes finance)
  ∧ statusCode (reply out.1) = 400
  ∧ listsAllowed (reply out.1) finance = true
  ∧ documents out.2 = documents st
  ∧ versions out.2 = versions st
  ∧ files out.2 = delete (f_path f) (files st)
  ∧ (files out.2 !! f_path f) = None.
Proof.
  apply (@disallowed_extension_discards_upload demoSha256 noEnv (demoDB pending)
           browser bob (fileNamed "notes.txt") (uploadInto 20 None) 5000 12 finance).
  - reflexivity.
  - vm_compute. reflexivity.
  - by eexists.
  - reflexivity.
  - discriminate.
  - apply (bool_decide_eq_false_1 _). vm_compute. reflexivity.
Defined.

Lemma invalid_fields_leave_temp_file_witness :
  let f := fileNamed "notes.txt" in
  let st := demoDB pending in
  let out := @route_upload demoSha256 noEnv st browser bob (Some f)
               (shortTitle 20) 5000 12 in
  (c_allowedFileTypes finance ≠ []
   ∧ (fileExtensionOf (f_originalname f) ∉ c_allowedFileTypes finance)
   ∧ listsAllowed (reply out.1) finance = false)
  ∧ out.1 = exit_validation
  ∧ reply out.1 = jsonError 400 "Validation failed"
  ∧ documents out.2 = documents st
  ∧ versions out.2 = versions st
  ∧ auditLogs out.2 = auditLogs st
  ∧ files out.2 = <[f_path f := f_content f]> (files st)
  ∧ files out.2 !! f_path f = Some (f_content f).
Proof.
  split.
  - split; [discriminate|]. split; [|vm_compute; reflexivity].
    apply (bool_decide_eq_false_1 _). vm_compute. reflexivity.
  - apply (@invalid_fields_leave_temp_file demoSha256 noEnv (demoDB pending)
             browser bob (fileNamed "notes.txt") (shortTitle 20) 5000 12).
    + reflexivity.
    + vm_compute. reflexivity.
    + vm_compute. reflexivity.
Defined.

(** Finance allows pdf, xls and xlsx; the upload of a csv file into it is
    stopped before the category is looked at, by the upload filter of the
    server, whose answer lists the server's extensions. *)
Lemma csv_into_finance_lists_server_types :
  let e := (@route_upload demoSha256 noEnv (demoDB pending) browser bob
              (Some (fileNamed "report.csv")) (uploadInto 20 None) 5000 12).1 in
  c_allowedFileTypes finance = ["pdf"; "xls"; "xlsx"]
  ∧ bool_decide (fileExtensionOf "report.csv" ∈ c_allowedFileTypes finance) = false
  ∧ e = exit_fileFilter "csv" defaultAllowedTypes
  ∧ listsAllowed (reply e) finance = false.
Proof. repeat split; vm_compute; reflexivity. Qed.

Lemma created_document_status_and_department_witness :
  ∃ c,
    categories (demoDB pending) !! ub_category (uploadInto 20 None) = Some c
    ∧ d_status quarterlyReport = (if c_requiresApproval c then pending else approved)
    ∧ d_department quarterlyReport
      = (let supplied := Js.trim <$> ub_department (uploadInto 20 None) in
         if Js.truthy supplied then supplied else Js.trim <$> u_department bob)
    ∧ documents
        (@route_upload demoSha256 noEnv (demoDB pending) browser bob
           (Some (fileNamed "report.pdf")) (uploadInto 20 None) 5000 12).2
      !! d_id quarterlyReport = Some quarterlyReport.
Proof.
  apply (@created_document_status_and_department demoSha256 noEnv (demoDB pending)
           browser bob (Some (fileNamed "report.pdf")) (uploadInto 20 None) 5000 12).
  vm_compute. reflexivity.
Defined.

(* --------------------------------------------------------------------- *)
(** ** The slug loop *)
(* --------------------------------------------------------------------- *)

Lemma append_empty_r s : s +:+ "" = s.
Proof.
  induction s as [|c s IH]; [done|].
  change (String c s +:+ "") with (String c (s +:+ "")). by rewrite IH.
Qed.

Global Instance cand_inj base : Inj (=) (=) (cand base).
Proof.
  intros [|i] [|j] Heq; simpl in Heq; unfold candidate in Heq.
  - done.
  - rewrite <- (append_empty_r base) in Heq at 1.
    apply (inj (String.app base)) in Heq. discriminate.
  - rewrite <- (append_empty_r base) in Heq at 2.
    apply (inj (String.app base)) in Heq. discriminate.
  - apply (inj (String.app base)) in Heq.
    apply (inj (String.app "-")) in Heq.
    by apply (inj pretty) in Heq.
Qed.

(** What the loop returns from the state it has after [k] rounds: the first
    candidate from the [k]-th on that is not taken, when it meets one within
    [rounds] rounds. *)
Lemma uniqueSlug_first_free taken base rounds k :
  ∃ j, (k ≤ j ≤ k + rounds)%nat
       ∧ uniqueSlug taken base (cand base k) (S k) rounds = cand base j
       ∧ (∀ i, (k ≤ i < j)%nat → taken (cand base i) = true)
       ∧ ((j < k + rounds)%nat → taken (cand base j) = false).
Proof.
  revert k. induction rounds as [|rounds IH]; intros k.
  - exists k. simpl. repeat split; intros; lia.
  - simpl. destruct (taken (cand base k)) eqn:Ht.
    + change (candidate base (S k)) with (cand base (S k)).
      destruct (IH (S k)) as (j & Hj & Heq & Hbefore & Hfree).
      exists j. split; [lia|]. split; [exact Heq|]. split.
      * intros i Hi. destruct (decide (i = k)) as [->|]; [done|]. apply Hbefore. lia.
      * intros Hlt. apply Hfree. lia.
    + exists k. split; [lia|]. split; [done|]. split; [intros; lia|done].
Qed.

Lemma slugTaken_elem cats self s :
  slugTaken cats self s = true → s ∈ (λ kv, c_slug kv.2) <$> map_to_list cats.
Proof.
  unfold slugTaken. rewrite existsb_exists.
  intros (kv & Hin & Hkv). apply list_elem_of_fmap. exists kv. split.
  - apply andb_true_iff in Hkv as [Hslug _].
    by apply bool_decide_eq_true in Hslug.
  - by apply list_elem_of_In.
Qed.

(** The rounds suffice: the slug that the hook assigns is the first
    candidate that no other category has, as the loop of the source finds
    it. *)
Lemma uniqueSlug_free cats self base :
  ∃ j, uniqueSlug (slugTaken cats self) base base 1 (size cats) = cand base j
       ∧ (∀ i, (i < j)%nat → slugTaken cats self (cand base i) = true)
       ∧ slugTaken cats self (cand base j) = false.
Proof.
  destruct (uniqueSlug_first_free (slugTaken cats self) base (size cats) 0)
    as (j & Hj & Heq & Hbefore & Hfree).
  exists j. split; [exact Heq|]. split; [intros i Hi; apply Hbefore; lia|].
  destruct (decide (j < size cats)%nat) as [Hlt|Hge]; [by apply Hfree|].
  destruct (slugTaken cats self (cand base j)) eqn:Hlast; [exfalso|done].
  assert (cand base <$> seq 0 (S j) ⊆+ (λ kv, c_slug kv.2) <$> map_to_list cats)
    as Hsub.
  { apply NoDup_submseteq.
    - apply (NoDup_fmap_2 _), NoDup_seq.
    - intros s (i & -> & Hi)%list_elem_of_fmap. apply elem_of_seq in Hi.
      apply (slugTaken_elem cats self).
      destruct (decide (i = j)) as [->|]; [done|]. apply Hbefore. lia. }
  apply submseteq_length in Hsub.
  rewrite !length_fmap, length_seq, length_map_to_list in Hsub. lia.
Qed.

(* --------------------------------------------------------------------- *)
(** ** Placement of categories *)
(* --------------------------------------------------------------------- *)

Lemma Category_preSave_id cats m this :
  c_id (Category_preSave cats m this) = c_id this.
Proof.
  unfold Category_preSave.
  destruct (m || _); simpl; destruct (c_parent this); simpl;
    try destruct (cats !! _); done.
Qed.

(** The hook places the category under the parent it finds. *)
Lemma Category_preSave_wellPlaced cats m this :
  (∀ p, c_parent this = Some p → is_Some (cats !! p)) →
  wellPlaced cats (Category_preSave cats m this).
Proof.
  intros Hparent. unfold Category_preSave.
  set (this1 := if m || bool_decide (c_slug this = "") then _ else this).
  assert (c_parent this1 = c_parent this) as Hp1.
  { subst this1. by destruct (m || _). }
  destruct (c_parent this1) as [p|] eqn:Hp.
  - destruct (Hparent p) as [P HP]; [congruence|]. rewrite HP.
    unfold wellPlaced. simpl. rewrite Hp. by exists P.
  - unfold wellPlaced. simpl. by rewrite Hp.
Qed.

Lemma wellPlaced_insert cats id new c :
  cats !! id = None →
  wellPlaced cats c → wellPlaced (<[id := new]> cats) c.
Proof.
  intros Hfresh. unfold wellPlaced.
  destruct (c_parent c) as [p|]; [|done].
  intros (P & HP & Hrest). exists P. split; [|done].
  rewrite lookup_insert_ne; [done|]. congruence.
Qed.

(** What a request to POST /api/categories does to the collection:
    nothing, or it adds, under the next fresh id, what the hook makes of a
    new document whose parent, if it names one, is in the collection. *)
Lemma route_createCategory_step st cl user b now duration :
  let st' := (route_createCategory st cl user b now duration).2 in
  (categories st' = categories st ∧ nextId st' = nextId st)
  ∨ ∃ this,
      c_id this = nextId st
      ∧ (∀ p, c_parent this = Some p → is_Some (categories st !! p))
      ∧ categories st'
        = <[nextId st := Category_preSave (categories st) true this]> (categories st)
      ∧ nextId st' = nextId st + 1.
Proof.
  unfold route_createCategory.
  destruct (authorize _ user); [|by left].
  destruct (createCategoryValidation b) as [b'|]; [|by left].
  unfold audited, createCategory. simpl.
  match goal with
  | |- context [Category_save (categories st) true ?t] => set (this := t)
  end.
  assert (∀ p, c_parent this = Some p → cb_parent b' = Some p) as Hparent by done.
  destruct (cb_parent b') as [p|] eqn:Hp.
  - destruct (categories st !! p) as [P|] eqn:HP; [|by left].
    destruct (Category_valid this); [|by left].
    right. exists this. split; [done|]. split; [|done].
    intros q [= <-]%Hparent. by exists P.
  - destruct (Category_valid this); [|by left].
    right. exists this. split; [done|]. split; [|done].
    by intros q [=]%Hparent.
Qed.

Section PlacementFacts.
Context {ids : MongoIds}.

Lemma updateCategoryValidation_Some b b' :
  updateCategoryValidation b = Some b' →
  b' = mkCategoryUpdate (Js.trim <$> cu_name b) (cu_slug b) (cu_parent b) (cu_level b)
         (cu_path b) (cu_allowedFileTypes b) (cu_maxFileSize b)
         (cu_requiresApproval b) (cu_documentCount b) (cu_isActive b)
         (cu_createdBy b) (cu_id b).
Proof.
  unfold updateCategoryValidation. destruct (_ && _); [|done]. by intros [= <-].
Qed.

Lemma castUpdate_Some b w :
  castUpdate b = Some w →
  cw_name w = Js.trim <$> cu_name b
  ∧ cw_slug w = Js.toLowerCase <$> cu_slug b
  ∧ cw_level w = cu_level b
  ∧ cw_path w = cu_path b
  ∧ cw_documentCount w = cu_documentCount b
  ∧ match cu_parent b with
    | Some t => ∃ p, castObjectId t = Some p ∧ cw_parent w = Some p
    | None => cw_parent w = None
    end.
Proof.
  unfold castUpdate, castField.
  destruct (cu_parent b) as [t|]; [destruct (castObjectId t) as [p|]|]; simpl;
    try done;
    (destruct (cu_createdBy b) as [u|]; [destruct (castObjectId u)|]; simpl;
     try done; intros [= <-]; simpl; repeat split; by eauto).
Qed.

(** What the handler of PUT /api/categories/:id does: it refuses and
    changes nothing, or it answers 200 and writes, at the id that the
    parameter casts to, what [findByIdAndUpdate] makes of the category
    there; the slug that the body names, if any, is then the slug of no
    other category. *)
Lemma updateCategory_writes st id b :
  let out := updateCategory st id b in
  (out.2 = st ∧ success out.1 = false)
  ∨ ∃ i old w,
      out = (jsonOk 200 "Category updated successfully",
             set_categories (<[i := Category_findByIdAndUpdate w old]> (categories st))
                            st)
      ∧ castObjectId id = Some i
      ∧ categories st !! i = Some old
      ∧ castUpdate b = Some w
      ∧ (∀ s, cw_slug w = Some s → slugTaken (categories st) i s = false).
Proof.
  unfold updateCategory.
  destruct (castObjectId id) as [i|] eqn:Hid; [|by left].
  destruct (categories st !! i) as [old|] eqn:Hold; [|by left].
  destruct (castUpdate b) as [w|] eqn:Hw; [|by repeat case_match; left].
  destruct (negb (updateValidators w)); [by repeat case_match; left|].
  destruct (from_option (slugTaken (categories st) i) false (cw_slug w)) eqn:Hslug;
    [by repeat case_match; left|].
  assert (∀ s, cw_slug w = Some s → slugTaken (categories st) i s = false) as Hfree.
  { intros s Hs. by rewrite Hs in Hslug. }
  repeat case_match; try (by left); right; by exists i, old, w.
Qed.

(** The same of the route: the middleware before the handler changes
    nothing, the audit trail no category. *)
Lemma route_updateCategory_writes st cl user id b now duration :
  let out := route_updateCategory st cl user id b now duration in
  nextId out.2 = nextId st
  ∧ ((categories out.2 = categories st ∧ success out.1 = false)
     ∨ ∃ i old w b',
         out.1 = jsonOk 200 "Category updated successfully"
         ∧ categories out.2
           = <[i := Category_findByIdAndUpdate w old]> (categories st)
         ∧ castObjectId id = Some i
         ∧ categories st !! i = Some old
         ∧ updateCategoryValidation b = Some b'
         ∧ castUpdate b' = Some w
         ∧ (∀ s, cw_slug w = Some s → slugTaken (categories st) i s = false)).
Proof.
  unfold route_updateCategory.
  destruct (authorize _ user) as [u|r] eqn:Hauth.
  2: { split; [done|]. left. split; [done|].
       unfold authorize in Hauth. case_match; [done|]. by injection Hauth as <-. }
  destruct (updateCategoryValidation b) as [b'|] eqn:Hval;
    [|by split; [|left]].
  unfold audited. simpl.
  destruct (updateCategory_writes st id b')
    as [[Hst Hfail] | (i & old & w & Hout & Hid & Hold & Hw & Hfree)].
  - rewrite Hst. split; [done|]. by left.
  - rewrite Hout. simpl. split; [done|]. right. by exists i, old, w, b'.
Qed.

(** An update that names none of the placing paths leaves the slug, the
    parent, the level and the path of the category it writes. *)
Lemma route_updateCategory_step st cl user id b now duration :
  keepsPlacement b →
  let st' := (route_updateCategory st cl user id b now duration).2 in
  nextId st' = nextId st
  ∧ (categories st' = categories st
     ∨ ∃ i old new,
         categories st !! i = Some old
         ∧ categories st' = <[i := new]> (categories st)
         ∧ c_slug new = c_slug old
         ∧ c_parent new = c_parent old
         ∧ c_level new = c_level old
         ∧ c_path new = c_path old).
Proof.
  intros (Hparent & Hslug & Hlevel & Hpath).
  destruct (route_updateCategory_writes st cl user id b now duration)
    as [Hnext [[Hsame _] | (i & old & w & b' & _ & Hcats & _ & Hold & Hval & Hw & _)]].
  - split; [done|]. by left.
  - split; [done|]. right.
    exists i, old, (Category_findByIdAndUpdate w old).
    apply updateCategoryValidation_Some in Hval.
    apply castUpdate_Some in Hw as (_ & Hws & Hwl & Hwp & _ & Hwparent).
    rewrite Hval in Hws, Hwl, Hwp, Hwparent. simpl in *.
    rewrite Hparent in Hwparent. rewrite Hslug in Hws.
    rewrite Hlevel in Hwl. rewrite Hpath in Hwp.
    repeat split; try done; simpl.
    + by rewrite Hws.
    + by rewrite Hwparent.
    + by rewrite Hwl.
    + by rewrite Hwp.
Qed.

(** The ids in use lie below the next fresh id. *)
Lemma servedTree_ids_below st id c :
  servedTree st → categories st !! id = Some c → id < nextId st.
Proof.
  intros Hst. revert id c.
  induction Hst as [st Hempty
                   | st cl user b now duration Hst IH
                   | st cl user id0 b now duration Hst IH]; intros id c.
  - by rewrite Hempty, lookup_empty.
  - destruct (route_createCategory_step st cl user b now duration)
      as [[-> ->] | (this & _ & _ & -> & ->)]; [apply IH|].
    intros [[<- _]|[_ Hc]]%lookup_insert_Some; [lia|].
    apply IH in Hc. lia.
  - destruct (route_updateCategory_writes st cl user id0 b now duration)
      as [-> [[-> _] | (i & old & w & b' & _ & -> & _ & Hold & _)]]; [apply IH|].
    intros [[<- _]|[_ Hc]]%lookup_insert_Some; by eapply IH.
Qed.

Lemma servedTree_fresh st :
  servedTree st → categories st !! nextId st = None.
Proof.
  intros Hst. destruct (categories st !! nextId st) as [c|] eqn:Hc; [|done].
  apply (servedTree_ids_below st _ c Hst) in Hc. lia.
Qed.

Lemma builtTree_served st : builtTree st → servedTree st.
Proof.
  induction 1; [by apply servedTree_init|by apply servedTree_create
               |by apply servedTree_update].
Qed.

Lemma builtTree_ids_below st id c :
  builtTree st → categories st !! id = Some c → id < nextId st.
Proof. intros Hst. by apply servedTree_ids_below, builtTree_served. Qed.

Lemma builtTree_fresh st :
  builtTree st → categories st !! nextId st = None.
Proof. intros Hst. by apply servedTree_fresh, builtTree_served. Qed.

(** Replacing a category by one of the same level and path keeps every
    category where it is placed. *)
Lemma wellPlaced_replace cats id old new c :
  cats !! id = Some old →
  c_level new = c_level old →
  c_path new = c_path old →
  wellPlaced cats c → wellPlaced (<[id := new]> cats) c.
Proof.
  intros Hold Hlevel Hpath. unfold wellPlaced.
  destruct (c_parent c) as [p|]; [|done].
  intros (P & HP & Hl & Hp).
  destruct (decide (p = id)) as [->|Hne].
  - exists new. rewrite lookup_insert_eq. split; [done|].
    assert (P = old) as -> by congruence. by rewrite Hlevel, Hpath.
  - exists P. by rewrite lookup_insert_ne.
Qed.

Lemma wellPlaced_same_fields cats old new :
  c_slug new = c_slug old →
  c_parent new = c_parent old →
  c_level new = c_level old →
  c_path new = c_path old →
  wellPlaced cats old → wellPlaced cats new.
Proof. unfold wellPlaced. by intros -> -> -> ->. Qed.

(** After any sequence of category creations and of category updates that
    name none of the placing paths, every category is where the save hook
    placed it: without a parent at level 0 with its slug as path, with a
    parent one level below it, its path the parent's path, a slash and its
    slug, or its slug alone when the parent's path is empty. *)
Lemma builtTree_placed st id c :
  builtTree st →
  categories st !! id = Some c →
  wellPlaced (categories st) c.
Proof.
  intros Hst. revert id c.
  induction Hst as [st Hempty
                   | st cl user b now duration Hst IH
                   | st cl user id0 b now duration Hst IH Hnone]; intros id c.
  - by rewrite Hempty, lookup_empty.
  - pose proof (builtTree_fresh st Hst) as Hfresh.
    destruct (route_createCategory_step st cl user b now duration)
      as [[-> _] | (this & Hid & Hparent & -> & _)]; [apply IH|].
    intros [[_ <-]|[_ Hc]]%lookup_insert_Some.
    + (* the new category: placed by the hook under a parent that is there *)
      apply wellPlaced_insert; [done|].
      by apply Category_preSave_wellPlaced.
    + (* an older one: its parent is still where it was *)
      apply wellPlaced_insert; [done|]. by apply (IH id).
  - destruct (route_updateCategory_step st cl user id0 b now duration Hnone)
      as [_ [-> | (i & old & new & Hold & -> & Hslug & Hparent & Hlevel & Hpath)]];
      [apply IH|].
    intros [[_ <-]|[_ Hc]]%lookup_insert_Some.
    + (* the updated category: same slug, parent, level and path *)
      apply (wellPlaced_replace _ _ old); [done..|].
      apply (wellPlaced_same_fields _ old); [done..|]. by apply (IH i).
    + apply (wellPlaced_replace _ _ old); [done..|]. by apply (IH id).
Qed.

Lemma slugTaken_false cats self s id c :
  slugTaken cats self s = false →
  cats !! id = Some c → id ≠ self → c_slug c ≠ s.
Proof.
  unfold slugTaken. intros Hfree Hc Hne Heq.
  enough (existsb
            (λ kv : ObjectId * Category,
               bool_decide (c_slug kv.2 = s) && negb (bool_decide (kv.1 = self)))
            (map_to_list cats) = true) by congruence.
  apply existsb_exists. exists (id, c). split.
  - apply list_elem_of_In. by apply elem_of_map_to_list.
  - simpl. rewrite bool_decide_eq_true_2 by done.
    by rewrite bool_decide_eq_false_2.
Qed.

Lemma Category_preSave_new_slug cats this :
  c_slug (Category_preSave cats true this)
  = uniqueSlug (slugTaken cats (c_id this)) (baseSlug (c_name this))
               (baseSlug (c_name this)) 1 (size cats).
Proof.
  unfold Category_preSave. simpl.
  destruct (c_parent this); simpl; [destruct (cats !! _)|]; done.
Qed.

(** The slug that the hook gives a new category is the slug of no category
    already there. *)
Lemma Category_preSave_slug_fresh cats this id c :
  cats !! id = Some c → id ≠ c_id this →
  c_slug c ≠ c_slug (Category_preSave cats true this).
Proof.
  intros Hc Hne. rewrite Category_preSave_new_slug.
  destruct (uniqueSlug_free cats (c_id this) (baseSlug (c_name this)))
    as (j & -> & _ & Hfree).
  by eapply slugTaken_false.
Qed.

(** The slug that an update writes is the slug of no other category. *)
Lemma Category_findByIdAndUpdate_slug cats i old w id c :
  (∀ s, cw_slug w = Some s → slugTaken cats i s = false) →
  (∀ id c, cats !! id = Some c → c_slug c = c_slug old → cats !! i = Some old →
           id = i) →
  cats !! i = Some old →
  cats !! id = Some c → id ≠ i →
  c_slug c ≠ c_slug (Category_findByIdAndUpdate w old).
Proof.
  intros Hfree Hunique Hold Hc Hne. simpl.
  destruct (cw_slug w) as [s|] eqn:Hs; simpl.
  - by eapply slugTaken_false; [apply Hfree|..].
  - intros Heq. apply Hne. by eapply Hunique.
Qed.

(** After any sequence of creations and updates no two categories share a
    slug. *)
Lemma served_slugs_unique st id1 id2 c1 c2 :
  servedTree st →
  categories st !! id1 = Some c1 →
  categories st !! id2 = Some c2 →
  c_slug c1 = c_slug c2 → id1 = id2.
Proof.
  intros Hst. revert id1 id2 c1 c2.
  induction Hst as [st Hempty
                   | st cl user b now duration Hst IH
                   | st cl user id0 b now duration Hst IH];
    intros id1 id2 c1 c2.
  - by rewrite Hempty, lookup_empty.
  - pose proof (servedTree_fresh st Hst) as Hfresh.
    destruct (route_createCategory_step st cl user b now duration)
      as [[-> _] | (this & Hid & _ & -> & _)]; [apply IH|].
    rewrite <- Hid in *.
    intros [[<- <-]|[Hne1 Hc1]]%lookup_insert_Some
           [[<- <-]|[Hne2 Hc2]]%lookup_insert_Some Hslug.
    + done.
    + by destruct (Category_preSave_slug_fresh _ this _ _ Hc2).
    + by destruct (Category_preSave_slug_fresh _ this _ _ Hc1).
    + by apply (IH id1 id2 c1 c2).
  - destruct (route_updateCategory_writes st cl user id0 b now duration)
      as [_ [[-> _] | (i & old & w & b' & _ & -> & _ & Hold & _ & _ & Hfree)]];
      [apply IH|].
    assert (∀ id c, categories st !! id = Some c → id ≠ i →
                    c_slug c ≠ c_slug (Category_findByIdAndUpdate w old)) as Hother.
    { intros id c Hc Hne. eapply Category_findByIdAndUpdate_slug; try done.
      intros id' c' Hc' Heq' Hold'. by apply (IH id' i c' old). }
    intros [[<- <-]|[Hne1 Hc1]]%lookup_insert_Some
           [[<- <-]|[Hne2 Hc2]]%lookup_insert_Some Heq.
    + done.
    + by destruct (Hother id2 c2).
    + by destruct (Hother id1 c1).
    + by apply (IH id1 id2 c1 c2).
Qed.

(** C3: a category update re-derives nothing.  Whenever PUT
    /api/categories/:id answers 200, the category is stored with the paths
    that the body names set and every other path as it was: level and
    path are those of the body or the old ones, also under a new parent,
    and the slug is that of the body in lower case or the old one, also
    under a new name.  So a root moved under another category keeps level 0
    and its slug as path, against what the specification promises of every
    category with a parent. *)
Theorem update_rederives_nothing st cl user id b now duration :
  let out := route_updateCategory st cl user id b now duration in
  success out.1 = true →
  ∃ i old new,
    castObjectId id = Some i
    ∧ categories st !! i = Some old
    ∧ categories out.2 = <[i := new]> (categories st)
    ∧ c_parent new = match cu_parent b with
                     | Some t => castObjectId t
                     | None => c_parent old
                     end
    ∧ c_level new = default (c_level old) (cu_level b)
    ∧ c_path new = default (c_path old) (cu_path b)
    ∧ c_slug new = from_option Js.toLowerCase (c_slug old) (cu_slug b)
    ∧ c_name new = from_option Js.trim (c_name old) (cu_name b).
Proof.
  intros out Hsuccess. subst out.
  destruct (route_updateCategory_writes st cl user id b now duration)
    as [_ [[_ Hfail] | (i & old & w & b' & _ & Hcats & Hid & Hold & Hval & Hw & _)]];
    [congruence|].
  exists i, old, (Category_findByIdAndUpdate w old).
  apply updateCategoryValidation_Some in Hval.
  apply castUpdate_Some in Hw as (Hwn & Hws & Hwl & Hwp & _ & Hwparent).
  rewrite Hval in Hwn, Hws, Hwl, Hwp, Hwparent. simpl in *.
  rewrite Hwn, Hws, Hwl, Hwp.
  repeat split; try done.
  - destruct (cu_parent b) as [t|].
    + destruct Hwparent as (p & -> & ->). done.
    + by rewrite Hwparent.
  - by destruct (cu_slug b).
  - destruct (cu_name b) as [n|]; simpl; [|done]. apply trim_idemp.
Qed.

End PlacementFacts.

Lemma builtTree_createAs u b st :
  @builtTree demoIds st → @builtTree demoIds (createAs u b st).
Proof. apply builtTree_create. Qed.

Lemma builtTree_rename u id name st :
  @builtTree demoIds st → @builtTree demoIds (updateAs u id (rename name) st).
Proof. intros Hst. by apply builtTree_update. Qed.

Lemma update_rederives_nothing_witness :
  ∃ new,
    categories movedTree !! (101 : ObjectId) = Some new
    ∧ c_parent new = Some 100
    ∧ c_level new = 0
    ∧ c_path new = "legal"
    ∧ placedAsSpecified (categories movedTree) new = false.
Proof.
  destruct (@update_rederives_nothing demoIds
              (createAs alice (newCategory "Legal" None)
                 (createAs alice (newCategory "Finance" None) emptyDB))
              browser alice (idOf 101) (moveUnder (idOf 100)) 5000 12)
    as (i & old & new & Hid & Hold & Hcats & Hparent & Hlevel & Hpath & _).
  { vm_compute. reflexivity. }
  vm_compute in Hid. injection Hid as <-.
  vm_compute in Hold. injection Hold as <-.
  assert (c_parent new = Some 100) as Hparent'
    by (rewrite Hparent; vm_compute; reflexivity).
  assert (c_level new = 0) as Hlevel' by (rewrite Hlevel; reflexivity).
  assert (c_path new = "legal") as Hpath' by (rewrite Hpath; reflexivity).
  clear Hparent Hlevel Hpath.
  exists new. unfold movedTree, updateAs, placedAsSpecified.
  rewrite Hcats, lookup_insert_eq, Hparent', Hlevel', Hpath'.
  rewrite lookup_insert_ne by done.
  repeat split; vm_compute; reflexivity.
Defined.

(** The specification's placement fails in a second way, which the save
    hook writes out: a child created under a category whose path is empty
    gets its slug as path, without the slash. *)
Lemma category_placement_not_as_specified :
  (∃ c, categories punctuationTree !! (101 : ObjectId) = Some c
        ∧ c_parent c = Some 100
        ∧ c_path c = "reports"
        ∧ placedAsSpecified (categories punctuationTree) c = false)
  ∧ (∃ c, categories movedTree !! (101 : ObjectId) = Some c
          ∧ c_parent c = Some 100
          ∧ c_level c = 0
          ∧ c_path c = "legal"
          ∧ placedAsSpecified (categories movedTree) c = false).
Proof.
  split; eexists; (split; [vm_compute; reflexivity|]); repeat split;
    vm_compute; reflexivity.
Qed.

(* ===================================================================== *)
(** * Further properties of the code *)
(* ===================================================================== *)

(* --------------------------------------------------------------------- *)
(** ** The audit middleware *)
(* --------------------------------------------------------------------- *)

Lemma withDefault_nonEmpty o d : d ≠ "" → withDefault o d ≠ "".
Proof.
  intros Hd. unfold withDefault, Js.or_else.
  destruct o as [[|c s]|]; simpl; done.
Qed.

(** X1: without [req.user] the middleware writes nothing, for every action,
    the two that its first guard exempts (login, user_create) included, and
    for every response. *)
Theorem auditLog_without_user_silent action resource cl params_id body_id
    captured now duration log :
  auditLog action resource (request cl None params_id body_id) captured now
           duration log = log.
Proof. unfold auditLog. by rewrite auditLog_finish_no_user. Qed.

(** X2: with [req.user] set, what the middleware writes is decided by the
    first truthy one of [req.params.id] and [req.body.id].  When that is a
    value that is no ObjectId, nothing is written.  Otherwise exactly one
    entry is appended: it carries the user, the action and the resource
    kind of the route; its resource id is that value, or the id of the user
    when neither is truthy; its status is failure from status code 400 on
    and success below, and it carries the error of the response only on
    failure. *)
Theorem auditLog_with_user_appends_one action resource cl user params_id body_id
    captured now duration log :
  let code := from_option statusCode 200 captured in
  let after :=
    auditLog action resource (requestOf cl (Some user) params_id body_id) captured
             now duration log in
  match firstTruthy params_id body_id with
  | Some id_uncastable => after = log
  | chosen =>
      ∃ entry,
        after = log ++ [entry]
        ∧ al_user entry = u_id user
        ∧ al_action entry = action
        ∧ al_resource entry = resource
        ∧ al_resourceId entry
          = match chosen with Some (id_cast i) => i | _ => u_id user end
        ∧ al_status entry = (if 400 <=? code then audit_failure else audit_success)
        ∧ al_errorMessage entry = (if 400 <=? code then captured ≫= error else None)
        ∧ al_timestamp entry = now
        ∧ al_duration entry = duration
  end.
Proof.
  intros code after. subst after.
  unfold auditLog, auditLog_finish, logAction.
  destruct params_id as [[i| |]|], body_id as [[j| |]|]; simpl; try done;
    rewrite (bool_decide_eq_false_2 (withDefault _ "127.0.0.1" = ""))
      by (by apply withDefault_nonEmpty);
    rewrite (bool_decide_eq_false_2 (withDefault _ "Unknown" = ""))
      by (by apply withDefault_nonEmpty);
    simpl; (eexists; split; [reflexivity|]); simpl; fold code;
    repeat split; destruct (400 <=? code), captured; done.
Qed.

(* --------------------------------------------------------------------- *)
(** ** [protect] and [checkOwnership] *)
(* --------------------------------------------------------------------- *)

Section GateFacts.
Context {jwt : Jwt}.

(** X3: [protect] lets a request through exactly when its header carries,
    after [Bearer], a non-empty token that verifies to the id of a user who
    is in the collection and active, and it passes on that user's record;
    every other request is answered 401. *)
Theorem protect_passes_iff (users : gmap ObjectId User) authorization :
  (∀ user,
     protect users authorization = Next user
     ↔ ∃ token decoded,
         bearerToken authorization = Some token
         ∧ token ≠ ""
         ∧ jwt_verify token = Some decoded
         ∧ users !! jwt_id decoded = Some user
         ∧ u_isActive user = true)
  ∧ (∀ r, protect users authorization = Reply r →
          statusCode r = 401 ∧ success r = false).
Proof.
  unfold protect. split.
  - intros user. split.
    + intros Hp.
      destruct (bearerToken authorization) as [[|c t]|] eqn:Htok; try discriminate.
      destruct (jwt_verify (String c t)) as [decoded|] eqn:Hv; try discriminate.
      destruct (users !! jwt_id decoded) as [u|] eqn:Hu; try discriminate.
      destruct (u_isActive u) eqn:Ha; simpl in Hp; try discriminate.
      injection Hp as <-. by exists (String c t), decoded.
    + intros (token & decoded & -> & Hne & Hv & Hu & Ha).
      destruct token as [|c t]; [done|]. by rewrite Hv, Hu, Ha.
  - intros r.
    destruct (bearerToken authorization) as [[|c t]|]; try by intros [= <-].
    destruct (jwt_verify (String c t)) as [decoded|]; try by intros [= <-].
    destruct (users !! jwt_id decoded) as [u|]; try by intros [= <-].
    destruct (u_isActive u); simpl; [done|]. by intros [= <-].
Qed.

End GateFacts.

(** X4: what [checkOwnership] answers, case by case.  For a missing
    document it is 404, whoever asks.  For a stored document it hands that
    document on when the actor is admin, manager, its uploader or in its
    read list, and answers 403 to everybody else.  It never looks at the
    deleted flag: a soft-deleted document is handed on or refused like the
    document it was. *)
Theorem checkOwnership_allows_iff (documents : gmap ObjectId Document) user id :
  match documents !! id with
  | None =>
      checkOwnership documents user id = Reply (jsonError 404 "Resource not found")
  | Some doc =>
      let entitled :=
        u_role user = role_admin ∨ u_role user = role_manager
        ∨ d_uploadedBy doc = u_id user
        ∨ u_id user ∈ p_read (d_permissions doc) in
      (entitled → checkOwnership documents user id = Next doc)
      ∧ (¬ entitled →
         checkOwnership documents user id
         = Reply (jsonError 403 "Not authorized to access this resource"))
      ∧ (allowed (checkOwnership documents user id) = true ↔ entitled)
      ∧ ∀ deletedAt deletedBy,
          let deleted := set_deleted deletedAt deletedBy doc in
          checkOwnership (<[id := deleted]> documents) user id
          = match checkOwnership documents user id with
            | Next _ => Next deleted
            | Reply r => Reply r
            end
  end.
Proof.
  assert (∀ docs doc, docs !! id = Some doc →
            ((u_role user = role_admin ∨ u_role user = role_manager
              ∨ d_uploadedBy doc = u_id user
              ∨ u_id user ∈ p_read (d_permissions doc)) →
             checkOwnership docs user id = Next doc)
            ∧ (¬ (u_role user = role_admin ∨ u_role user = role_manager
                  ∨ d_uploadedBy doc = u_id user
                  ∨ u_id user ∈ p_read (d_permissions doc)) →
               checkOwnership docs user id
               = Reply (jsonError 403 "Not authorized to access this resource")))
    as Hdec.
  { intros docs doc Hdoc. unfold checkOwnership, hasPermission. rewrite Hdoc.
    destruct (decide (u_role user = role_admin ∨ u_role user = role_manager))
      as [Hr|Hr]; [split; [done|tauto]|].
    destruct (decide (d_uploadedBy doc = u_id user)) as [Ho|Ho];
      [split; [done|tauto]|].
    simpl.
    destruct (bool_decide_reflect (u_id user ∈ p_read (d_permissions doc)));
      simpl; split; try done; tauto. }
  destruct (documents !! id) as [doc|] eqn:Hdoc;
    [|unfold checkOwnership; by rewrite Hdoc].
  intros entitled.
  destruct (Hdec documents doc Hdoc) as [Hyes Hno].
  split; [exact Hyes|]. split; [exact Hno|].
  assert (Decision entitled) as Hdecide.
  { subst entitled. apply _. }
  split.
  - destruct Hdecide as [He|He].
    + rewrite (Hyes He). by split.
    + rewrite (Hno He). by split.
  - intros deletedAt deletedBy deleted.
    destruct (Hdec (<[id := deleted]> documents) deleted) as [Hyes' Hno'];
      [apply lookup_insert_eq|].
    destruct Hdecide as [He|He].
    + rewrite (Hyes He). by apply Hyes'.
    + rewrite (Hno He). by apply Hno'.
Qed.

(* --------------------------------------------------------------------- *)
(** ** Categories: deletion, cycles, the full path, slugs *)
(* --------------------------------------------------------------------- *)

Lemma Category_preSave_isActive cats m this :
  c_isActive (Category_preSave cats m this) = c_isActive this.
Proof.
  unfold Category_preSave.
  destruct (m || _); simpl; destruct (c_parent this); simpl;
    try destruct (cats !! _); done.
Qed.

Lemma Category_preSave_name cats m this :
  c_name (Category_preSave cats m this) = c_name this.
Proof.
  unfold Category_preSave.
  destruct (m || _); simpl; destruct (c_parent this); simpl;
    try destruct (cats !! _); done.
Qed.

Lemma liveDocuments_nil documents category :
  liveDocuments documents category = [] →
  ∀ did d, documents !! did = Some d → d_category d = category →
           d_isDeleted d = true.
Proof.
  intros Hnil did d Hd Hcat.
  destruct (d_isDeleted d) eqn:Hdel; [done|].
  assert (d ∈ liveDocuments documents category) as Hin; [|by rewrite Hnil in Hin; set_solver].
  unfold liveDocuments. apply list_elem_of_In, filter_In. split.
  - apply list_elem_of_In, list_elem_of_fmap. exists (did, d).
    split; [done|]. by apply elem_of_map_to_list.
  - rewrite Hdel. by rewrite bool_decide_eq_true_2.
Qed.

Lemma activeChildren_nil cats parent :
  activeChildren cats parent = [] →
  ∀ cid c, cats !! cid = Some c → c_parent c = Some parent →
           c_isActive c = false.
Proof.
  intros Hnil cid c Hc Hp.
  destruct (c_isActive c) eqn:Hact; [|done].
  assert (c ∈ activeChildren cats parent) as Hin; [|by rewrite Hnil in Hin; set_solver].
  unfold activeChildren. apply list_elem_of_In, filter_In. split.
  - apply list_elem_of_In, list_elem_of_fmap. exists (cid, c).
    split; [done|]. by apply elem_of_map_to_list.
  - rewrite Hact. by rewrite bool_decide_eq_true_2.
Qed.

(** X5: DELETE /api/categories/:id never deactivates a category that still
    has a document not marked deleted or an active child: when it succeeds,
    the actor is admin, every document of the category is marked deleted,
    every child is inactive, and the category is stored inactive; documents
    are never touched; and when it fails, the categories are as before. *)
Theorem category_deleted_only_when_empty st cl user id now duration :
  let out := route_deleteCategory st cl user id now duration in
  documents out.2 = documents st
  ∧ (success out.1 = false → categories out.2 = categories st)
  ∧ (success out.1 = true →
     u_role user = role_admin
     ∧ (∀ did d, documents st !! did = Some d → d_category d = id →
                 d_isDeleted d = true)
     ∧ (∀ cid c, categories st !! cid = Some c → c_parent c = Some id →
                 c_isActive c = false)
     ∧ ∃ old new, categories st !! id = Some old
                  ∧ categories out.2 !! c_id old = Some new
                  ∧ c_isActive new = false
                  ∧ c_name new = c_name old).
Proof.
  intros out. subst out. unfold route_deleteCategory, authorize.
  destruct (bool_decide_reflect (u_role user ∈ [role_admin])) as [Hrole|Hrole];
    [|by repeat split].
  assert (u_role user = role_admin) as Hadmin.
  { by apply list_elem_of_singleton in Hrole. }
  unfold audited, deleteCategory. simpl.
  destruct (categories st !! id) as [old|] eqn:Hold; [|by repeat split].
  destruct (liveDocuments (documents st) id) as [|d0 l0] eqn:Hdocs;
    [|by repeat split].
  destruct (activeChildren (categories st) id) as [|c0 l1] eqn:Hch;
    [|by repeat split].
  simpl.
  destruct (Category_valid (set_c_isActive false old)); [|by repeat split].
  simpl. split; [done|]. split; [done|]. intros _.
  split; [done|].
  split; [by apply liveDocuments_nil|].
  split; [by apply activeChildren_nil|].
  exists old. eexists. split; [done|]. unfold Category_save.
  change (c_id (set_c_isActive false old)) with (c_id old).
  split; [apply lookup_insert_eq|].
  by rewrite Category_preSave_isActive, Category_preSave_name.
Qed.

(** The route on a body that names a parent and nothing else. *)
Lemma route_updateCategory_move {ids : MongoIds} st cl user ta tp a p A P now
    duration :
  u_role user ∈ [role_admin; role_manager] →
  castObjectId ta = Some a →
  castObjectId tp = Some p →
  isMongoId tp = true →
  categories st !! a = Some A →
  categories st !! p = Some P →
  tp ≠ ta →
  let out := route_updateCategory st cl user ta (moveUnder tp) now duration in
  out.1 = jsonOk 200 "Category updated successfully"
  ∧ ∃ A', categories out.2 = <[a := A']> (categories st)
          ∧ c_parent A' = Some p
          ∧ c_name A' = c_name A
          ∧ c_slug A' = c_slug A
          ∧ c_level A' = c_level A
          ∧ c_path A' = c_path A.
Proof.
  intros Hrole Hta Htp Hmongo HA HP Hne out. subst out.
  unfold route_updateCategory. rewrite (authorize_Next _ _ Hrole).
  unfold updateCategoryValidation. cbn [moveUnder cu_name cu_parent cu_maxFileSize
    fmap option_fmap option_map optional]. rewrite Hmongo. simpl.
  unfold audited, updateCategory, castUpdate, castField. simpl.
  rewrite Hta, HA, Htp. simpl. rewrite HP.
  rewrite (bool_decide_eq_false_2 (Some tp = Some ta)) by congruence.
  destruct tp as [|c tp]; simpl; (split; [done|]); eexists;
    (split; [done|]); done.
Qed.

(** X6: PUT /api/categories/:id compares the parent that the body names
    with the route parameter as texts.  It answers 400 when the two texts
    are the same.  When they differ it answers 200 and stores the new
    parent, with the level and the path as they were, whatever the new
    parent is: a child of the category, after which the two are each
    other's parent, or the category itself under another spelling of its
    id, after which it is its own parent. *)
Theorem update_parent_check_compares_texts {ids : MongoIds} st cl user ta tp a p A P
    now duration :
  u_role user ∈ [role_admin; role_manager] →
  castObjectId ta = Some a →
  castObjectId tp = Some p →
  isMongoId tp = true →
  tp ≠ "" →
  categories st !! a = Some A →
  categories st !! p = Some P →
  let out := route_updateCategory st cl user ta (moveUnder tp) now duration in
  if bool_decide (tp = ta)
  then out.1 = jsonError 400 "Category cannot be its own parent"
       ∧ categories out.2 = categories st
  else out.1 = jsonOk 200 "Category updated successfully"
       ∧ ∃ A', categories out.2 = <[a := A']> (categories st)
               ∧ c_parent A' = Some p
               ∧ c_name A' = c_name A
               ∧ c_level A' = c_level A
               ∧ c_path A' = c_path A.
Proof.
  intros Hrole Hta Htp Hmongo Hfilled HA HP out.
  destruct (bool_decide_reflect (tp = ta)) as [->|Hne].
  - subst out. unfold route_updateCategory. rewrite (authorize_Next _ _ Hrole).
    unfold updateCategoryValidation. cbn [moveUnder cu_name cu_parent cu_maxFileSize
      fmap option_fmap option_map optional]. rewrite Hmongo. simpl.
    unfold audited, updateCategory. simpl. rewrite Hta, HA.
    destruct ta as [|c ta]; [done|]. simpl.
    by rewrite bool_decide_eq_true_2.
  - destruct (route_updateCategory_move st cl user ta tp a p A P now duration)
      as (Hok & A' & Hcats & Hp & Hn & _ & Hl & Hpa); try done.
    split; [done|]. by exists A'.
Qed.

Lemma getFullPath_acc cats rounds c acc :
  getFullPath cats rounds c acc = (λ names, names ++ acc) <$> getFullPath cats rounds c [].
Proof.
  revert c acc. induction rounds as [|rounds IH]; intros c acc; [done|].
  simpl. destruct (c_parent c) as [p|]; [|done].
  destruct (cats !! p) as [P|]; [|done].
  rewrite (IH P (c_name c :: acc)), (IH P [c_name c]).
  destruct (getFullPath cats rounds P []) as [names|]; simpl; [|done].
  by rewrite <- app_assoc.
Qed.

(** X29: the placement that the save hook computes holds of every category
    after any sequence of creations and of updates whose body names none
    of parent, slug, level and path: a category without a parent has level
    0 and its slug as path; a category with a parent has the parent's
    level plus one and, as path, the parent's path, a slash and its slug,
    or its slug alone when the parent's path is empty. *)
Theorem created_categories_well_placed {ids : MongoIds} st id c :
  builtTree st →
  categories st !! id = Some c →
  match c_parent c with
  | Some p =>
      ∃ P, categories st !! p = Some P
           ∧ c_level c = c_level P + 1
           ∧ c_path c = (if bool_decide (c_path P = "") then c_slug c
                         else c_path P +:+ "/" +:+ c_slug c)
  | None => c_path c = c_slug c ∧ c_level c = 0
  end.
Proof. intros Hst Hc. by apply (builtTree_placed st id c). Qed.

Lemma created_categories_well_placed_witness :
  (∃ P, categories createdTree !! (100 : ObjectId) = Some P
        ∧ c_level invoices = c_level P + 1
        ∧ c_path invoices = c_path P +:+ "/" +:+ c_slug invoices)
  ∧ (∃ c P, categories punctuationTree !! (101 : ObjectId) = Some c
            ∧ categories punctuationTree !! (100 : ObjectId) = Some P
            ∧ c_path P = ""
            ∧ c_level c = c_level P + 1
            ∧ c_path c = c_slug c).
Proof.
  split.
  - destruct (@created_categories_well_placed demoIds createdTree 101 invoices)
      as (P & HP & Hl & Hp).
    + apply builtTree_rename. do 2 apply builtTree_createAs.
      by apply (@builtTree_init demoIds).
    + vm_compute. reflexivity.
    + exists P. split; [exact HP|]. split; [exact Hl|].
      rewrite Hp. apply Some_inj in HP. rewrite <- HP. vm_compute. reflexivity.
  - pose proof (@created_categories_well_placed demoIds punctuationTree 101
                  (mkCategory 101 "Reports" "reports" (Some 100) 1 "reports" []
                              defaultMaxFileSize true 0 true 1)) as H.
    destruct H as (P & HP & Hl & Hp).
    + do 2 apply builtTree_createAs. by apply (@builtTree_init demoIds).
    + vm_compute. reflexivity.
    + eexists _, P. split; [vm_compute; reflexivity|]. split; [exact HP|].
      split; [|split; [exact Hl|reflexivity]].
      apply Some_inj in HP. rewrite <- HP. vm_compute. reflexivity.
Defined.

(** In a built tree the walk from a category ends within its level plus
    one rounds. *)
Lemma getFullPath_ends {ids : MongoIds} st n :
  builtTree st →
  ∀ id c, categories st !! id = Some c → N.to_nat (c_level c) = n →
          is_Some (getFullPath (categories st) (S n) c []).
Proof.
  intros Hst. induction n as [|n IH]; intros id c Hc Hn.
  - pose proof (builtTree_placed st id c Hst Hc) as Hwp.
    unfold wellPlaced in Hwp. simpl.
    destruct (c_parent c) as [p|]; [|by eexists].
    destruct Hwp as (P & HP & Hl & _). lia.
  - pose proof (builtTree_placed st id c Hst Hc) as Hwp.
    unfold wellPlaced in Hwp.
    change (getFullPath (categories st) (S (S n)) c [])
      with (match c_parent c with
            | Some p =>
                match categories st !! p with
                | Some parent => getFullPath (categories st) (S n) parent [c_name c]
                | None => Some [c_name c]
                end
            | None => Some [c_name c]
            end).
    destruct (c_parent c) as [p|]; [|by eexists].
    destruct Hwp as (P & HP & Hl & _). rewrite HP.
    rewrite getFullPath_acc.
    destruct (IH p P HP) as [names ->]; [lia|]. by eexists.
Qed.

(** X7: in a tree built by creations and by updates whose body names none
    of parent, slug, level and path, [getFullPath] ends within level plus
    one rounds: for a root it gives the name alone, and for a child the
    full path of its parent followed by its own name. *)
Theorem getFullPath_of_built_tree {ids : MongoIds} st id c :
  builtTree st →
  categories st !! id = Some c →
  match c_parent c with
  | None =>
      getFullPath (categories st) (S (N.to_nat (c_level c))) c [] = Some [c_name c]
  | Some p =>
      ∃ P names,
        categories st !! p = Some P
        ∧ getFullPath (categories st) (S (N.to_nat (c_level P))) P [] = Some names
        ∧ getFullPath (categories st) (S (N.to_nat (c_level c))) c []
          = Some (names ++ [c_name c])
  end.
Proof.
  intros Hst Hc.
  pose proof (builtTree_placed st id c Hst Hc) as Hwp. unfold wellPlaced in Hwp.
  destruct (c_parent c) as [p|] eqn:Hp.
  - destruct Hwp as (P & HP & Hl & _).
    destruct (getFullPath_ends st _ Hst p P HP eq_refl) as [names Hnames].
    exists P, names. split; [done|]. split; [done|].
    replace (N.to_nat (c_level c)) with (S (N.to_nat (c_level P))) by lia.
    change (getFullPath (categories st) (S (S (N.to_nat (c_level P)))) c [])
      with (match c_parent c with
            | Some p =>
                match categories st !! p with
                | Some parent =>
                    getFullPath (categories st) (S (N.to_nat (c_level P))) parent
                                [c_name c]
                | None => Some [c_name c]
                end
            | None => Some [c_name c]
            end).
    rewrite Hp, HP, getFullPath_acc, Hnames. done.
  - simpl. by rewrite Hp.
Qed.

(** X8: on two categories that are each other's parent the walk of
    [getFullPath] does not end, however many rounds it is given. *)
Theorem getFullPath_loops_on_cycle (cats : gmap ObjectId Category) a b A B rounds acc :
  cats !! a = Some A →
  cats !! b = Some B →
  c_parent A = Some b →
  c_parent B = Some a →
  getFullPath cats rounds A acc = None ∧ getFullPath cats rounds B acc = None.
Proof.
  intros HA HB HpA HpB. revert acc.
  induction rounds as [|rounds IH]; intros acc; [done|].
  simpl. rewrite HpA, HpB, HA, HB.
  split; apply IH.
Qed.

Lemma slugTaken_true cats self s :
  slugTaken cats self s = true →
  ∃ id c, cats !! id = Some c ∧ c_slug c = s ∧ id ≠ self.
Proof.
  unfold slugTaken. rewrite existsb_exists.
  intros ([id c] & Hin & Hkv). exists id, c.
  apply andb_true_iff in Hkv as [Hslug Hne]. simpl in *.
  apply bool_decide_eq_true in Hslug.
  apply negb_true_iff, bool_decide_eq_false in Hne.
  split; [|done]. by apply elem_of_map_to_list, list_elem_of_In.
Qed.

Lemma createCategory_success st user b :
  success (createCategory st user b).1 = true →
  ∃ this,
    c_id this = nextId st
    ∧ c_name this = Js.trim (cb_name b)
    ∧ categories (createCategory st user b).2
      = <[nextId st := Category_preSave (categories st) true this]> (categories st).
Proof.
  unfold createCategory.
  match goal with
  | |- context [Category_save (categories st) true ?t] => set (this := t)
  end.
  intros Hok. exists this. split; [done|]. split; [done|]. revert Hok.
  destruct (cb_parent b) as [p|];
    [destruct (categories st !! p); [|done]|];
    by destruct (Category_valid this).
Qed.

(** X10: a category that POST /api/categories creates gets, as slug, the
    first of the candidates [base], [base-1], [base-2], ... that no category
    has, where [base] is derived from the trimmed name: every earlier
    candidate is the slug of a category, and no category had the new slug. *)
Theorem created_slug_first_free st cl user b now duration :
  categories st !! nextId st = None →
  success (route_createCategory st cl user b now duration).1 = true →
  let st' := (route_createCategory st cl user b now duration).2 in
  let base := baseSlug (Js.trim (cb_name b)) in
  ∃ new j,
    categories st' !! nextId st = Some new
    ∧ c_name new = Js.trim (cb_name b)
    ∧ c_slug new = cand base j
    ∧ (∀ i, (i < j)%nat →
            ∃ id c, categories st !! id = Some c ∧ c_slug c = cand base i)
    ∧ (∀ id c, categories st !! id = Some c → c_slug c ≠ c_slug new).
Proof.
  intros Hfresh. unfold route_createCategory.
  destruct (authorize _ user) as [[]|r] eqn:Hauth;
    [|intros Hs; apply authorize_Reply_fails in Hauth; simpl in Hs; congruence].
  unfold createCategoryValidation.
  destruct (_ && _); [|done].
  set (b' := mkCategoryBody _ _ _ _ _ _).
  unfold audited. cbn [fst snd categories set_auditLogs].
  intros (this & Hid & Hname & ->)%createCategory_success.
  assert (c_name this = Js.trim (cb_name b)) as Hname'.
  { rewrite Hname. subst b'. simpl. apply trim_idemp. }
  destruct (uniqueSlug_free (categories st) (nextId st) (baseSlug (c_name this)))
    as (j & Hslug & Hbefore & Hfree).
  assert (c_slug (Category_preSave (categories st) true this)
          = cand (baseSlug (Js.trim (cb_name b))) j) as Hnew.
  { by rewrite Category_preSave_new_slug, Hid, Hslug, Hname'. }
  exists (Category_preSave (categories st) true this), j.
  split; [apply lookup_insert_eq|].
  split; [by rewrite Category_preSave_name|].
  split; [exact Hnew|]. split.
  - intros i Hi. destruct (slugTaken_true _ _ _ (Hbefore i Hi))
      as (id & c & Hc & Hs & _).
    exists id, c. by rewrite <- Hname'.
  - intros id c Hc. rewrite Hnew, <- Hname'.
    eapply slugTaken_false; [exact Hfree|exact Hc|].
    intros ->. congruence.
Qed.

Lemma update_parent_check_compares_texts_witness :
  ((@route_updateCategory demoIds twoLevels browser alice (idOf 100)
      (moveUnder (idOf 101)) 5000 12).1
   = jsonOk 200 "Category updated successfully"
   ∧ ∃ A', categories cycleTree !! (100 : ObjectId) = Some A'
           ∧ c_parent A' = Some 101 ∧ c_level A' = 0 ∧ c_path A' = "finance")
  ∧ ((@route_updateCategory demoIds letteredRoot browser alice (idOf 170)
        (moveUnder (idOf 170)) 5000 12).1
     = jsonError 400 "Category cannot be its own parent")
  ∧ ((@route_updateCategory demoIds letteredRoot browser alice (idOf 170)
        (moveUnder inCapitals170) 5000 12).1
     = jsonOk 200 "Category updated successfully"
     ∧ ∃ A', categories
               (@route_updateCategory demoIds letteredRoot browser alice (idOf 170)
                  (moveUnder inCapitals170) 5000 12).2 !! (170 : ObjectId)
             = Some A'
             ∧ c_parent A' = Some 170).
Proof.
  assert (u_role alice ∈ [role_admin; role_manager]) as Hrole
    by (apply (bool_decide_unpack _); vm_compute; exact I).
  split; [|split].
  - pose proof (@update_parent_check_compares_texts demoIds twoLevels browser alice
                  (idOf 100) (idOf 101) 100 101
                  (mkCategory 100 "Finance" "finance" None 0 "finance" []
                              defaultMaxFileSize true 0 true 1)
                  invoices 5000 12 Hrole eq_refl eq_refl eq_refl) as H.
    destruct H as (Hok & A' & Hcats & Hp & _ & Hl & Hpa).
    + discriminate.
    + vm_compute. reflexivity.
    + vm_compute. reflexivity.
    + split; [exact Hok|]. exists A'. unfold cycleTree, updateAs.
      rewrite Hcats, lookup_insert_eq. by rewrite Hp, Hl, Hpa.
  - pose proof (@update_parent_check_compares_texts demoIds letteredRoot browser alice
                  (idOf 170) (idOf 170) 170 170
                  (mkCategory 170 "Finance" "finance" None 0 "finance" []
                              defaultMaxFileSize true 0 true 1)
                  (mkCategory 170 "Finance" "finance" None 0 "finance" []
                              defaultMaxFileSize true 0 true 1)
                  5000 12 Hrole eq_refl eq_refl eq_refl) as H.
    destruct H as (Hno & _).
    + discriminate.
    + vm_compute. reflexivity.
    + vm_compute. reflexivity.
    + exact Hno.
  - pose proof (@update_parent_check_compares_texts demoIds letteredRoot browser alice
                  (idOf 170) inCapitals170 170 170
                  (mkCategory 170 "Finance" "finance" None 0 "finance" []
                              defaultMaxFileSize true 0 true 1)
                  (mkCategory 170 "Finance" "finance" None 0 "finance" []
                              defaultMaxFileSize true 0 true 1)
                  5000 12 Hrole eq_refl eq_refl eq_refl) as H.
    destruct H as (Hok & A' & Hcats & Hp & _).
    + discriminate.
    + vm_compute. reflexivity.
    + vm_compute. reflexivity.
    + split; [exact Hok|]. exists A'. by rewrite Hcats, lookup_insert_eq.
Defined.

Lemma getFullPath_of_built_tree_witness :
  ∃ P names,
    categories createdTree !! (100 : ObjectId) = Some P
    ∧ getFullPath (categories createdTree) (S (N.to_nat (c_level P))) P [] = Some names
    ∧ getFullPath (categories createdTree) (S (N.to_nat (c_level invoices))) invoices []
      = Some (names ++ [c_name invoices]).
Proof.
  apply (@getFullPath_of_built_tree demoIds createdTree 101 invoices).
  - apply builtTree_rename. do 2 apply builtTree_createAs. by apply (@builtTree_init demoIds).
  - vm_compute. reflexivity.
Defined.

Lemma getFullPath_loops_on_cycle_witness :
  ∃ A B,
    categories cycleTree !! (100 : ObjectId) = Some A
    ∧ categories cycleTree !! (101 : ObjectId) = Some B
    ∧ getFullPath (categories cycleTree) 1000 A [] = None
    ∧ getFullPath (categories cycleTree) 1000 B [] = None.
Proof.
  exists (mkCategory 100 "Finance" "finance" (Some 101) 0 "finance" []
                     defaultMaxFileSize true 0 true 1), invoices.
  split; [vm_compute; reflexivity|]. split; [vm_compute; reflexivity|].
  apply (getFullPath_loops_on_cycle (categories cycleTree) 100 101); 
    vm_compute; reflexivity.
Defined.

Lemma created_slug_first_free_witness :
  ∃ new j,
    categories (route_createCategory oneRoot browser alice
                  (newCategory " Finance " None) 5000 12).2 !! nextId oneRoot
    = Some new
    ∧ c_name new = Js.trim " Finance "
    ∧ c_slug new = cand (baseSlug (Js.trim " Finance ")) j
    ∧ (∀ i, (i < j)%nat →
            ∃ id c, categories oneRoot !! id = Some c
                    ∧ c_slug c = cand (baseSlug (Js.trim " Finance ")) i)
    ∧ (∀ id c, categories oneRoot !! id = Some c → c_slug c ≠ c_slug new).
Proof.
  apply (created_slug_first_free oneRoot browser alice
           (newCategory " Finance " None) 5000 12); vm_compute; reflexivity.
Defined.

(** X9: after any sequence of category creations and category updates,
    whatever their bodies, two different categories never have the same
    slug: the save hook gives a new category the first free candidate, and
    an update that names a slug, stored in lower case, is refused by the
    unique index when another category has it. *)
Theorem distinct_categories_distinct_slugs {ids : MongoIds} st id1 id2 c1 c2 :
  servedTree st →
  categories st !! id1 = Some c1 →
  categories st !! id2 = Some c2 →
  id1 ≠ id2 →
  c_slug c1 ≠ c_slug c2.
Proof.
  intros Hst H1 H2 Hne Heq. apply Hne.
  by apply (served_slugs_unique st id1 id2 c1 c2).
Qed.

Lemma distinct_categories_distinct_slugs_witness :
  (@route_updateCategory demoIds createdTree browser alice (idOf 101)
     (reslug "FINANCE") 5000 12).1
  = jsonError 400 "Category with this name already exists"
  ∧ ∃ c, categories takenSlugTree !! (100 : ObjectId) = Some c
         ∧ c_slug c ≠ c_slug invoices.
Proof.
  split; [vm_compute; reflexivity|].
  exists (mkCategory 100 "Finance and Tax" "finance" None 0 "finance" []
                     defaultMaxFileSize true 0 true 1).
  assert (categories takenSlugTree !! (100 : ObjectId)
          = Some (mkCategory 100 "Finance and Tax" "finance" None 0 "finance" []
                             defaultMaxFileSize true 0 true 1)) as Hc
    by (vm_compute; reflexivity).
  split; [exact Hc|].
  apply (@distinct_categories_distinct_slugs demoIds takenSlugTree 100 101 _ invoices).
  - do 2 apply (@servedTree_update demoIds). do 2 apply (@servedTree_create demoIds).
    by apply (@servedTree_init demoIds).
  - exact Hc.
  - vm_compute. reflexivity.
  - done.
Defined.

(* --------------------------------------------------------------------- *)
(** ** Uploads: what a refused and what an accepted upload leave behind *)
(* --------------------------------------------------------------------- *)

Lemma Category_preSave_documentCount cats m this :
  c_documentCount (Category_preSave cats m this) = c_documentCount this.
Proof.
  unfold Category_preSave.
  destruct (m || _); simpl; destruct (c_parent this); simpl;
    try destruct (cats !! _); done.
Qed.

Lemma Document_preSave_fields m now d :
  let d' := Document_preSave m now d in
  d_id d' = d_id d ∧ d_category d' = d_category d
  ∧ d_uploadedBy d' = d_uploadedBy d ∧ d_version d' = d_version d
  ∧ d_fileName d' = d_fileName d
  ∧ d_filePath d' = d_filePath d ∧ d_originalName d' = d_originalName d
  ∧ d_mimeType d' = d_mimeType d ∧ d_fileSize d' = d_fileSize d
  ∧ d_fileExtension d' = d_fileExtension d ∧ d_permissions d' = d_permissions d
  ∧ d_isDeleted d' = d_isDeleted d ∧ d_deletedAt d' = d_deletedAt d
  ∧ d_deletedBy d' = d_deletedBy d.
Proof. unfold Document_preSave. by destruct (_ && _). Qed.

Lemma DocumentVersion_valid_of_document d id n size checksum uploader :
  Document_valid d = true →
  checksum ≠ "" →
  DocumentVersion_valid
    (mkDocumentVersion id n (d_fileName d) (d_originalName d) (d_filePath d) size
                       (d_mimeType d) checksum uploader) = true.
Proof.
  unfold Document_valid, DocumentVersion_valid. simpl. intros Hvalid Hsum.
  repeat (apply andb_true_iff in Hvalid as [Hvalid ?]).
  repeat (apply andb_true_iff; split); try done.
  unfold nonEmpty. by rewrite bool_decide_eq_false_2.
Qed.

Section UploadOutcomes.
Context {crypto : Sha256}.

(** The two ways the handler of POST /api/documents ends, when the digest
    is never the empty string: with the document, its first version and
    the category's counter written, or with nothing but the temporary file
    removed. *)
Lemma uploadDocument_outcome st user f b now :
  let out := uploadDocument st user f b now in
  match out.1 with
  | exit_created doc =>
      ∃ c content,
        categories st !! ub_category b = Some c
        ∧ (files st !! f_path f) = Some content
        ∧ (c_allowedFileTypes c = []
           ∨ fileExtensionOf (f_originalname f) ∈ c_allowedFileTypes c)
        ∧ f_size f ≤ c_maxFileSize c
        ∧ doc = newDocument (nextId st) user b (getFileMetadata f) c now
        ∧ documents out.2 = <[nextId st := doc]> (documents st)
        ∧ versions out.2
          = versions st ++ [mkDocumentVersion (nextId st) 1 (f_filename f)
                              (f_originalname f) (f_path f) (f_size f)
                              (f_mimetype f) (sha256 content) (u_id user)]
        ∧ categories out.2
          = Category_save (categories st) false
              (set_documentCount (c_documentCount c + 1) c)
        ∧ nextId out.2 = nextId st + 1
        ∧ files out.2 = files st
        ∧ auditLogs out.2 = auditLogs st
        ∧ users out.2 = users st
  | _ => (∀ bytes, sha256 bytes ≠ "") →
         out.2 = set_files (deleteFile (files st) (f_path f)) st
  end.
Proof.
  unfold uploadDocument, uploadCatch, generateChecksum.
  destruct (categories st !! ub_category b) as [c|] eqn:Hc; [|done].
  destruct (negb (bool_decide (c_allowedFileTypes c = []))
            && negb (bool_decide (fileExtensionOf (f_originalname f)
                                  ∈ c_allowedFileTypes c))) eqn:Hchk; [done|].
  destruct (N.ltb_spec (c_maxFileSize c) (f_size f)) as [Hbig|Hfit]; [done|].
  destruct (files st !! f_path f) as [content|] eqn:Hfile; [|done]. simpl.
  destruct (Document_valid _) eqn:Hvalid; [|done]. simpl.
  destruct (DocumentVersion_valid _) eqn:Hv; simpl.
  2: { intros Hsha.
       pose proof (DocumentVersion_valid_of_document _ (nextId st) 1 (f_size f)
                     (sha256 content) (u_id user) Hvalid (Hsha content)) as Hv'.
       destruct (Document_preSave_fields true now
                   (mkDocument (nextId st) (Js.trim (ub_title b))
                      (Js.trim <$> ub_description b) (f_filename f) (f_originalname f)
                      (f_path f) (f_size f) (f_mimetype f)
                      (fileExtensionOf (f_originalname f)) (ub_category b)
                      (Js.trim <$> default [] (ub_tags b)) (u_id user)
                      (Js.trim <$> Js.or_else (ub_department b) (u_department user))
                      1 (if c_requiresApproval c then pending else approved)
                      None None None (ub_expiryDate b) false (mkPermissions [] [] [])
                      true false None None))
         as (Hid & _ & _ & _ & Hname & Hpath & Horig & Hmime & _).
       unfold newDocument, getFileMetadata in *. simpl in *.
       rewrite Hname, Hpath, Horig, Hmime in Hv'. rewrite Hid in Hv. congruence. }
  unfold getFileMetadata in *. simpl in *.
  exists c, content.
  assert (d_id (newDocument (nextId st) user b
                  (mkFileMetadata (f_filename f) (f_originalname f) (f_path f)
                     (f_size f) (f_mimetype f) (fileExtensionOf (f_originalname f)))
                  c now) = nextId st) as Hid.
  { unfold newDocument. apply Document_preSave_fields. }
  rewrite Hid. repeat split; try done.
  apply andb_false_iff in Hchk as [Hnil|Hin].
  - left. apply negb_false_iff in Hnil. by apply bool_decide_eq_true in Hnil.
  - right. apply negb_false_iff in Hin. by apply bool_decide_eq_true in Hin.
Qed.

(** X11: an upload that is not accepted, wherever it is refused, leaves
    the documents, the versions, the categories, the users and the source
    of ids as they were (the digest of a file is never the empty string). *)
Theorem refused_upload_stores_nothing env st cl user file b now duration :
  (∀ bytes, sha256 bytes ≠ "") →
  let out := route_upload env st cl user file b now duration in
  (∀ doc, out.1 ≠ exit_created doc) →
  documents out.2 = documents st
  ∧ versions out.2 = versions st
  ∧ categories out.2 = categories st
  ∧ users out.2 = users st
  ∧ nextId out.2 = nextId st.
Proof.
  intros Hsha out. subst out. unfold route_upload, uploadSingle.
  destruct file as [f|]; [|done].
  destruct (negb (fileFilter env f)); [done|].
  destruct (fileSizeLimit env <=? f_size f); [done|].
  destruct (uploadValidation b) as [b'|]; [|done].
  pose proof (uploadDocument_outcome
                (set_files (<[f_path f := f_content f]> (files st)) st)
                user f b' now) as Hout.
  destruct (uploadDocument _ user f b' now) as [e st1]. simpl in *.
  intros Hno. destruct e; try (rewrite (Hout Hsha); done).
  by destruct (Hno document).
Qed.

(** X12: the temporary file of an upload that the upload filter let
    through and whose size is below the limit of the server.  When the
    validation of the fields fails, the reply is sent
    with the file left on the disk and without an audit entry; when the
    handler refuses the upload, at whichever check, the file is removed. *)
Theorem temp_file_of_refused_upload env st cl user f b now duration :
  (∀ bytes, sha256 bytes ≠ "") →
  fileFilter env f = true →
  f_size f < fileSizeLimit env →
  let out := route_upload env st cl user (Some f) b now duration in
  (∀ doc, out.1 ≠ exit_created doc) →
  match uploadValidation b with
  | None =>
      out.1 = exit_validation
      ∧ (files out.2 !! f_path f) = Some (f_content f)
      ∧ auditLogs out.2 = auditLogs st
  | Some _ =>
      files out.2 = delete (f_path f) (files st)
      ∧ (files out.2 !! f_path f) = None
  end.
Proof.
  intros Hsha Hfilter Hsize out. subst out. unfold route_upload, uploadSingle.
  rewrite Hfilter. simpl.
  assert ((fileSizeLimit env <=? f_size f) = false) as -> by (apply N.leb_gt; lia).
  destruct (uploadValidation b) as [b'|].
  - pose proof (uploadDocument_outcome
                  (set_files (<[f_path f := f_content f]> (files st)) st)
                  user f b' now) as Hout.
    destruct (uploadDocument _ user f b' now) as [e st1]. simpl in *.
    intros Hno.
    assert (st1 = set_files (deleteFile (<[f_path f := f_content f]> (files st))
                                        (f_path f)) st) as ->.
    { destruct e; try (by rewrite (Hout Hsha)). by destruct (Hno document). }
    simpl. unfold deleteFile. rewrite delete_insert_eq.
    split; [done|]. apply lookup_delete_eq.
  - simpl. intros _. split; [done|]. split; [apply lookup_insert_eq|done].
Qed.

(** X13: what an accepted upload has passed and what it writes: the
    extension is in the list of the server and, unless that of the
    category is empty, in the list of the category; the size is within both
    limits; the document is stored under the fresh id as version 1 of its
    uploader, with one version record that carries the digest of the bytes;
    the file stays on the disk; and the category counts one document
    more. *)
Theorem accepted_upload_effects env st cl user file b now duration doc st' :
  route_upload env st cl user file b now duration = (exit_created doc, st') →
  ∃ f c c',
    file = Some f
    ∧ categories st !! ub_category b = Some c
    ∧ fileExtensionOf (f_originalname f) ∈ allowedTypes env
    ∧ (c_allowedFileTypes c = []
       ∨ fileExtensionOf (f_originalname f) ∈ c_allowedFileTypes c)
    ∧ f_size f ≤ fileSizeLimit env
    ∧ f_size f ≤ c_maxFileSize c
    ∧ d_id doc = nextId st
    ∧ nextId st' = nextId st + 1
    ∧ documents st' = <[nextId st := doc]> (documents st)
    ∧ d_uploadedBy doc = u_id user
    ∧ d_version doc = 1
    ∧ d_filePath doc = f_path f
    ∧ d_isDeleted doc = false
    ∧ versions st'
      = versions st ++ [mkDocumentVersion (nextId st) 1 (f_filename f)
                          (f_originalname f) (f_path f) (f_size f) (f_mimetype f)
                          (sha256 (f_content f)) (u_id user)]
    ∧ files st' = <[f_path f := f_content f]> (files st)
    ∧ categories st' !! c_id c = Some c'
    ∧ c_documentCount c' = c_documentCount c + 1.
Proof.
  unfold route_upload, uploadSingle.
  destruct file as [f|]; [|done].
  destruct (bool_decide_reflect
              (fileExtensionOf (f_originalname f) ∈ allowedTypes env)) as [Hext|Hext];
    unfold fileFilter;
    [rewrite (bool_decide_eq_true_2 _ Hext)|by rewrite (bool_decide_eq_false_2 _ Hext)].
  simpl.
  destruct (N.leb_spec (fileSizeLimit env) (f_size f)) as [Hbig|Hfit]; [done|].
  apply N.lt_le_incl in Hfit.
  destruct (uploadValidation b) as [b'|] eqn:Hval; [|done].
  apply uploadValidation_Some in Hval as [Hcat _].
  pose proof (uploadDocument_outcome
                (set_files (<[f_path f := f_content f]> (files st)) st)
                user f b' now) as Hout.
  destruct (uploadDocument _ user f b' now) as [e st1]. simpl in *.
  intros [= -> <-].
  destruct Hout as (c & content & Hc & Hfile & Hlist & Hmax & Hdoc & Hdocs & Hvers
                    & Hcats & Hnext & Hfiles & _).
  rewrite lookup_insert_eq in Hfile. injection Hfile as <-.
  rewrite Hcat in Hc.
  destruct (Document_preSave_fields true now
              (mkDocument (nextId st) (Js.trim (ub_title b'))
                 (Js.trim <$> ub_description b') (f_filename f) (f_originalname f)
                 (f_path f) (f_size f) (f_mimetype f)
                 (fileExtensionOf (f_originalname f)) (ub_category b')
                 (Js.trim <$> default [] (ub_tags b')) (u_id user)
                 (Js.trim <$> Js.or_else (ub_department b') (u_department user))
                 1 (if c_requiresApproval c then pending else approved)
                 None None None (ub_expiryDate b') false (mkPermissions [] [] [])
                 true false None None))
    as (Hid & _ & Hby & Hver & _ & Hpath & _ & _ & _ & _ & _ & Hdel & _).
  unfold newDocument, getFileMetadata in Hdoc. simpl in Hdoc. rewrite <- Hdoc in *.
  exists f, c, (Category_preSave (categories st) false
                  (set_documentCount (c_documentCount c + 1) c)).
  simpl. rewrite Hcats, Hdocs, Hvers, Hnext, Hfiles.
  repeat split; try done.
  - unfold Category_save. simpl. apply lookup_insert_eq.
  - by rewrite Category_preSave_documentCount.
Qed.

End UploadOutcomes.

Lemma upload_witness_digest : ∀ bytes, @sha256 demoSha256 bytes ≠ "".
Proof. intros bytes. cbv. discriminate. Qed.

Lemma refused_upload_stores_nothing_witness :
  let out := @route_upload demoSha256 noEnv (demoDB pending) browser bob
               (Some (fileNamed "notes.txt")) (uploadInto 20 None) 5000 12 in
  documents out.2 = documents (demoDB pending)
  ∧ versions out.2 = versions (demoDB pending)
  ∧ categories out.2 = categories (demoDB pending)
  ∧ users out.2 = users (demoDB pending)
  ∧ nextId out.2 = nextId (demoDB pending).
Proof.
  apply (@refused_upload_stores_nothing demoSha256 noEnv (demoDB pending) browser bob
           (Some (fileNamed "notes.txt")) (uploadInto 20 None) 5000 12).
  - exact upload_witness_digest.
  - intros doc. vm_compute. discriminate.
Defined.

Lemma temp_file_of_refused_upload_witness :
  let f := fileNamed "notes.txt" in
  let out := @route_upload demoSha256 noEnv (demoDB pending) browser bob (Some f)
               (uploadInto 20 None) 5000 12 in
  files out.2 = delete (f_path f) (files (demoDB pending))
  ∧ (files out.2 !! f_path f) = None.
Proof.
  exact (@temp_file_of_refused_upload demoSha256 noEnv (demoDB pending) browser bob
           (fileNamed "notes.txt") (uploadInto 20 None) 5000 12
           upload_witness_digest eq_refl
           eq_refl
           (λ doc H, eq_ind (exit_typeNotAllowed "txt" ["pdf"; "xls"; "xlsx"])
                       (λ e, match e with exit_created _ => False | _ => True end)
                       I _ H)).
Defined.

Lemma accepted_upload_effects_witness :
  ∃ f c c',
    Some (fileNamed "report.pdf") = Some f
    ∧ categories (demoDB pending) !! ub_category (uploadInto 20 None) = Some c
    ∧ fileExtensionOf (f_originalname f) ∈ allowedTypes noEnv
    ∧ (c_allowedFileTypes c = []
       ∨ fileExtensionOf (f_originalname f) ∈ c_allowedFileTypes c)
    ∧ f_size f ≤ fileSizeLimit noEnv
    ∧ f_size f ≤ c_maxFileSize c
    ∧ d_id quarterlyReport = nextId (demoDB pending)
    ∧ nextId (@route_upload demoSha256 noEnv (demoDB pending) browser bob
                (Some (fileNamed "report.pdf")) (uploadInto 20 None) 5000 12).2
      = nextId (demoDB pending) + 1
    ∧ documents (@route_upload demoSha256 noEnv (demoDB pending) browser bob
                   (Some (fileNamed "report.pdf")) (uploadInto 20 None) 5000 12).2
      = <[nextId (demoDB pending) := quarterlyReport]> (documents (demoDB pending))
    ∧ d_uploadedBy quarterlyReport = u_id bob
    ∧ d_version quarterlyReport = 1
    ∧ d_filePath quarterlyReport = f_path f
    ∧ d_isDeleted quarterlyReport = false
    ∧ versions (@route_upload demoSha256 noEnv (demoDB pending) browser bob
                  (Some (fileNamed "report.pdf")) (uploadInto 20 None) 5000 12).2
      = versions (demoDB pending)
        ++ [mkDocumentVersion (nextId (demoDB pending)) 1 (f_filename f)
              (f_originalname f) (f_path f) (f_size f) (f_mimetype f)
              (@sha256 demoSha256 (f_content f)) (u_id bob)]
    ∧ files (@route_upload demoSha256 noEnv (demoDB pending) browser bob
               (Some (fileNamed "report.pdf")) (uploadInto 20 None) 5000 12).2
      = <[f_path f := f_content f]> (files (demoDB pending))
    ∧ categories (@route_upload demoSha256 noEnv (demoDB pending) browser bob
                    (Some (fileNamed "report.pdf")) (uploadInto 20 None) 5000 12).2
      !! c_id c = Some c'
    ∧ c_documentCount c' = c_documentCount c + 1.
Proof.
  apply (@accepted_upload_effects demoSha256 noEnv (demoDB pending) browser bob
           (Some (fileNamed "report.pdf")) (uploadInto 20 None) 5000 12).
  vm_compute. reflexivity.
Defined.

(* --------------------------------------------------------------------- *)
(** ** DELETE /api/documents/:id on a document that is deleted already *)
(* --------------------------------------------------------------------- *)

Lemma checkOwnership_Next (documents : gmap ObjectId Document) user id doc :
  documents !! id = Some doc →
  allowed (checkOwnership documents user id) = true →
  checkOwnership documents user id = Next doc.
Proof.
  unfold checkOwnership. intros ->.
  destruct (decide _); [done|]. destruct (decide _); [done|].
  by destruct (hasPermission _ _ _).
Qed.

Lemma checkOwnership_set_deleted (documents : gmap ObjectId Document) user id doc
    deletedAt deletedBy :
  documents !! id = Some doc →
  allowed (checkOwnership (<[id := set_deleted deletedAt deletedBy doc]> documents)
                          user id)
  = allowed (checkOwnership documents user id).
Proof.
  unfold checkOwnership, hasPermission. intros ->. rewrite lookup_insert_eq. simpl.
  destruct (decide _); [done|]. destruct (decide _); [done|].
  by destruct (bool_decide _).
Qed.

Lemma Document_preSave_unmodified now d : Document_preSave false now d = d.
Proof. done. Qed.

(** One request to DELETE /api/documents/:id by someone whom the gate lets
    through. *)
Lemma route_deleteDocument_step st cl user id doc c now duration :
  documents st !! id = Some doc →
  d_id doc = id →
  allowed (checkOwnership (documents st) user id) = true →
  categories st !! d_category doc = Some c →
  c_id c = d_category doc →
  let out := route_deleteDocument st cl user id now duration in
  out.1 = jsonOk 200 "Document deleted successfully"
  ∧ documents out.2 = <[id := set_deleted now (u_id user) doc]> (documents st)
  ∧ categories out.2
    = <[d_category doc :=
          Category_preSave (categories st) false
            (set_documentCount (c_documentCount c - 1) c)]> (categories st).
Proof.
  intros Hdoc Hid Hgate Hc Hcid out. subst out.
  unfold route_deleteDocument, gate.
  rewrite (checkOwnership_Next _ _ _ _ Hdoc Hgate).
  unfold audited, deleteDocument. rewrite Document_preSave_unmodified.
  cbn [fst snd documents categories set_documents set_auditLogs set_categories].
  change (d_id (set_deleted now (u_id user) doc)) with (d_id doc).
  rewrite Hc, Hid.
  cbn [fst snd documents categories set_documents set_auditLogs set_categories].
  split; [done|]. split; [done|].
  unfold Category_save.
  change (c_id (set_documentCount ?n c)) with (c_id c). rewrite Hcid.
  do 2 f_equal. f_equal. destruct (c_documentCount c); lia.
Qed.

(** X14: DELETE /api/documents/:id does not look at [isDeleted].  A second
    request on the same document is answered 200 again; it overwrites the
    time and the author of the deletion, and the category's counter of
    documents goes down a second time. *)
Theorem repeated_delete_counts_again st cl user id doc c now1 now2 duration :
  documents st !! id = Some doc →
  d_id doc = id →
  allowed (gate op_delete (documents st) user id) = true →
  categories st !! d_category doc = Some c →
  c_id c = d_category doc →
  let st1 := (route_deleteDocument st cl user id now1 duration).2 in
  let out := route_deleteDocument st1 cl user id now2 duration in
  out.1 = jsonOk 200 "Document deleted successfully"
  ∧ ∃ doc1 doc2 c2,
      documents st1 !! id = Some doc1
      ∧ d_isDeleted doc1 = true
      ∧ documents out.2 !! id = Some doc2
      ∧ d_isDeleted doc2 = true
      ∧ d_deletedAt doc2 = Some now2
      ∧ d_deletedBy doc2 = Some (u_id user)
      ∧ categories out.2 !! d_category doc = Some c2
      ∧ c_documentCount c2 = c_documentCount c - 2.
Proof.
  intros Hdoc Hid Hgate Hc Hcid st1 out. simpl in Hgate.
  destruct (route_deleteDocument_step st cl user id doc c now1 duration
              Hdoc Hid Hgate Hc Hcid) as (_ & Hdocs1 & Hcats1).
  fold st1 in Hdocs1, Hcats1.
  set (doc1 := set_deleted now1 (u_id user) doc) in *.
  set (c1 := Category_preSave (categories st) false
               (set_documentCount (c_documentCount c - 1) c)) in *.
  assert (documents st1 !! id = Some doc1) as Hdoc1
    by (rewrite Hdocs1; apply lookup_insert_eq).
  assert (categories st1 !! d_category doc1 = Some c1) as Hc1
    by (rewrite Hcats1; apply lookup_insert_eq).
  assert (allowed (checkOwnership (documents st1) user id) = true) as Hgate1.
  { rewrite Hdocs1. subst doc1. by rewrite checkOwnership_set_deleted. }
  assert (c_id c1 = d_category doc1) as Hcid1.
  { subst c1. by rewrite Category_preSave_id. }
  destruct (route_deleteDocument_step st1 cl user id doc1 c1 now2 duration
              Hdoc1 Hid Hgate1 Hc1 Hcid1) as (Hok & Hdocs2 & Hcats2).
  fold out in Hok, Hdocs2, Hcats2.
  split; [exact Hok|].
  exists doc1, (set_deleted now2 (u_id user) doc1),
         (Category_preSave (categories st1) false
            (set_documentCount (c_documentCount c1 - 1) c1)).
  split; [exact Hdoc1|]. split; [done|].
  split; [rewrite Hdocs2; apply lookup_insert_eq|].
  split; [done|]. split; [done|]. split; [done|].
  split; [rewrite Hcats2; apply lookup_insert_eq|].
  rewrite Category_preSave_documentCount. simpl. subst c1.
  rewrite Category_preSave_documentCount. simpl. lia.
Qed.

Lemma repeated_delete_counts_again_witness :
  let st1 := (route_deleteDocument (demoDB approved) browser bob 30 5000 12).2 in
  let out := route_deleteDocument st1 browser bob 30 6000 12 in
  out.1 = jsonOk 200 "Document deleted successfully"
  ∧ ∃ doc1 doc2 c2,
      documents st1 !! (30 : ObjectId) = Some doc1
      ∧ d_isDeleted doc1 = true
      ∧ documents out.2 !! (30 : ObjectId) = Some doc2
      ∧ d_isDeleted doc2 = true
      ∧ d_deletedAt doc2 = Some 6000
      ∧ d_deletedBy doc2 = Some (u_id bob)
      ∧ categories out.2 !! d_category (memo approved) = Some c2
      ∧ c_documentCount c2 = c_documentCount finance - 2.
Proof.
  apply (repeated_delete_counts_again (demoDB approved) browser bob 30
           (memo approved) finance 5000 6000 12);
    vm_compute; reflexivity.
Defined.

(* --------------------------------------------------------------------- *)
(** ** Users: password reset, profiles, change of password *)
(* --------------------------------------------------------------------- *)

Lemma authorizeArgs_names roles user :
  authorizeArgs (arg_name <$> roles) user = authorize roles user.
Proof.
  unfold authorizeArgs, authorize.
  destruct (bool_decide_reflect (u_role user ∈ roles)) as [Hin|Hout].
  - rewrite bool_decide_eq_true_2; [done|].
    apply list_elem_of_fmap. by exists (u_role user).
  - rewrite bool_decide_eq_false_2; [done|].
    intros (r & [= <-] & Hr)%list_elem_of_fmap. done.
Qed.

(** X15: POST /api/users/:id/reset-password answers 403 to every user,
    admins and managers too, and changes nothing: its [authorize] gets one
    array where it takes role names, and no role is equal to an array.  On
    role names the same gate is [authorize] as the other routes use it. *)
Theorem reset_password_always_forbidden {bcrypt : Bcrypt} st cl user id tempPassword salt
    now duration :
  route_resetPassword st cl user id tempPassword salt now duration
  = (jsonError 403 ("User role " +:+ roleName (u_role user)
                    +:+ " is not authorized to access this route"), st)
  ∧ authorizeArgs (arg_name <$> [role_admin; role_manager]) user
    = authorize [role_admin; role_manager] user.
Proof.
  split; [|apply authorizeArgs_names].
  unfold route_resetPassword, authorizeArgs.
  rewrite bool_decide_eq_false_2; [done|].
  intros Hin. apply list_elem_of_singleton in Hin. discriminate.
Qed.

(** X16: GET /api/users/:id looks the id up before it checks the
    requester, and it checks the requester by comparing texts.  The answer
    is 200 exactly when the parameter casts to the id of a user and the
    requester is admin, manager or has the parameter as the text of their
    id.  A plain user who sends another text gets 500 when it is no id,
    404 when it is the id of nobody and 403 when it is the id of a user,
    their own id in another spelling included. *)
Theorem profile_lookup_before_check {ids : MongoIds} (users : gmap ObjectId User)
    user id :
  (statusCode (getUser users user id) = 200
   ↔ (∃ i, castObjectId id = Some i ∧ is_Some (users !! i))
     ∧ (u_role user = role_admin ∨ u_role user = role_manager
        ∨ idText (u_id user) = id))
  ∧ (u_role user = role_user → idText (u_id user) ≠ id →
     statusCode (getUser users user id)
     = match castObjectId id with
       | None => 500
       | Some i => match users !! i with Some _ => 403 | None => 404 end
       end)
  ∧ (u_role user = role_user → idText (u_id user) ≠ id →
     castObjectId id = Some (u_id user) → is_Some (users !! u_id user) →
     getUser users user id
     = jsonError 403 "Not authorized to access this user profile").
Proof.
  unfold getUser. split; [|split].
  - destruct (castObjectId id) as [i|];
      [|split; [done|by intros [(? & [=] & _) _]]].
    destruct (users !! i) as [u|] eqn:Hu.
    2: { split; [done|]. intros [(j & [= <-] & [u Hj]) _]. congruence. }
    assert (∃ j, Some i = Some j ∧ is_Some (users !! j)) as Hfound
      by (exists i; split; [done|by exists u]).
    destruct (bool_decide_reflect (u_role user = role_admin)) as [Ha|Ha];
      [split; [intros _; split; [done|by left]|done]|].
    destruct (bool_decide_reflect (u_role user = role_manager)) as [Hm|Hm];
      [split; [intros _; split; [done|by right; left]|done]|].
    destruct (bool_decide_reflect (idText (u_id user) = id)) as [Hi|Hi];
      [split; [intros _; split; [done|by right; right]|done]|].
    simpl. split; [done|]. by intros [_ [?|[?|?]]].
  - intros Hrole Hne. destruct (castObjectId id) as [i|]; [|done].
    destruct (users !! i) as [u|]; [|done].
    rewrite Hrole. simpl. by rewrite (bool_decide_eq_false_2 _ Hne).
  - intros Hrole Hne -> [u ->].
    rewrite Hrole. simpl. by rewrite (bool_decide_eq_false_2 _ Hne).
Qed.

(** Frank, a plain user, gets his profile under the text of his id as the
    server writes it, and 403 under the same id in capital letters. *)
Lemma own_profile_in_capitals_forbidden :
  @getUser demoIds (<[171 := frank]> demoUsers) frank (idOf 171) = jsonData 200
  ∧ @castObjectId demoIds inCapitals171 = Some 171
  ∧ @getUser demoIds (<[171 := frank]> demoUsers) frank inCapitals171
    = jsonError 403 "Not authorized to access this user profile".
Proof. repeat split; vm_compute; reflexivity. Qed.

Section PasswordFacts.
Context {bcrypt : Bcrypt}.


End PasswordFacts.


(* --------------------------------------------------------------------- *)
(** ** Registration *)
(* --------------------------------------------------------------------- *)

Lemma parseRole_roleName r : parseRole (roleName r) = Some r.
Proof. by destruct r. Qed.

Lemma role_or_user r :
  default "user" (Js.or_else (Some (roleName r)) (Some "user")) = roleName r.
Proof. by destruct r. Qed.

Lemma emailPattern_nonEmpty s : Regex.test emailPattern s = true → s ≠ "".
Proof. by intros Htest ->. Qed.

Section RegisterFacts.
Context {bcrypt : Bcrypt} {validator : EmailValidator}.

(** X18: POST /api/auth/register is public and takes the role from the
    body.  A request that passes the validation, names a role and brings an
    email that no user has and that the pattern of the schema accepts, is
    answered 201 and creates an active user with that role, admin
    included; the password is hashed once, so that a bcrypt that accepts
    exactly the hashed password accepts it afterwards; and the audit
    trail gets no entry. *)
Theorem registration_grants_requested_role st cl b b' r now duration salt :
  idealBcrypt bcrypt →
  registerValidation b = Some b' →
  rb_role b = Some (roleName r) →
  User_findOne_email (users st) (rb_email b') = None →
  Regex.test emailPattern (Js.toLowerCase (Js.trim (rb_email b'))) = true →
  let out := route_register st cl false b now duration salt in
  out.1 = jsonOk 201 "User registered successfully"
  ∧ (∃ u, users out.2 !! nextId st = Some u
          ∧ u_role u = r
          ∧ u_isActive u = true
          ∧ u_email u = Js.toLowerCase (Js.trim (rb_email b'))
          ∧ matchPassword u (rb_password b) = Some true)
  ∧ auditLogs out.2 = auditLogs st.
Proof.
  intros Hideal Hval Hrole Hfree Hpat out. subst out.
  unfold route_register. rewrite Hval.
  unfold registerValidation in Hval.
  destruct (_ && _) eqn:Hrules in Hval; [|done]. injection Hval as <-.
  apply andb_true_iff in Hrules as [Hrules Hdep].
  apply andb_true_iff in Hrules as [Hrules Hr].
  apply andb_true_iff in Hrules as [Hrules Hpw].
  apply andb_true_iff in Hrules as [Hname Hmail].
  simpl in Hfree, Hpat.
  unfold audited, auditLog. rewrite auditLog_finish_no_user.
  unfold register.
  cbn [rb_email rb_role rb_name rb_password rb_department rb_id].
  rewrite Hfree, Hrole, role_or_user, parseRole_roleName.
  assert (User_valid
            (mkUser (nextId st) (Js.trim (Js.trim (rb_name b)))
                    (Js.toLowerCase (Js.trim (normalizeEmail (rb_email b))))
                    (Some (rb_password b)) r
                    (Js.trim <$> (Js.trim <$> rb_department b)) true None) = true)
    as ->.
  { unfold User_valid. simpl. rewrite trim_idemp.
    unfold lengthBetween in Hname.
    apply andb_true_iff in Hname as [Hmin Hmax].
    apply Nat.leb_le in Hmin.
    repeat (apply andb_true_iff; split); try done.
    - unfold nonEmpty. rewrite bool_decide_eq_false_2; [done|].
      intros Hempty. rewrite Hempty in Hmin. simpl in Hmin. lia.
    - unfold nonEmpty. rewrite bool_decide_eq_false_2; [done|].
      by apply emailPattern_nonEmpty. }
  simpl. split; [done|]. split; [|done].
  eexists. split; [apply lookup_insert_eq|]. simpl.
  split; [done|]. split; [done|]. split; [done|].
  unfold matchPassword. simpl. by rewrite Hideal, bool_decide_eq_true_2.
Qed.

End RegisterFacts.

Lemma registration_grants_requested_role_witness :
  let b := mkRegisterBody " Eve " "Eve@Example.com" "letmein" (Some "admin") None None in
  let out := @route_register demoBcrypt demoEmail emptyDB browser false b 5000 12
               "s2" in
  out.1 = jsonOk 201 "User registered successfully"
  ∧ (∃ u, users out.2 !! nextId emptyDB = Some u
          ∧ u_role u = role_admin
          ∧ u_isActive u = true
          ∧ u_email u = Js.toLowerCase (Js.trim "eve@example.com")
          ∧ @matchPassword demoBcrypt u "letmein" = Some true)
  ∧ auditLogs out.2 = auditLogs emptyDB.
Proof.
  apply (@registration_grants_requested_role demoBcrypt demoEmail emptyDB browser
           (mkRegisterBody " Eve " "Eve@Example.com" "letmein" (Some "admin") None None)
           (mkRegisterBody "Eve" "eve@example.com" "letmein" (Some "admin") None None)
           role_admin 5000 12 "s2").
  - exact demoBcrypt_ideal.
  - vm_compute. reflexivity.
  - reflexivity.
  - vm_compute. reflexivity.
  - vm_compute. reflexivity.
Defined.

(* --------------------------------------------------------------------- *)
(** ** The activity of a user *)
(* --------------------------------------------------------------------- *)

Global Instance newestFirst_trans : Transitive newestFirst.
Proof. unfold newestFirst. intros a b c Hab Hbc. lia. Qed.

Global Instance newestFirst_total : Total newestFirst.
Proof. unfold newestFirst. intros a b. lia. Qed.

Lemma StronglySorted_take {A} (R : relation A) n l :
  StronglySorted R l → StronglySorted R (take n l).
Proof.
  intros Hl. rewrite <- (take_drop n l) in Hl.
  by apply StronglySorted_app_1_l in Hl.
Qed.

Lemma getUserActivity_elem log userId options e :
  e ∈ getUserActivity log userId options →
  e ∈ log ∧ activityQuery userId options e = true.
Proof.
  unfold getUserActivity. intros Hin.
  apply subseteq_take in Hin. rewrite merge_sort_Permutation in Hin.
  by apply list_elem_of_In, filter_In in Hin as [Hin%list_elem_of_In Hq].
Qed.

(** X19: GET /api/users/:id/activity.  A plain user gets the activity of
    nobody else.  What is returned are entries of the audit trail that
    belong to the user asked for and lie within the dates asked for, the
    newest first, and no more of them than the limit (20 when none is
    given).  The page of the query changes nothing: the skip that the
    route computes from it is not read. *)
Theorem activity_of_user st user id q :
  let out := route_activity st user id q in
  (u_role user = role_user → u_id user ≠ id → statusCode out.1 = 403 ∧ out.2 = [])
  ∧ (∀ e, e ∈ out.2 →
          e ∈ auditLogs st
          ∧ al_user e = id
          ∧ (∀ t, ap_startDate q = Some t → t ≤ al_timestamp e)
          ∧ (∀ t, ap_endDate q = Some t → al_timestamp e ≤ t))
  ∧ StronglySorted newestFirst out.2
  ∧ (length out.2 ≤ N.to_nat (orDefault (ap_limit q) 20))%nat
  ∧ (∀ page,
       route_activity st user id
         (mkActivityParams page (ap_limit q) (ap_startDate q) (ap_endDate q)
                           (ap_action q))
       = out).
Proof.
  intros out. subst out. unfold route_activity.
  split; [|split; [|split; [|split]]].
  - intros Hrole Hne. rewrite Hrole. simpl.
    by rewrite (bool_decide_eq_false_2 _ Hne).
  - intros e. destruct (negb _); simpl; [by intros ?%elem_of_nil|].
    intros [Hin Hq]%getUserActivity_elem. split; [done|].
    unfold activityQuery in Hq. simpl in Hq.
    apply andb_true_iff in Hq as [Hq _].
    apply andb_true_iff in Hq as [Hq _].
    apply andb_true_iff in Hq as [Hq Hend].
    apply andb_true_iff in Hq as [Huser Hstart].
    apply bool_decide_eq_true in Huser. split; [done|]. split.
    + intros t Ht. rewrite Ht in Hstart. simpl in Hstart. by apply N.leb_le.
    + intros t Ht. rewrite Ht in Hend. simpl in Hend. by apply N.leb_le.
  - destruct (negb _); simpl; [constructor|].
    apply StronglySorted_take, StronglySorted_merge_sort; apply _.
  - destruct (negb _); cbn [snd length]; [lia|].
    unfold getUserActivity. rewrite length_take. cbn [ao_limit].
    assert (orDefault (Some (orDefault (ap_limit q) 20)) 100
            = orDefault (ap_limit q) 20) as ->; [|lia].
    by destruct (ap_limit q) as [[|p]|].
  - done.
Qed.

(* --------------------------------------------------------------------- *)
(** ** Downloads *)
(* --------------------------------------------------------------------- *)

Lemma Document_valid_set_deleted deletedAt deletedBy d :
  Document_valid (set_deleted deletedAt deletedBy d) = Document_valid d.
Proof. done. Qed.

(** What a request to DELETE /api/documents/:id does to the documents and
    to the files: it writes no file, and marks the document at most. *)
Lemma route_deleteDocument_marks st cl user id doc now duration :
  documents st !! id = Some doc →
  d_id doc = id →
  let st' := (route_deleteDocument st cl user id now duration).2 in
  files st' = files st
  ∧ (documents st' = documents st
     ∨ documents st' = <[id := set_deleted now (u_id user) doc]> (documents st)).
Proof.
  intros Hdoc Hid st'. subst st'. unfold route_deleteDocument, gate.
  destruct (checkOwnership (documents st) user id) as [document|r] eqn:Hgate;
    [|by split; [|left]].
  assert (allowed (checkOwnership (documents st) user id) = true) as Hallowed
    by (by rewrite Hgate).
  rewrite (checkOwnership_Next _ _ _ _ Hdoc Hallowed) in Hgate.
  injection Hgate as <-.
  unfold audited, deleteDocument. rewrite Document_preSave_unmodified.
  cbn [fst snd documents categories set_documents set_auditLogs set_categories files].
  change (d_id (set_deleted now (u_id user) doc)) with (d_id doc). rewrite Hid.
  destruct (<[id := _]> (documents st)) eqn:Hmap.
  rewrite <- Hmap.
  destruct (categories st !! d_category doc); (split; [done|by right]).
Qed.

(** The download of a document that is stored under its id, is valid and
    has its file, by someone whom the gate lets through. *)
Lemma route_download_streams st cl user id doc content now duration :
  documents st !! id = Some doc →
  Document_valid doc = true →
  (files st !! d_filePath doc) = Some content →
  allowed (checkOwnership (documents st) user id) = true →
  (route_download st cl user id now duration).1
  = download_stream (d_originalName doc) (d_mimeType doc) (d_fileSize doc) content.
Proof.
  intros Hdoc Hvalid Hfile Hgate. unfold route_download.
  rewrite (checkOwnership_Next _ _ _ _ Hdoc Hgate).
  unfold downloadDocument, incrementCounter. by rewrite Hfile, Hvalid.
Qed.

(** X20: the deletion of a document is a mark on its record.  After a
    request to DELETE /api/documents/:id, by whomever and whether it was
    let through or not, everyone who could download the document before
    still gets its file. *)
Theorem deleted_document_still_downloads st cl deleter reader id doc content
    now duration cl' now' duration' :
  documents st !! id = Some doc →
  d_id doc = id →
  Document_valid doc = true →
  (files st !! d_filePath doc) = Some content →
  allowed (checkOwnership (documents st) reader id) = true →
  let st' := (route_deleteDocument st cl deleter id now duration).2 in
  (route_download st' cl' reader id now' duration').1
  = download_stream (d_originalName doc) (d_mimeType doc) (d_fileSize doc) content.
Proof.
  intros Hdoc Hid Hvalid Hfile Hgate st'.
  destruct (route_deleteDocument_marks st cl deleter id doc now duration Hdoc Hid)
    as [Hfiles [Hdocs|Hdocs]]; fold st' in Hfiles, Hdocs.
  - apply route_download_streams; rewrite ?Hdocs, ?Hfiles; done.
  - apply (route_download_streams st' cl' reader id
             (set_deleted now (u_id deleter) doc)).
    + rewrite Hdocs. apply lookup_insert_eq.
    + done.
    + by rewrite Hfiles.
    + rewrite Hdocs. by rewrite checkOwnership_set_deleted.
Qed.

Section DownloadFacts.
Context {crypto : Sha256}.

Lemma uploadDocument_created_valid st user f b now doc :
  (uploadDocument st user f b now).1 = exit_created doc →
  Document_valid doc = true.
Proof.
  unfold uploadDocument, uploadCatch, generateChecksum.
  destruct (categories st !! ub_category b) as [c|]; [|done].
  destruct (_ && _); [done|].
  destruct (c_maxFileSize c <? f_size f); [done|].
  destruct (files st !! f_path f) as [content|]; [|done]. simpl.
  destruct (Document_valid _) eqn:Hvalid; [|done]. simpl.
  destruct (DocumentVersion_valid _); simpl; [|done].
  by intros [= <-].
Qed.

(** X21: what was uploaded is what is downloaded.  After an accepted
    upload, the download of the new document by its uploader sends the
    original name, the type, the size and the bytes of the uploaded
    file. *)
Theorem upload_then_download env st cl user file b now duration doc st'
    cl' now' duration' :
  route_upload env st cl user file b now duration = (exit_created doc, st') →
  ∃ f,
    file = Some f
    ∧ (route_download st' cl' user (d_id doc) now' duration').1
      = download_stream (f_originalname f) (f_mimetype f) (f_size f) (f_content f).
Proof.
  unfold route_upload, uploadSingle.
  destruct file as [f|]; [|done].
  destruct (negb (fileFilter env f)); [done|].
  destruct (fileSizeLimit env <=? f_size f); [done|].
  destruct (uploadValidation b) as [b'|]; [|done].
  pose proof (uploadDocument_outcome
                (set_files (<[f_path f := f_content f]> (files st)) st)
                user f b' now) as Hout.
  pose proof (uploadDocument_created_valid
                (set_files (<[f_path f := f_content f]> (files st)) st)
                user f b' now) as Hvalid.
  destruct (uploadDocument _ user f b' now) as [e st1]. simpl in *.
  intros [= -> <-]. specialize (Hvalid doc eq_refl).
  destruct Hout as (c & content & Hc & Hfile & _ & _ & Hdoc & Hdocs & _ & _ & _
                    & Hfiles & _).
  rewrite lookup_insert_eq in Hfile. injection Hfile as <-.
  destruct (Document_preSave_fields true now
              (mkDocument (nextId st) (Js.trim (ub_title b'))
                 (Js.trim <$> ub_description b') (f_filename f) (f_originalname f)
                 (f_path f) (f_size f) (f_mimetype f)
                 (fileExtensionOf (f_originalname f)) (ub_category b')
                 (Js.trim <$> default [] (ub_tags b')) (u_id user)
                 (Js.trim <$> Js.or_else (ub_department b') (u_department user))
                 1 (if c_requiresApproval c then pending else approved)
                 None None None (ub_expiryDate b') false (mkPermissions [] [] [])
                 true false None None))
    as (Hid & _ & Hby & _ & _ & Hpath & Horig & Hmime & Hsize & _).
  unfold newDocument, getFileMetadata in Hdoc. simpl in Hdoc. rewrite <- Hdoc in *.
  simpl in Hid, Hby, Hpath, Horig, Hmime, Hsize.
  exists f. split; [done|].
  rewrite <- Horig, <- Hmime, <- Hsize.
  apply route_download_streams; simpl.
  - rewrite Hdocs, Hid. apply lookup_insert_eq.
  - done.
  - rewrite Hfiles, Hpath. apply lookup_insert_eq.
  - unfold checkOwnership. rewrite Hdocs, Hid, lookup_insert_eq.
    destruct (decide _); [done|]. by rewrite decide_True.
Qed.

End DownloadFacts.

Lemma upload_then_download_witness :
  ∃ f,
    Some (fileNamed "report.pdf") = Some f
    ∧ (route_download
         (@route_upload demoSha256 noEnv (demoDB pending) browser bob
            (Some (fileNamed "report.pdf")) (uploadInto 20 None) 5000 12).2
         browser bob (d_id quarterlyReport) 6000 3).1
      = download_stream (f_originalname f) (f_mimetype f) (f_size f) (f_content f).
Proof.
  apply (@upload_then_download demoSha256 noEnv (demoDB pending) browser bob
           (Some (fileNamed "report.pdf")) (uploadInto 20 None) 5000 12
           quarterlyReport).
  vm_compute. reflexivity.
Defined.

Lemma deleted_document_still_downloads_witness :
  let st := (@route_upload demoSha256 noEnv (demoDB pending) browser bob
               (Some (fileNamed "report.pdf")) (uploadInto 20 None) 5000 12).2 in
  let st' := (route_deleteDocument st browser alice 100 7000 12).2 in
  (route_download st' browser bob 100 8000 3).1
  = download_stream (d_originalName quarterlyReport) (d_mimeType quarterlyReport)
                    (d_fileSize quarterlyReport) "bytes".
Proof.
  apply (deleted_document_still_downloads
           (@route_upload demoSha256 noEnv (demoDB pending) browser bob
              (Some (fileNamed "report.pdf")) (uploadInto 20 None) 5000 12).2
           browser alice bob 100 quarterlyReport "bytes" 7000 12 browser 8000 3);
    vm_compute; reflexivity.
Defined.

(* --------------------------------------------------------------------- *)
(** ** Who is shown what in the listings *)
(* --------------------------------------------------------------------- *)

Section ListingFacts.
Context {mongo : MongoSearch}.

Lemma documentsQuery_Some user p q :
  documentsQuery user p = Some q →
  q_category q = lp_category p
  ∧ q_isDeleted q = false
  ∧ q_isActive q = true
  ∧ q_status q = lp_status p
  ∧ q_uploadedBy q = lp_uploadedBy p
  ∧ q_or q
    = (if bool_decide (u_role user = role_user)
       then Some ([or_uploadedBy (u_id user); or_permissions_read (u_id user);
                   or_isPublic]
                  ++ match lp_status p with
                     | Some _ => []
                     | None => [or_status approved; or_uploadedBy (u_id user)]
                     end)
       else None).
Proof.
  unfold documentsQuery.
  assert (∀ dep,
            q = mkQuery (lp_category p) false true (lp_status p) dep (lp_uploadedBy p)
                  (if Js.truthy (lp_search p) then lp_search p else None)
                  match lp_tags p with
                  | Some (tags_one "") | None => None
                  | Some (tags_one tag) => Some [tag]
                  | Some (tags_many tags) => Some tags
                  end
                  (if bool_decide (u_role user = role_user)
                   then Some ([or_uploadedBy (u_id user);
                               or_permissions_read (u_id user); or_isPublic]
                              ++ default []
                                   match lp_status p with
                                   | Some _ => None
                                   | None =>
                                       if bool_decide (u_role user = role_user)
                                       then Some [or_status approved;
                                                  or_uploadedBy (u_id user)]
                                       else None
                                   end)
                   else match lp_status p with
                        | Some _ => None
                        | None =>
                            if bool_decide (u_role user = role_user)
                            then Some [or_status approved; or_uploadedBy (u_id user)]
                            else None
                        end) →
            q_category q = lp_category p
            ∧ q_isDeleted q = false
            ∧ q_isActive q = true
            ∧ q_status q = lp_status p
            ∧ q_uploadedBy q = lp_uploadedBy p
            ∧ q_or q
              = (if bool_decide (u_role user = role_user)
                 then Some ([or_uploadedBy (u_id user);
                             or_permissions_read (u_id user); or_isPublic]
                            ++ match lp_status p with
                               | Some _ => []
                               | None => [or_status approved; or_uploadedBy (u_id user)]
                               end)
                 else None)) as Hq.
  { intros dep ->. simpl.
    destruct (bool_decide (u_role user = role_user)), (lp_status p); done. }
  destruct (lp_department p) as [[|c s]|].
  - intros [= <-]. by apply (Hq None).
  - destruct (RegExp_i (String c s)) as [test|]; [|done].
    intros [= <-]. by apply (Hq (Some test)).
  - intros [= <-]. by apply (Hq None).
Qed.

(** The two queries that one query string gives two users differ in the
    [$or] only. *)
Lemma documentsQuery_same_filters user1 user2 p q1 q2 :
  documentsQuery user1 p = Some q1 →
  documentsQuery user2 p = Some q2 →
  q2 = mkQuery (q_category q1) (q_isDeleted q1) (q_isActive q1) (q_status q1)
               (q_department q1) (q_uploadedBy q1) (q_text q1) (q_tags_in q1)
               (q_or q2).
Proof.
  unfold documentsQuery.
  destruct (lp_department p) as [[|c s]|];
    [|destruct (RegExp_i (String c s)) as [test|]; [|done]|];
    by intros [= <-] [= <-].
Qed.

(** X22: GET /api/documents shows a plain user every approved document
    that the same query shows an admin, whatever the permissions of the
    document: without a status in the query, the permission clauses of the
    handler end up in one [$or] with the clause for approved documents.
    That holds also for a document that is not the user's and does not list
    the user as reader, which [checkOwnership] refuses the user to open. *)
Theorem approved_listed_to_every_user user admin p q q'
    (documents : gmap ObjectId Document) id d :
  u_role user = role_user →
  u_role admin = role_admin →
  lp_status p = None →
  documentsQuery user p = Some q →
  documentsQuery admin p = Some q' →
  documents !! id = Some d →
  d_status d = approved →
  d_uploadedBy d ≠ u_id user →
  u_id user ∉ p_read (d_permissions d) →
  satisfies q d = satisfies q' d
  ∧ checkOwnership documents user id
    = Reply (jsonError 403 "Not authorized to access this resource").
Proof.
  intros Huser Hadmin Hstatus Hq Hq' Hd Happroved Hown Hread. split.
  - rewrite (documentsQuery_same_filters _ _ _ _ _ Hq Hq').
    apply documentsQuery_Some in Hq as (_ & _ & _ & _ & _ & Hor).
    apply documentsQuery_Some in Hq' as (_ & _ & _ & _ & _ & Hor').
    rewrite Huser, Hstatus in Hor. rewrite Hadmin in Hor'. simpl in Hor, Hor'.
    unfold satisfies. simpl. rewrite Hor, Hor'. simpl.
    rewrite (bool_decide_eq_true_2 _ Happroved).
    by rewrite !orb_true_r.
  - unfold checkOwnership, hasPermission. rewrite Hd, Huser. simpl.
    rewrite !decide_False by (try done; by intros [?|?]). simpl.
    by rewrite (bool_decide_eq_false_2 _ Hread).
Qed.

(** X23: GET /api/categories/:id/documents shows a plain user only
    documents of the category that are the user's, list the user as reader
    or are public, and are neither deleted nor inactive; whoever the user
    is, each of them is shown by GET /api/documents too, asked for the same
    category and status. *)
Theorem category_listing_within_listing user id status d :
  let q := categoryDocumentsQuery user id status in
  (u_role user = role_user → satisfies q d = true →
   d_category d = id ∧ d_isDeleted d = false ∧ d_isActive d = true
   ∧ (d_uploadedBy d = u_id user ∨ u_id user ∈ p_read (d_permissions d)
      ∨ d_isPublic d = true))
  ∧ ∃ q',
      documentsQuery user (mkListParams (Some id) status None None None None)
      = Some q'
      ∧ (satisfies q d = true → satisfies q' d = true).
Proof.
  intros q. subst q. split.
  - intros Hrole. unfold satisfies, categoryDocumentsQuery. rewrite Hrole. simpl.
    rewrite !andb_true_r. intros Hq.
    apply andb_true_iff in Hq as [Hq Hor].
    apply andb_true_iff in Hq as [Hq _].
    apply andb_true_iff in Hq as [Hq Hact].
    apply andb_true_iff in Hq as [Hcat Hdel].
    apply bool_decide_eq_true in Hcat, Hdel, Hact.
    repeat split; try done.
    rewrite orb_false_r in Hor.
    apply orb_true_iff in Hor as [Hown|Hor];
      [left; by apply bool_decide_eq_true in Hown|].
    apply orb_true_iff in Hor as [Hread|Hpub];
      [right; left; by apply bool_decide_eq_true in Hread|by right; right].
  - eexists. split; [reflexivity|].
    unfold satisfies, categoryDocumentsQuery. simpl.
    destruct (bool_decide (u_role user = role_user)); simpl; [|by destruct status].
    rewrite !andb_true_r, !orb_false_r. intros Hq.
    apply andb_true_iff in Hq as [Hq Hor]. rewrite Hq. simpl.
    apply orb_true_iff in Hor as [-> | Hor]; [done|].
    apply orb_true_iff in Hor as [-> | ->]; [by rewrite orb_true_r|].
    by rewrite !orb_true_r.
Qed.

End ListingFacts.

Lemma approved_listed_to_every_user_witness :
  ∃ q q',
    @documentsQuery demoMongo erin everything = Some q
    ∧ @documentsQuery demoMongo alice everything = Some q'
    ∧ @satisfies demoMongo q (memo approved) = @satisfies demoMongo q' (memo approved)
    ∧ checkOwnership (documents (demoDB approved)) erin 30
      = Reply (jsonError 403 "Not authorized to access this resource").
Proof.
  eexists. eexists. split; [reflexivity|]. split; [reflexivity|].
  apply (@approved_listed_to_every_user demoMongo erin alice everything _ _
           (documents (demoDB approved)) 30 (memo approved));
    try reflexivity; try done.
  apply (bool_decide_eq_false_1 _). vm_compute. reflexivity.
Defined.

(* --------------------------------------------------------------------- *)
(** ** Deactivated accounts at the login; approvals *)
(* --------------------------------------------------------------------- *)

Lemma DB_eta st :
  set_auditLogs (auditLogs st) (set_users (users st) st) = st.
Proof. by destruct st. Qed.

Section LoginFacts.
Context {bcrypt : Bcrypt} {validator : EmailValidator}.

(** X24: POST /api/auth/login checks the activity of the account before
    the password.  For the email of a deactivated account the answer is
    401 with the notice of deactivation, whatever the password is, and
    nothing is written. *)
Theorem deactivated_account_told_before_password st cl b b' user now duration salt :
  loginValidation b = Some b' →
  User_findOne_email (users st) (lb_email b') = Some user →
  u_isActive user = false →
  route_login st cl false b now duration salt
  = (jsonError 401 "Account is deactivated. Please contact administrator", st)
  ∧ ∀ password,
      password ≠ "" →
      route_login st cl false (mkLoginBody (lb_email b) password (lb_id b))
                  now duration salt
      = route_login st cl false b now duration salt.
Proof.
  intros Hval Hfind Hinactive.
  assert (∀ password, password ≠ "" →
            route_login st cl false (mkLoginBody (lb_email b) password (lb_id b))
                        now duration salt
            = (jsonError 401 "Account is deactivated. Please contact administrator",
               st)) as Hany.
  { intros password Hne. unfold route_login, loginValidation in *. simpl.
    destruct (isEmail (lb_email b)); [|done]. simpl in *.
    rewrite (bool_decide_eq_false_2 _ Hne). simpl.
    destruct (negb (bool_decide (lb_password b = ""))); [|done].
    injection Hval as <-. simpl in Hfind.
    unfold login. simpl. rewrite Hfind, Hinactive. simpl.
    unfold auditLog. rewrite auditLog_finish_no_user. by rewrite DB_eta. }
  assert (lb_password b ≠ "") as Hpw.
  { unfold loginValidation in Hval.
    destruct (bool_decide_reflect (lb_password b = "")) as [Hempty|]; [|done].
    by rewrite andb_false_r in Hval. }
  assert (route_login st cl false b now duration salt
          = (jsonError 401 "Account is deactivated. Please contact administrator",
             st)) as Hthis.
  { rewrite <- (Hany (lb_password b) Hpw). by destruct b. }
  split; [exact Hthis|]. intros password Hne. by rewrite Hthis, Hany.
Qed.

End LoginFacts.

Lemma deactivated_account_told_before_password_witness :
  let b := mkLoginBody "dave@example.com" "gone" None in
  @route_login demoBcrypt demoEmail emptyDB browser false b 5000 12 "salt"
  = (jsonError 401 "Account is deactivated. Please contact administrator", emptyDB)
  ∧ ∀ password,
      password ≠ "" →
      @route_login demoBcrypt demoEmail emptyDB browser false
        (mkLoginBody (lb_email b) password (lb_id b)) 5000 12 "salt"
      = @route_login demoBcrypt demoEmail emptyDB browser false b 5000 12 "salt".
Proof.
  apply (@deactivated_account_told_before_password demoBcrypt demoEmail emptyDB
           browser (mkLoginBody "dave@example.com" "gone" None)
           (mkLoginBody "dave@example.com" "gone" None) dave 5000 12 "salt");
    vm_compute; reflexivity.
Defined.

(** X25: an approval by an admin or a manager of a pending document sets
    the status, the approver and the time of approval; the reason for a
    rejection that the body may carry is not stored; no other document
    changes; and nothing asks that the approver be someone else than the
    uploader. *)
Theorem approval_sets_approver_keeps_reason st cl user id b now duration doc :
  documents st !! id = Some doc →
  d_status doc = pending →
  u_role user ∈ [role_admin; role_manager] →
  ab_status b = "approved" →
  is_Some (approvalValidation b) →
  let out := route_approval st cl user id b now duration in
  out.1 = jsonOk 200 "Document approved successfully"
  ∧ (∃ doc',
       documents out.2 !! id = Some doc'
       ∧ d_status doc' = approved
       ∧ d_approvedBy doc' = Some (u_id user)
       ∧ d_approvedAt doc' = Some now
       ∧ d_rejectionReason doc' = d_rejectionReason doc
       ∧ d_uploadedBy doc' = d_uploadedBy doc
       ∧ d_permissions doc' = d_permissions doc)
  ∧ (∀ other, other ≠ id → documents out.2 !! other = documents st !! other).
Proof.
  intros Hdoc Hst Hrole Happ [b' Hval] out. subst out.
  unfold route_approval. rewrite (authorize_Next _ _ Hrole), Hval.
  apply approvalValidation_Some in Hval as [-> _].
  rewrite audited_fst, audited_documents.
  unfold approveDocument. rewrite Hdoc, Hst. simpl. rewrite Happ. simpl.
  split; [done|]. split.
  - eexists. split; [apply lookup_insert_eq|]. done.
  - intros other Hne. by rewrite lookup_insert_ne.
Qed.

Lemma approval_sets_approver_keeps_reason_witness :
  let b := mkApprovalBody "approved" (Some "not needed") None in
  let out := route_approval (demoDB pending) browser alice 30 b 5000 12 in
  out.1 = jsonOk 200 "Document approved successfully"
  ∧ (∃ doc',
       documents out.2 !! (30 : ObjectId) = Some doc'
       ∧ d_status doc' = approved
       ∧ d_approvedBy doc' = Some (u_id alice)
       ∧ d_approvedAt doc' = Some 5000
       ∧ d_rejectionReason doc' = d_rejectionReason (memo pending)
       ∧ d_uploadedBy doc' = d_uploadedBy (memo pending)
       ∧ d_permissions doc' = d_permissions (memo pending))
  ∧ (∀ other, other ≠ 30 →
              documents out.2 !! other = documents (demoDB pending) !! other).
Proof.
  apply (approval_sets_approver_keeps_reason (demoDB pending) browser alice 30
           (mkApprovalBody "approved" (Some "not needed") None) 5000 12
           (memo pending)).
  - vm_compute. reflexivity.
  - reflexivity.
  - apply (bool_decide_unpack _). vm_compute. exact I.
  - reflexivity.
  - by eexists.
Defined.

(* --------------------------------------------------------------------- *)
(** ** The extension of a file name *)
(* --------------------------------------------------------------------- *)

Lemma lowerChar_idemp c : Js.lowerChar (Js.lowerChar c) = Js.lowerChar c.
Proof. by destruct c as [[] [] [] [] [] [] [] []]. Qed.

Lemma lowerChar_slash c : Js.lowerChar c = "/"%char ↔ c = "/"%char.
Proof. destruct c as [[] [] [] [] [] [] [] []]; by split. Qed.

Lemma lowerChar_dot c : Js.lowerChar c = "."%char ↔ c = "."%char.
Proof. destruct c as [[] [] [] [] [] [] [] []]; by split. Qed.

Lemma lowerChar_not_upper c : Js.isUpper (Js.lowerChar c) = false.
Proof. by destruct c as [[] [] [] [] [] [] [] []]. Qed.

Lemma toLowerCase_idemp s : Js.toLowerCase (Js.toLowerCase s) = Js.toLowerCase s.
Proof. induction s as [|c s IH]; [done|]. simpl. by rewrite lowerChar_idemp, IH. Qed.

Lemma toLowerCase_rev_app s acc :
  Js.toLowerCase (String.rev_app s acc)
  = String.rev_app (Js.toLowerCase s) (Js.toLowerCase acc).
Proof.
  revert acc. induction s as [|c s IH]; intros acc; [done|].
  cbn [String.rev_app Js.toLowerCase]. by rewrite IH.
Qed.

Lemma toLowerCase_rev s : Js.toLowerCase (String.rev s) = String.rev (Js.toLowerCase s).
Proof. unfold String.rev. by rewrite toLowerCase_rev_app. Qed.

Lemma dropSlashes_cons c s :
  Js.dropSlashes (String c s)
  = if decide (c = "/"%char) then Js.dropSlashes s else String c s.
Proof. destruct (decide _) as [->|Hne]; [done|]. by destruct c as [[] [] [] [] [] [] [] []]. Qed.

Lemma toLowerCase_dropSlashes s :
  Js.dropSlashes (Js.toLowerCase s) = Js.toLowerCase (Js.dropSlashes s).
Proof.
  induction s as [|c s IH]; [done|].
  cbn [Js.toLowerCase]. rewrite !dropSlashes_cons.
  destruct (decide (c = "/"%char)) as [->|Hne].
  - by rewrite decide_True.
  - rewrite decide_False; [done|]. by rewrite lowerChar_slash.
Qed.

Lemma toLowerCase_takeToSlash s :
  Js.takeToSlash (Js.toLowerCase s) = Js.toLowerCase (Js.takeToSlash s).
Proof.
  induction s as [|c s IH]; [done|].
  cbn [Js.toLowerCase Js.takeToSlash].
  destruct (decide (c = "/"%char)) as [->|Hne].
  - by rewrite decide_True.
  - rewrite decide_False by (by rewrite lowerChar_slash).
    cbn [Js.toLowerCase]. by rewrite IH.
Qed.

Lemma toLowerCase_cutAtDot s :
  Js.cutAtDot (Js.toLowerCase s)
  = (λ er, (Js.toLowerCase er.1, Js.toLowerCase er.2)) <$> Js.cutAtDot s.
Proof.
  induction s as [|c s IH]; [done|].
  cbn [Js.toLowerCase Js.cutAtDot].
  destruct (decide (c = "."%char)) as [->|Hne].
  - by rewrite decide_True.
  - rewrite decide_False by (by rewrite lowerChar_dot).
    rewrite IH. by destruct (Js.cutAtDot s) as [[e rest]|].
Qed.

Lemma toLowerCase_dots s : Js.toLowerCase s = ".." ↔ s = "..".
Proof.
  split; [|by intros ->].
  destruct s as [|a [|b [|c s]]]; cbn [Js.toLowerCase]; intros Heq.
  - discriminate.
  - injection Heq as _ Heq. discriminate.
  - injection Heq as Ha Hb.
    apply (proj1 (lowerChar_dot _)) in Ha. apply (proj1 (lowerChar_dot _)) in Hb.
    by rewrite Ha, Hb.
  - injection Heq as _ _ Heq. discriminate.
Qed.

Lemma toLowerCase_extname p :
  Js.extname (Js.toLowerCase p) = Js.toLowerCase (Js.extname p).
Proof.
  unfold Js.extname.
  rewrite <- toLowerCase_rev, toLowerCase_dropSlashes, toLowerCase_takeToSlash.
  set (base := Js.takeToSlash (Js.dropSlashes (String.rev p))).
  destruct (decide (base = "..")) as [Hdots|Hdots].
  - rewrite decide_True; [done|]. by apply toLowerCase_dots.
  - rewrite decide_False by (by rewrite toLowerCase_dots).
    rewrite toLowerCase_cutAtDot.
    destruct (Js.cutAtDot base) as [[e [|c rest]]|]; simpl; try done.
    by rewrite toLowerCase_rev.
Qed.

Lemma substring1_toLowerCase s :
  Js.substring1 (Js.toLowerCase s) = Js.toLowerCase (Js.substring1 s).
Proof. by destruct s. Qed.

Lemma hasUpper_toLowerCase s : hasUpper (Js.toLowerCase s) = false.
Proof.
  induction s as [|c s IH]; [done|].
  cbn [Js.toLowerCase hasUpper]. by rewrite lowerChar_not_upper, IH.
Qed.

Lemma fileExtensionOf_lower name :
  fileExtensionOf name = Js.toLowerCase (Js.substring1 (Js.extname (Js.toLowerCase name))).
Proof.
  unfold fileExtensionOf.
  by rewrite toLowerCase_extname, !substring1_toLowerCase, toLowerCase_idemp.
Qed.

(** X26: the checks of the extension do not look at the letter case of the
    file name.  Two files whose names differ in case only have the same
    extension for the upload filter and for the check of the category, and
    the upload filter decides alike on them; the extension that the checks
    (and the stored document) get has no capital letter. *)
Theorem extension_checks_ignore_case env f g :
  Js.toLowerCase (f_originalname f) = Js.toLowerCase (f_originalname g) →
  fileExtensionOf (f_originalname f) = fileExtensionOf (f_originalname g)
  ∧ fileFilter env f = fileFilter env g
  ∧ fm_fileExtension (getFileMetadata f) = fm_fileExtension (getFileMetadata g)
  ∧ hasUpper (fileExtensionOf (f_originalname f)) = false.
Proof.
  intros Hcase.
  assert (fileExtensionOf (f_originalname f) = fileExtensionOf (f_originalname g))
    as Hext by (by rewrite !fileExtensionOf_lower, Hcase).
  split; [exact Hext|]. split; [unfold fileFilter; by rewrite Hext|].
  split; [exact Hext|].
  rewrite fileExtensionOf_lower. apply hasUpper_toLowerCase.
Qed.

Lemma extension_checks_ignore_case_witness :
  fileExtensionOf "Report.PDF" = fileExtensionOf "report.pdf"
  ∧ fileFilter noEnv (fileNamed "Report.PDF") = fileFilter noEnv (fileNamed "report.pdf")
  ∧ fm_fileExtension (getFileMetadata (fileNamed "Report.PDF"))
    = fm_fileExtension (getFileMetadata (fileNamed "report.pdf"))
  ∧ hasUpper (fileExtensionOf "Report.PDF") = false.
Proof.
  apply (extension_checks_ignore_case noEnv (fileNamed "Report.PDF")
           (fileNamed "report.pdf")).
  reflexivity.
Defined.

(* --------------------------------------------------------------------- *)
(** ** GET /api/categories/:id after an update that closes a cycle *)
(* --------------------------------------------------------------------- *)

(** X27: once PUT /api/categories/:id has accepted a child as the new
    parent of its parent, GET /api/categories/:id sends no reply for either
    of the two, however long the walk to the root is left running; before,
    in a tree built by creations and by updates whose body names none of
    parent, slug, level and path, it answers within level plus one
    rounds. *)
Theorem category_page_never_answers_on_cycle {ids : MongoIds} st cl user ta tb a b
    A B now duration :
  builtTree st →
  u_role user ∈ [role_admin; role_manager] →
  castObjectId ta = Some a →
  castObjectId tb = Some b →
  isMongoId tb = true →
  categories st !! a = Some A →
  categories st !! b = Some B →
  c_parent B = Some a →
  a ≠ b →
  let st' := (route_updateCategory st cl user ta (moveUnder tb) now duration).2 in
  is_Some (getCategory (categories st) a (S (N.to_nat (c_level A))))
  ∧ is_Some (getCategory (categories st) b (S (N.to_nat (c_level B))))
  ∧ ∀ rounds,
      getCategory (categories st') a rounds = None
      ∧ getCategory (categories st') b rounds = None.
Proof.
  intros Hst Hrole Hta Htb Hmongo HA HB HpB Hne st'.
  split; [|split].
  - unfold getCategory. rewrite HA.
    by destruct (getFullPath_ends st _ Hst a A HA eq_refl) as [names ->].
  - unfold getCategory. rewrite HB.
    by destruct (getFullPath_ends st _ Hst b B HB eq_refl) as [names ->].
  - destruct (route_updateCategory_move st cl user ta tb a b A B now duration)
      as (_ & A' & Hcats & HpA' & _); try done.
    { intros ->. congruence. }
    fold st' in Hcats.
    assert (categories st' !! a = Some A') as HA'
      by (rewrite Hcats; apply lookup_insert_eq).
    assert (categories st' !! b = Some B) as HB'
      by (rewrite Hcats, lookup_insert_ne; done).
    assert (∀ rounds acc,
              getFullPath (categories st') rounds A' acc = None
              ∧ getFullPath (categories st') rounds B acc = None) as Hloop.
    { induction rounds as [|rounds IH]; intros acc; [done|].
      simpl. rewrite HpA', HpB, HA', HB'. split; apply IH. }
    intros rounds. unfold getCategory. rewrite HA', HB'.
    destruct (Hloop rounds []) as [-> ->]. done.
Qed.

Lemma category_page_never_answers_on_cycle_witness :
  is_Some (getCategory (categories twoLevels) 100 1)
  ∧ is_Some (getCategory (categories twoLevels) 101 2)
  ∧ ∀ rounds,
      getCategory (categories cycleTree) 100 rounds = None
      ∧ getCategory (categories cycleTree) 101 rounds = None.
Proof.
  apply (@category_page_never_answers_on_cycle demoIds twoLevels browser alice
           (idOf 100) (idOf 101) 100 101
           (mkCategory 100 "Finance" "finance" None 0 "finance" []
                       defaultMaxFileSize true 0 true 1)
           invoices 5000 12).
  - do 2 apply builtTree_createAs. by apply (@builtTree_init demoIds).
  - apply (bool_decide_unpack _). vm_compute. exact I.
  - reflexivity.
  - reflexivity.
  - reflexivity.
  - vm_compute. reflexivity.
  - vm_compute. reflexivity.
  - reflexivity.
  - done.
Defined.
